(** * Google Calendar MCP server: date/time normalisation, duplicate blocking
      and credential stripping

    A shallow embedding of these pieces of the server:

    - [parseNaturalDateTime], [parseTimeForDate] and [getNextWeekdayDate]
      (the natural-language date/time parser);
    - [CreateEventHandler.runTool] and [createEvent] (the create-event
      workflow and its duplicate-blocking policy);
    - [GoogleCalendarMcpServer.executeWithHandler] (the dispatcher that
      separates credentials from tool arguments), in its two versions, and
      the [execute] callback of the FastMCP server;
    - [createFlexibleDateTimeSchema], [normalizeDateTimeFields], the pattern
      of the extended-property filters and the [handlerFunction] of
      [list-google-calendar-events] (the tool registry);
    - [getAuthenticatedClient] (the token fetcher), in its two versions.

    Conventions of the embedding.

    - A JavaScript string is a [string] of 8-bit characters read as the code
      units U+0000..U+00FF; code units above U+00FF are outside the model.
    - A [Date] carries its time value as local milliseconds since the epoch,
      or is the invalid date.  The host zone is taken to have a fixed offset,
      so local calendar arithmetic is plain arithmetic on that number.
    - The current local date ([new Date(now.toLocaleString(..))]) is an
      argument of the parser's rules, [parseNaturalDateTime];
      [parseNaturalDateTimeOn] is the call on a host, which supplies that
      date or, for a time zone name it does not know, makes
      [toLocaleString] throw.
    - Similarities and thresholds are rationals; a JavaScript number that may
      be NaN is an [option Z].
    - Calls that leave the process (calendar API, detection service, token
      service) are fields of a record of responders, and every such call is
      appended to a trace. *)

From Stdlib Require Import ZArith QArith Qround Lia Bool Ascii String List DecimalString.
From stdpp Require Import base gmap strings.
Import ListNotations.

Local Open Scope string_scope.
Local Open Scope Z_scope.

(** ** JavaScript string primitives *)

Module JsString.

Definition code (c : ascii) : N := N_of_ascii c.

Definition inRange (lo hi : N) (c : ascii) : bool :=
  ((lo <=? code c) && (code c <=? hi))%N.

(** [\d] *)
Definition isDigit (c : ascii) : bool := inRange 48 57 c.

(** [\s], and the characters removed by [trim]: TAB, LF, VT, FF, CR, SP, NBSP. *)
Definition isSpace (c : ascii) : bool :=
  inRange 9 13 c || (code c =? 32)%N || (code c =? 160)%N.

(** [\w] *)
Definition isWord (c : ascii) : bool :=
  isDigit c || inRange 65 90 c || inRange 97 122 c || (code c =? 95)%N.

(** One code unit of [toLowerCase]: A-Z, and the Latin-1 capitals
    U+00C0..U+00DE without the multiplication sign U+00D7. *)
Definition lowerChar (c : ascii) : ascii :=
  if inRange 65 90 c || (inRange 192 222 c && negb (code c =? 215)%N)
  then ascii_of_N (code c + 32)
  else c.

Fixpoint toLowerCase (s : string) : string :=
  match s with
  | EmptyString => EmptyString
  | String c r => String (lowerChar c) (toLowerCase r)
  end.

Fixpoint trimStart (s : string) : string :=
  match s with
  | String c r => if isSpace c then trimStart r else s
  | EmptyString => EmptyString
  end.

Fixpoint trimEnd (s : string) : string :=
  match s with
  | String c r =>
      match trimEnd r with
      | EmptyString => if isSpace c then EmptyString else String c EmptyString
      | r' => String c r'
      end
  | EmptyString => EmptyString
  end.

Definition trim (s : string) : string := trimEnd (trimStart s).

(** [dropPrefix p s] is the rest of [s] after the prefix [p], when [s] starts
    with [p]. *)
Fixpoint dropPrefix (p s : string) : option string :=
  match p, s with
  | EmptyString, _ => Some s
  | String a p', String b s' => if Ascii.eqb a b then dropPrefix p' s' else None
  | String _ _, EmptyString => None
  end.

(** The same comparison under the [i] flag of a regular expression: two
    code units are equal when their case foldings are. *)
Fixpoint dropPrefixI (p s : string) : option string :=
  match p, s with
  | EmptyString, _ => Some s
  | String a p', String b s' =>
      if Ascii.eqb (lowerChar a) (lowerChar b) then dropPrefixI p' s' else None
  | String _ _, EmptyString => None
  end.

Definition startsWith (p s : string) : bool :=
  match dropPrefix p s with Some _ => true | None => false end.

(** [s.includes(p)] *)
Fixpoint includes (p s : string) : bool :=
  startsWith p s ||
  match s with
  | String _ r => includes p r
  | EmptyString => false
  end.

(** Some character of [s] satisfies [P]. *)
Fixpoint anyChar (P : ascii -> bool) (s : string) : bool :=
  match s with
  | String a r => P a || anyChar P r
  | EmptyString => false
  end.

(** Every character of [s] satisfies [P]. *)
Fixpoint allChars (P : ascii -> bool) (s : string) : bool :=
  match s with
  | String c r => P c && allChars P r
  | EmptyString => true
  end.

(** [c] is one of the characters of [s]. *)
Definition occurs (c : ascii) (s : string) : bool := anyChar (Ascii.eqb c) s.

(** The 256 code units of the model. *)
Definition allAscii : list ascii := List.map ascii_of_nat (List.seq 0 256).

Fixpoint take (n : nat) (s : string) : string :=
  match n, s with
  | S n', String c r => String c (take n' r)
  | _, _ => EmptyString
  end.

Fixpoint lastChar (d : option ascii) (s : string) : option ascii :=
  match s with
  | String c r => lastChar (Some c) r
  | EmptyString => d
  end.

(** [parseInt] of a run of decimal digits, most significant first. *)
Fixpoint parseDigits (acc : Z) (s : string) : Z :=
  match s with
  | String c r => parseDigits (10 * acc + (Z.of_N (code c) - 48)) r
  | EmptyString => acc
  end.

Definition parseInt (s : string) : Z := parseDigits 0 s.

(** [String(n)] for an integer [n]. *)
Definition showZ (n : Z) : string := NilZero.string_of_int (Z.to_int n).

(** [String(x)] for a number that is an integer or NaN. *)
Definition showNum (x : option Z) : string :=
  match x with
  | Some n => showZ n
  | None => "NaN"
  end.

(** The characters of a printed number: digits, the sign, and the letters
    of [NaN]. *)
Definition numChar (c : ascii) : bool :=
  isDigit c || Ascii.eqb c "-" || Ascii.eqb c "N" || Ascii.eqb c "a".

(** [s.padStart(2, '0')] *)
Definition padStart2 (s : string) : string :=
  match s with
  | EmptyString => "00"
  | String c EmptyString => String "0"%char s
  | _ => s
  end.

End JsString.

(** ** A backtracking matcher for the regular expressions of the parser *)

Module Regex.
Import JsString.

(** The fragment of the regular-expression syntax that the source uses.
    Repetition is only ever applied to a character class. *)
Inductive Re : Type :=
  | Lit (l : string)                                (* a literal run of characters *)
  | LitI (l : string)                               (* the same under the [i] flag *)
  | Cls (p : ascii -> bool) (lo : nat) (hi : option nat)  (* [p{lo,hi}], greedy *)
  | Seq (a b : Re)
  | Alt (a b : Re)                                  (* [a|b], left first *)
  | Opt (a : Re)                                    (* [(?:a)?], greedy *)
  | Grp (i : nat) (a : Re)                          (* capture group number i *)
  | WordB.                                          (* [\b] *)

(** Capture groups, most recent first. *)
Definition Caps : Type := list (nat * string).

(** A continuation receives the character before the position reached, the
    rest of the input and the captures made so far. *)
Definition Kont : Type := option ascii -> string -> Caps -> option Caps.

Fixpoint group (i : nat) (caps : Caps) : option string :=
  match caps with
  | (j, t) :: r => if Nat.eqb i j then Some t else group i r
  | [] => None
  end.

Definition is_Some_b {A} (x : option A) : bool :=
  match x with Some _ => true | None => false end.

Definition isWordAt (c : option ascii) : bool :=
  match c with Some a => isWord a | None => false end.

Definition headChar (s : string) : option ascii :=
  match s with String c _ => Some c | EmptyString => None end.

Definition mayTake (hi : option nat) : bool :=
  match hi with Some O => false | _ => true end.

(** Greedy repetition of a character class: take one more character first,
    and stop here only when that fails and the lower bound is met. *)
Fixpoint rep (p : ascii -> bool) (lo : nat) (hi : option nat)
    (prev : option ascii) (s : string) (caps : Caps) (k : Kont) {struct s}
    : option Caps :=
  let stop := match lo with O => k prev s caps | S _ => None end in
  match s with
  | String c r =>
      if p c && mayTake hi then
        match rep p (Nat.pred lo) (option_map Nat.pred hi) (Some c) r caps k with
        | Some res => Some res
        | None => stop
        end
      else stop
  | EmptyString => stop
  end.

Fixpoint exec (re : Re) (prev : option ascii) (s : string) (caps : Caps)
    (k : Kont) {struct re} : option Caps :=
  match re with
  | Lit l =>
      match dropPrefix l s with
      | Some r => k (lastChar prev l) r caps
      | None => None
      end
  | LitI l =>
      match dropPrefixI l s with
      | Some r => k (lastChar prev (take (String.length l) s)) r caps
      | None => None
      end
  | Cls p lo hi => rep p lo hi prev s caps k
  | Seq a b => exec a prev s caps (fun prev' s' caps' => exec b prev' s' caps' k)
  | Alt a b =>
      match exec a prev s caps k with
      | Some res => Some res
      | None => exec b prev s caps k
      end
  | Opt a =>
      match exec a prev s caps k with
      | Some res => Some res
      | None => k prev s caps
      end
  | Grp i a =>
      exec a prev s caps (fun prev' s' caps' =>
        k prev' s' ((i, take (String.length s - String.length s') s) :: caps'))
  | WordB =>
      if xorb (isWordAt prev) (isWordAt (headChar s)) then k prev s caps else None
  end.

Definition accept : Kont := fun _ _ caps => Some caps.

(** A continuation that never fails. *)
Definition total (k : Kont) : Prop := forall prev s caps, k prev s caps <> None.

(** The leftmost match: every start position is tried in turn. *)
Fixpoint searchFrom (re : Re) (prev : option ascii) (s : string) : option Caps :=
  match exec re prev s [] accept with
  | Some caps => Some caps
  | None =>
      match s with
      | String c r => searchFrom re (Some c) r
      | EmptyString => None
      end
  end.

(** [s.match(re)] for a regular expression without the [g] flag; the result
    holds the numbered capture groups. *)
Definition regexMatch (re : Re) (s : string) : option Caps := searchFrom re None s.

(** [a|b|...] for a list of literal alternatives, as built by
    [names.join('|')]. *)
Fixpoint joinAlt (names : list string) : Re :=
  match names with
  | [] => Lit ""
  | [n] => Lit n
  | n :: r => Alt (Lit n) (joinAlt r)
  end.

(** [mustHit P re]: every match of [re] consumes a character that
    satisfies [P]. *)
Fixpoint mustHit (P : ascii -> bool) (re : Re) : bool :=
  match re with
  | Lit l => anyChar P l
  | LitI _ => false
  | Cls p lo _ => Nat.ltb 0 lo && forallb (fun c => implb (p c) (P c)) allAscii
  | Seq a b => mustHit P a || mustHit P b
  | Alt a b => mustHit P a && mustHit P b
  | Opt _ => false
  | Grp _ a => mustHit P a
  | WordB => false
  end.

(** [hasGroup i re]: [re] holds the capture group number [i]. *)
Fixpoint hasGroup (i : nat) (re : Re) : bool :=
  match re with
  | Lit _ | LitI _ | Cls _ _ _ | WordB => false
  | Seq a b | Alt a b => hasGroup i a || hasGroup i b
  | Opt a => hasGroup i a
  | Grp j a => Nat.eqb i j || hasGroup i a
  end.

(** [optional re]: [re] can always match the empty string as a last
    resort, so it never makes a match fail. *)
Fixpoint optional (re : Re) : bool :=
  match re with
  | Lit l | LitI l => match l with EmptyString => true | _ => false end
  | Cls _ lo _ => Nat.eqb lo 0
  | Seq a b => optional a && optional b
  | Alt a b => optional a || optional b
  | Opt _ => true
  | Grp _ a => optional a
  | WordB => false
  end.

End Regex.

(** ** The built-in [Date], in local time *)

Module JsDate.

Definition msPerDay : Z := 86400000.
Definition msPerHour : Z := 3600000.
Definition msPerMinute : Z := 60000.

(** The largest time value a [Date] can hold. *)
Definition maxTime : Z := 8640000000000000.

Inductive Date : Type :=
  | ValidDate (t : Z)
  | InvalidDate.

Definition TimeClip (t : Z) : Date :=
  if Z.abs t <=? maxTime then ValidDate t else InvalidDate.

Definition Day (t : Z) : Z := t / msPerDay.
Definition TimeWithinDay (t : Z) : Z := t mod msPerDay.

Definition DayFromYear (y : Z) : Z :=
  365 * (y - 1970) + (y - 1969) / 4 - (y - 1901) / 100 + (y - 1601) / 400.

Definition InLeapYear (y : Z) : Z :=
  if negb (y mod 4 =? 0) then 0
  else if negb (y mod 100 =? 0) then 1
  else if negb (y mod 400 =? 0) then 0
  else 1.

(** The largest year whose first day is not after day [d]; the estimate is
    within one year of it. *)
Definition YearFromDay (d : Z) : Z :=
  let e := 1970 + (d * 400) / 146097 in
  if DayFromYear (e + 1) <=? d then e + 1
  else if DayFromYear e <=? d then e
  else e - 1.

Definition DayWithinYear (d : Z) : Z := d - DayFromYear (YearFromDay d).

Definition MonthFromDay (d : Z) : Z :=
  let w := DayWithinYear d in
  let l := InLeapYear (YearFromDay d) in
  if w <? 31 then 0
  else if w <? 59 + l then 1
  else if w <? 90 + l then 2
  else if w <? 120 + l then 3
  else if w <? 151 + l then 4
  else if w <? 181 + l then 5
  else if w <? 212 + l then 6
  else if w <? 243 + l then 7
  else if w <? 273 + l then 8
  else if w <? 304 + l then 9
  else if w <? 334 + l then 10
  else 11.

Definition DateFromDay (d : Z) : Z :=
  let w := DayWithinYear d in
  let l := InLeapYear (YearFromDay d) in
  match MonthFromDay d with
  | 0 => w + 1
  | 1 => w - 30
  | 2 => w - 58 - l
  | 3 => w - 89 - l
  | 4 => w - 119 - l
  | 5 => w - 150 - l
  | 6 => w - 180 - l
  | 7 => w - 211 - l
  | 8 => w - 242 - l
  | 9 => w - 272 - l
  | 10 => w - 303 - l
  | _ => w - 333 - l
  end.

Definition WeekDay (t : Z) : Z := (Day t + 4) mod 7.

(** A getter yields [None] (NaN) on the invalid date. *)
Definition getter (f : Z -> Z) (d : Date) : option Z :=
  match d with
  | ValidDate t => Some (f t)
  | InvalidDate => None
  end.

Definition getFullYear : Date -> option Z := getter (fun t => YearFromDay (Day t)).
Definition getMonth : Date -> option Z := getter (fun t => MonthFromDay (Day t)).
Definition getDate : Date -> option Z := getter (fun t => DateFromDay (Day t)).
Definition getDay : Date -> option Z := getter WeekDay.
Definition getHours : Date -> option Z := getter (fun t => TimeWithinDay t / msPerHour).
Definition getMinutes : Date -> option Z :=
  getter (fun t => (TimeWithinDay t mod msPerHour) / msPerMinute).

(** [setDate(n)]: day [n] of the current month, where day 1 of the month is
    [Day t - (DateFromDay (Day t) - 1)]; the time within the day is kept. *)
Definition setDate (d : Date) (n : option Z) : Date :=
  match d, n with
  | ValidDate t, Some n =>
      TimeClip ((Day t - (DateFromDay (Day t) - 1) + (n - 1)) * msPerDay + TimeWithinDay t)
  | _, _ => InvalidDate
  end.

(** [setHours(h, m, 0, 0)] *)
Definition setHours (d : Date) (h m : Z) : Date :=
  match d with
  | ValidDate t => TimeClip (Day t * msPerDay + (h * msPerHour + m * msPerMinute + 0 + 0))
  | InvalidDate => InvalidDate
  end.

(** Addition of two numbers either of which may be NaN. *)
Definition numAdd (x y : option Z) : option Z :=
  match x, y with
  | Some a, Some b => Some (a + b)
  | _, _ => None
  end.

(** Local midnight of a calendar day given by its day number. *)
Definition atDay (d : Z) : Date := ValidDate (d * msPerDay).

End JsDate.

(** ** The natural-language date/time parser *)

Module NaturalDateTime.
Import JsString Regex JsDate.

Record ParsedDateTime : Type := { datetime : string; isAllDay : bool }.

Infix ">>" := Seq (at level 60, right associativity).

(** [/(\d{1,2})(?::(\d{2}))?\s*(am|pm|a\.m\.|p\.m\.)?/i] *)
Definition timePattern : Re :=
  Grp 1 (Cls isDigit 1 (Some 2%nat)) >>
  Opt (Lit ":" >> Grp 2 (Cls isDigit 2 (Some 2%nat))) >>
  Cls isSpace 0 None >>
  Opt (Grp 3 (Alt (LitI "am") (Alt (LitI "pm") (Alt (LitI "a.m.") (LitI "p.m."))))).

(** [/(?:in\s+)?(\d+)\s+days?/] *)
Definition relativeDayPattern : Re :=
  Opt (Lit "in" >> Cls isSpace 1 None) >>
  Grp 1 (Cls isDigit 1 None) >>
  Cls isSpace 1 None >>
  Lit "day" >> Opt (Lit "s").

Definition dayNames : list string :=
  ["sunday"; "monday"; "tuesday"; "wednesday"; "thursday"; "friday"; "saturday"].

(** [new RegExp(`\\b(${dayNames.join('|')})\\b`)] *)
Definition dayPattern : Re :=
  WordB >> Grp 1 (joinAlt dayNames) >> WordB.

(** [names.indexOf(x)], which is [-1] when [x] is absent. *)
Fixpoint indexOfFrom (i : Z) (x : string) (names : list string) : Z :=
  match names with
  | n :: r => if String.eqb x n then i else indexOfFrom (i + 1) x r
  | [] => -1
  end.

Definition indexOf (x : string) (names : list string) : Z := indexOfFrom 0 x names.

(** A string is truthy when it is not empty. *)
Definition truthy (s : string) : bool :=
  match s with EmptyString => false | String _ _ => true end.

(** The AM/PM conversion of [parseTimeForDate]. *)
Definition adjustHours (hours : Z) (ampm : option string) : Z :=
  match ampm with
  | Some a =>
      if truthy a && (includes "pm" a || includes "p.m." a) then
        (if negb (hours =? 12) then hours + 12 else hours)
      else if truthy a && (includes "am" a || includes "a.m." a) && (hours =? 12) then 0
      else hours
  | None => hours
  end.

Definition minutesOf (m : option string) : Z :=
  match m with
  | Some t => if truthy t then parseInt t else 0
  | None => 0
  end.

Definition isoDate (d : Date) : string :=
  showNum (getFullYear d) +:+ "-" +:+
  padStart2 (showNum (numAdd (getMonth d) (Some 1))) +:+ "-" +:+
  padStart2 (showNum (getDate d)).

Definition isoDateTime (d : Date) : string :=
  isoDate d +:+ "T" +:+ padStart2 (showNum (getHours d)) +:+ ":" +:+
  padStart2 (showNum (getMinutes d)) +:+ ":00".

(** The date on which [parseTimeForDate] sets the extracted time. *)
Definition withTime (date : Date) (m : Caps) : Date :=
  let hours := adjustHours (parseInt (default "" (group 1 m)))
                           (option_map toLowerCase (group 3 m)) in
  setHours date hours (minutesOf (group 2 m)).

Definition parseTimeForDate (input : string) (date : Date) (timezone : string)
    : ParsedDateTime :=
  match regexMatch timePattern input with
  | Some timeMatch =>
      {| datetime := isoDateTime (withTime date timeMatch); isAllDay := false |}
  | None =>
      {| datetime := isoDate date; isAllDay := true |}
  end.

(** JavaScript's [%] on numbers that may be NaN. *)
Definition numRem (x : option Z) (n : Z) : option Z := option_map (fun a => Z.rem a n) x.

Definition getNextWeekdayDate (currentDate : Date) (targetDay : Z) : Date :=
  let currentDay := getDay currentDate in
  let daysUntilTarget :=
    numRem (numAdd (option_map (fun c => targetDay - c) currentDay) (Some 7)) 7 in
  match daysUntilTarget with
  | Some 0 => setDate currentDate (numAdd (getDate currentDate) (Some 7))
  | _ => setDate currentDate (numAdd (getDate currentDate) daysUntilTarget)
  end.

(** The anchor date chosen by the recognition rules, or [None] when no rule
    applies.  [current] is the current date in the requested time zone. *)
Definition anchorDate (normalizedInput : string) (current : Date) : option Date :=
  if includes "today" normalizedInput then Some current
  else if includes "tomorrow" normalizedInput then
    Some (setDate current (numAdd (getDate current) (Some 1)))
  else if includes "yesterday" normalizedInput then
    Some (setDate current (numAdd (getDate current) (Some (-1))))
  else
    match regexMatch relativeDayPattern normalizedInput with
    | Some relativeDayMatch =>
        let daysToAdd := option_map parseInt (group 1 relativeDayMatch) in
        Some (setDate current (numAdd (getDate current) daysToAdd))
    | None =>
        match regexMatch dayPattern normalizedInput with
        | Some dayMatch =>
            let targetDayName := default "" (group 1 dayMatch) in
            Some (getNextWeekdayDate current (indexOf targetDayName dayNames))
        | None => None
        end
    end.

(** Some recognition rule applies to the normalised input. *)
Definition recognized (normalizedInput : string) : bool :=
  includes "today" normalizedInput ||
  includes "tomorrow" normalizedInput ||
  includes "yesterday" normalizedInput ||
  is_Some_b (regexMatch relativeDayPattern normalizedInput) ||
  is_Some_b (regexMatch dayPattern normalizedInput).

(** Letters of which every recognition rule needs at least one: [today],
    [tomorrow], [yesterday], [day(s)] and the seven weekday names. *)
Definition anchorLetter (c : ascii) : bool :=
  Ascii.eqb c "d" || Ascii.eqb c "o" || Ascii.eqb c "y".

(** The characters of the text that [parseTimeForDate] produces. *)
Definition isoChar (c : ascii) : bool :=
  numChar c || Ascii.eqb c ":" || Ascii.eqb c "T".

Definition parseNaturalDateTime (input timezone : string) (current : Date)
    : ParsedDateTime :=
  let normalizedInput := trim (toLowerCase input) in
  match anchorDate normalizedInput current with
  | Some date => parseTimeForDate normalizedInput date timezone
  | None => {| datetime := input; isAllDay := negb (includes "T" input) |}
  end.

(** What the parser throws: the [RangeError] of [toLocaleString] for a time
    zone name that the host does not know. *)
Inductive ZoneError : Type := RangeError (timezone : string).

(** The host's part in [new Date(now.toLocaleString("en-US", { timeZone:
    timezone }))]: the current date in a time zone that the host knows, and
    [None] for a name that it does not know, for which [toLocaleString]
    throws. *)
Definition Host : Type := string -> option Date.

(** [parseNaturalDateTime(input, timezone)] on a host: the current date is
    asked for before any rule is tried, so an unknown time zone makes the
    call throw whatever the input is. *)
Definition parseNaturalDateTimeOn (host : Host) (input timezone : string)
    : ZoneError + ParsedDateTime :=
  match host timezone with
  | Some currentInTimezone => inr (parseNaturalDateTime input timezone currentInTimezone)
  | None => inl (RangeError timezone)
  end.

End NaturalDateTime.

(** ** Effects: a trace of outgoing calls, and exceptions *)

Module Eff.

Section Monad.
(** [C]: the calls recorded in the trace; [E]: what can be thrown. *)
Context {C E : Type}.

Definition M (A : Type) : Type := list C -> (E + A) * list C.

Definition ret {A} (a : A) : M A := fun tr => (inr a, tr).

Definition throw {A} (e : E) : M A := fun tr => (inl e, tr).

Definition bind {A B} (m : M A) (k : A -> M B) : M B :=
  fun tr =>
    match m tr with
    | (inr a, tr') => k a tr'
    | (inl e, tr') => (inl e, tr')
    end.

(** [try { m } catch (e) { h e }] *)
Definition tryCatch {A} (m : M A) (h : E -> M A) : M A :=
  fun tr =>
    match m tr with
    | (inr a, tr') => (inr a, tr')
    | (inl e, tr') => h e tr'
    end.

(** A call that leaves the process: it is recorded, then it answers or
    throws. *)
Definition call {A} (c : C) (answer : E + A) : M A :=
  fun tr => (answer, (tr ++ [c])%list).

Definition run {A} (m : M A) : (E + A) * list C := m [].

(** What a computation started on the empty trace returns or throws, and
    the calls it makes. *)
Definition outcome {A} (m : M A) : E + A := fst (run m).
Definition trace {A} (m : M A) : list C := snd (run m).

(** [m] only appends calls that satisfy [P] to the trace. *)
Definition emits {A} (P : C -> Prop) (m : M A) : Prop :=
  forall tr, exists ext, snd (m tr) = (tr ++ ext)%list /\ Forall P ext.
End Monad.

Arguments M : clear implicits.

Module Notations.
  Notation "x <- m ;; k" := (bind m (fun x => k))
    (at level 100, m at next level, right associativity).
  Notation "m ;;; k" := (bind m (fun _ => k))
    (at level 100, right associativity).
End Notations.

End Eff.

(** ** The create-event handler *)

Module CreateEvent.
Import JsString Eff Eff.Notations.

(** Modelled from the spec: [CONFLICT_DETECTION_CONFIG.DEFAULT_DUPLICATE_THRESHOLD]
    of [services/conflict-detection/config.js], which is not part of the
    sources at hand.  The detection bar defaults to 0.7 (spec section 6; the
    description of [duplicateSimilarityThreshold] in the tool registry says
    the same). *)
Definition DEFAULT_DUPLICATE_THRESHOLD : Q := 7 # 10.

(** Modelled from the spec: [CONFLICT_DETECTION_CONFIG.DUPLICATE_THRESHOLDS.BLOCKING]
    of the same file.  The creation-refusal bar is 0.95 (spec section 6; the
    description of [allowDuplicates] in the tool registry says the same). *)
Definition BLOCKING : Q := 95 # 100.

(** A JavaScript exception value, as far as the handler looks into it. *)
Record Exn : Type := {
  message : string;
  code : option Z;
  responseStatus : option Z
}.

Definition newError (msg : string) : Exn :=
  {| message := msg; code := None; responseStatus := None |}.

(** What [runTool] can throw, by the statement that throws it. *)
Inductive Thrown : Type :=
  | DuplicateDetected (msg : string)   (* the [throw new Error] of the duplicate check *)
  | EventIdExists (msg : string)       (* the 409 branch of [createEvent] *)
  | ApiError (e : Exn)                 (* [throw this.handleGoogleApiError(error)] *)
  | Raised (e : Exn).                  (* anything else, unchanged *)

Definition caught (t : Thrown) : Exn :=
  match t with
  | DuplicateDetected msg | EventIdExists msg => newError msg
  | ApiError e | Raised e => e
  end.

Record Attendee : Type := { email : option string; self : option bool }.

Record ConferenceData : Type := { conferenceId : option string; conferenceBody : string }.

Inductive ConferenceChoice : Type :=
  | ExistingConference (c : ConferenceData)
  | CreateRequest (requestId : string) (conferenceSolutionKey : string).

(** The arguments of the tool after schema validation. *)
Record CreateEventInput : Type := {
  calendarId : string;
  summary : string;
  description : option string;
  start : string;
  end_ : string;
  timeZone : option string;
  location : option string;
  attendees : option (list Attendee);
  eventId : option string;
  conferenceData : option ConferenceData;
  sendUpdates : option string;
  attachments : option (list string);
  (** [colorId], [reminders], [recurrence], [transparency], [visibility], the
      guest permissions, [extendedProperties] and [source], which the handler
      copies without looking at them *)
  copied : list (string * string);
  calendarsToCheck : option (list string);
  duplicateSimilarityThreshold : option Q;
  allowDuplicates : option bool
}.

Record DetectionOptions : Type := {
  opt_checkDuplicates : bool;
  opt_checkConflicts : bool;
  opt_calendarsToCheck : list string;
  opt_duplicateSimilarityThreshold : Q
}.

(** One entry of [conflicts.duplicates] or [conflicts.conflicts]. *)
Record MatchedEvent : Type := {
  id : option string;
  title : string;
  ev_start : option string;
  ev_end : option string;
  url : option string;
  similarity : Q
}.

Record ConflictInfo : Type := {
  event : MatchedEvent;
  conflict_calendarId : option string;
  suggestion : string
}.

Record ConflictCheckResult : Type := {
  hasConflicts : bool;
  conflicts : list ConflictInfo;
  duplicates : list ConflictInfo
}.

Section Handler.
(** [createTimeObject] of [utils/datetime.js] and the event type of the
    calendar API are taken as given. *)
Variable TimeObject : Type.
Variable createTimeObject : string -> string -> TimeObject.
Variable Event : Type.

Record EventSchema : Type := {
  rb_summary : string;
  rb_description : option string;
  rb_start : TimeObject;
  rb_end : TimeObject;
  rb_attendees : option (list Attendee);
  rb_location : option string;
  rb_copied : list (string * string);
  rb_conferenceData : option ConferenceChoice;
  rb_attachments : option (list string);
  rb_id : option string
}.

Record InsertParams : Type := {
  ins_calendarId : string;
  ins_requestBody : EventSchema;
  ins_sendUpdates : option string;
  ins_conferenceDataVersion : Z;
  ins_supportsAttachments : option bool
}.

(** The calls that leave the handler. *)
Inductive Call : Type :=
  | GetCalendarTimezone (calendar : string)
  | CheckConflicts (ev : EventSchema) (calendar : string) (o : DetectionOptions)
  | ValidateEventId (i : string)
  | GetTokenInfo
  | EventsInsert (p : InsertParams).

(** The write to the calendar, and the conflict check. *)
Definition isInsert (c : Call) : Prop :=
  match c with EventsInsert _ => True | _ => False end.

Definition isCheck (c : Call) : Prop :=
  match c with CheckConflicts _ _ _ => True | _ => False end.

(** How the collaborators answer. *)
Record Services : Type := {
  getCalendarTimezone : string -> Exn + string;
  checkConflicts : EventSchema -> string -> DetectionOptions -> Exn + ConflictCheckResult;
  validateEventId : string -> Exn + unit;
  tokenInfoEmail : Exn + option string;
  eventsInsert : InsertParams -> Exn + option Event;   (* [response.data] *)
  handleGoogleApiError : Exn -> Exn;
  dateNow : Z
}.

Variable svc : Services.

Definition H := M Call Thrown.

Definition ask {A} (c : Call) (answer : Exn + A) : H A :=
  call c (match answer with inl e => inl (Raised e) | inr a => inr a end).

(** [x || d] for an optional string: the empty string is falsy too. *)
Definition orString (x : option string) : option string :=
  match x with
  | Some EmptyString | None => None
  | Some s => Some s
  end.

(** [x || d] for an optional number: zero is falsy too. *)
Definition orNumber (x : option Q) (d : Q) : Q :=
  match x with
  | Some q => if Qeq_bool q 0 then d else q
  | None => d
  end.

(** [x || d] for an optional array: every array is truthy. *)
Definition orArray {A} (x : option (list A)) (d : list A) : list A :=
  match x with
  | Some l => l
  | None => d
  end.

Definition resolveTimezone (args : CreateEventInput) : H string :=
  match orString (timeZone args) with
  | Some tz => ret tz
  | None => ask (GetCalendarTimezone (calendarId args))
                (getCalendarTimezone svc (calendarId args))
  end.

(** The options object handed to [checkConflicts]. *)
Definition detectionOptions (validArgs : CreateEventInput) : DetectionOptions :=
  {| opt_checkDuplicates := true;
     opt_checkConflicts := true;
     opt_calendarsToCheck :=
       orArray (calendarsToCheck validArgs) [calendarId validArgs];
     opt_duplicateSimilarityThreshold :=
       orNumber (duplicateSimilarityThreshold validArgs) DEFAULT_DUPLICATE_THRESHOLD |}.

(** The range that the schema of the tool declares for
    [duplicateSimilarityThreshold]: [z.number().min(0).max(1)]. *)
Definition thresholdInRange (q : Q) : bool := Qle_bool 0 q && Qle_bool q 1.

(** [Math.round] *)
Definition round (q : Q) : Z := Qfloor (q + (1 # 2)).

Definition quote : string := String (ascii_of_nat 34) EmptyString.

Definition duplicateMessage (d : ConflictInfo) : string :=
  "Duplicate event detected (" +:+ showZ (round (similarity (event d) * 100)) +:+
  "% similar). " +:+
  "Event " +:+ quote +:+ title (event d) +:+ quote +:+ " already exists. " +:+
  "To create anyway, set allowDuplicates to true.".

Definition isBlocking (dup : ConflictInfo) : bool :=
  Qle_bool BLOCKING (similarity (event dup)).

(** [v !== true] *)
Definition notTrue (v : option bool) : bool :=
  match v with Some true => false | _ => true end.

Definition truthyId (x : option string) : bool :=
  match orString x with Some _ => true | None => false end.

Definition showOpt (x : option string) : string :=
  match x with Some s => s | None => "undefined" end.

Definition is409 (e : Exn) : bool :=
  match code e, responseStatus e with
  | Some 409, _ => true
  | _, Some 409 => true
  | _, _ => false
  end.

Definition sameEmail (a b : option string) : bool :=
  match a, b with
  | Some x, Some y => String.eqb x y
  | None, None => true
  | _, _ => false
  end.

Definition createEvent (args : CreateEventInput) : H Event :=
  tryCatch
    ((if truthyId (eventId args)
      then ask (ValidateEventId (default "" (eventId args)))
               (validateEventId svc (default "" (eventId args)))
      else ret tt) ;;;
     timezone <- resolveTimezone args ;;
     primaryEmail <- ask GetTokenInfo (tokenInfoEmail svc) ;;
     let primaryAttendee := {| email := primaryEmail; self := Some true |} in
     let attendees0 := orArray (attendees args) [] in
     let attendees1 :=
       if existsb (fun a => sameEmail (email a) primaryEmail) attendees0
       then attendees0 else (attendees0 ++ [primaryAttendee])%list in
     let meetCreationRequest :=
       CreateRequest (default (showZ (dateNow svc)) (orString (eventId args)))
                     "hangoutsMeet" in
     let conference :=
       match conferenceData args with
       | Some c => if truthyId (conferenceId c) then ExistingConference c
                   else meetCreationRequest
       | None => meetCreationRequest
       end in
     let requestBody :=
       {| rb_summary := summary args;
          rb_description := description args;
          rb_start := createTimeObject (start args) timezone;
          rb_end := createTimeObject (end_ args) timezone;
          rb_attendees := Some attendees1;
          rb_location := location args;
          rb_copied := copied args;
          rb_conferenceData := Some conference;
          rb_attachments := attachments args;
          rb_id := orString (eventId args) |} in
     let params :=
       {| ins_calendarId := calendarId args;
          ins_requestBody := requestBody;
          ins_sendUpdates := sendUpdates args;
          ins_conferenceDataVersion := 1;
          ins_supportsAttachments :=
            match attachments args with Some _ => Some true | None => None end |} in
     data <- ask (EventsInsert params) (eventsInsert svc params) ;;
     match data with
     | Some ev => ret ev
     | None => throw (Raised (newError "Failed to create event, no data returned"))
     end)
    (fun t =>
       let error := caught t in
       if is409 error then
         throw (EventIdExists ("Event ID '" +:+ showOpt (eventId args) +:+
                               "' already exists. Please use a different ID."))
       else throw (ApiError (handleGoogleApiError svc error))).

(** What the handler returns: the created event with the detection report,
    from which the response helpers build the structured answer. *)
Record CreateEventResponse : Type := {
  created : Event;
  report : ConflictCheckResult
}.

Definition eventToCheck (args : CreateEventInput) (timezone : string) : EventSchema :=
  {| rb_summary := summary args;
     rb_description := description args;
     rb_start := createTimeObject (start args) timezone;
     rb_end := createTimeObject (end_ args) timezone;
     rb_attendees := attendees args;
     rb_location := location args;
     rb_copied := [];
     rb_conferenceData := None;
     rb_attachments := None;
     rb_id := None |}.

Definition runTool (args : CreateEventInput) : H CreateEventResponse :=
  let validArgs := args in
  timezone <- resolveTimezone args ;;
  let eventToCheck := eventToCheck args timezone in
  conflicts <- ask (CheckConflicts eventToCheck (calendarId validArgs)
                                   (detectionOptions validArgs))
                   (checkConflicts svc eventToCheck (calendarId validArgs)
                                   (detectionOptions validArgs)) ;;
  let exactDuplicate := List.find isBlocking (duplicates conflicts) in
  match exactDuplicate with
  | Some dup =>
      if notTrue (allowDuplicates validArgs)
      then throw (DuplicateDetected (duplicateMessage dup))
      else ret tt
  | None => ret tt
  end ;;;
  ev <- createEvent validArgs ;;
  ret {| created := ev; report := conflicts |}.

(** A conflict check that carries the options built from [args] and names
    the target calendar of [args]; any other call. *)
Definition checksWith (args : CreateEventInput) (c : Call) : Prop :=
  match c with
  | CheckConflicts _ cal o => cal = calendarId args /\ o = detectionOptions args
  | _ => True
  end.

End Handler.

End CreateEvent.

(** ** The dispatcher: credentials versus tool arguments *)

Module Server.
Import JsString Eff Eff.Notations.

(** JavaScript values as they arrive in a tool request. *)
#[warnings="-register-all"]
Inductive JSValue : Type :=
  | JUndefined
  | JNull
  | JBool (b : bool)
  | JNumber (q : Q)
  | JNaN
  | JString (s : string)
  | JArray (l : list JSValue)
  | JObject (m : gmap string JSValue).

Definition truthy (v : JSValue) : bool :=
  match v with
  | JUndefined | JNull | JNaN => false
  | JBool b => b
  | JNumber q => negb (Qeq_bool q 0)
  | JString s => match s with EmptyString => false | _ => true end
  | JArray _ | JObject _ => true
  end.

(** [v.k]: reading a property of [null] or [undefined] throws, a missing
    property is [undefined]. *)
Definition getProp (v : JSValue) (k : string) : option JSValue :=
  match v with
  | JUndefined | JNull => None
  | JObject m => Some (default JUndefined (m !! k))
  | _ => Some JUndefined
  end.

(** The [credentials] object given to [setCredentials]. *)
Record Credentials : Type := {
  access_token : JSValue;
  refresh_token : JSValue;
  expiry_date : JSValue
}.

Record OAuth2Client : Type := {
  clientId : string;
  credentials : option Credentials
}.

Definition setCredentials (c : OAuth2Client) (cr : Credentials) : OAuth2Client :=
  {| clientId := clientId c; credentials := Some cr |}.

Inductive Thrown : Type :=
  | McpError (errorCode : string) (msg : string)
  | Raised (what : string).

Section Dispatcher.
(** The handler's answer type, and the built-ins and collaborators that
    the dispatcher relies on.  [None] stands for a thrown exception. *)
Variable Result : Type.
Variable JSON_parse : string -> option JSValue.
Variable toStringOf : JSValue -> option JSValue.
Variable Number_ : JSValue -> JSValue.
Variable initializeOAuth2Client : string + OAuth2Client.

(** What is observable from outside: the debug line on stderr and the
    handler invocation. *)
Inductive Call : Type :=
  | StderrDebug (args : gmap string JSValue)
  | StderrParseFailure
  | InitializeOAuth2Client
  | RunTool (toolArgs : gmap string JSValue) (authClient : OAuth2Client).

Definition S := M Call Thrown.

(** [const { access_token, refresh_token, expiry_date, ...toolArgs } = args] *)
Definition restOf (args : gmap string JSValue) : gmap string JSValue :=
  delete "expiry_date" (delete "refresh_token" (delete "access_token" args)).

Definition field (args : gmap string JSValue) (k : string) : JSValue :=
  default JUndefined (args !! k).

(** [typeof v === 'string' && v.startsWith('{')] *)
Definition looksLikeJson (v : JSValue) : option string :=
  match v with
  | JString s => if startsWith "{" s then Some s else None
  | _ => None
  end.

(** [parsed.success && parsed.tokens && parsed.tokens.google], then the
    read of [parsed.tokens.google]; [None] is a thrown exception,
    [Some None] a falsy condition. *)
Definition googleTokens (parsed : JSValue) : option (option JSValue) :=
  success ← getProp parsed "success";
  if truthy success then
    tokens ← getProp parsed "tokens";
    if truthy tokens then
      google ← getProp tokens "google";
      if truthy google then Some (Some google) else Some None
    else Some None
  else Some None.

(** One of the three [if] statements of the [try] block: the new value of
    the variable, or [None] when the statement throws.  [read] is what is
    taken out of [parsed.tokens.google]. *)
Definition reparse (read : JSValue -> option JSValue) (v : JSValue) : option JSValue :=
  match looksLikeJson v with
  | Some text =>
      parsed ← JSON_parse text;
      g ← googleTokens parsed;
      match g with
      | Some google => read google
      | None => Some v
      end
  | None => Some v
  end.

(** [google.expires_at?.toString()] *)
Definition readExpiresAt (google : JSValue) : option JSValue :=
  e ← getProp google "expires_at";
  match e with
  | JUndefined | JNull => Some JUndefined
  | _ => toStringOf e
  end.

(** The [try] block: the three variables after it, and whether the
    [catch] clause ran. *)
Definition parseTokens (a r e : JSValue) : JSValue * JSValue * JSValue * bool :=
  match reparse (fun g => getProp g "access_token") a with
  | None => (a, r, e, true)
  | Some a' =>
      match reparse (fun g => getProp g "refresh_token") r with
      | None => (a', r, e, true)
      | Some r' =>
          match reparse readExpiresAt e with
          | None => (a', r', e, true)
          | Some e' => (a', r', e', false)
          end
      end
  end.

Definition authRequired : string :=
  "[GOOGLE_AUTH_ERROR] Authentication required. Please provide access_token and refresh_token as parameters.".

(** The credentials that the dispatcher sets on the client. *)
Definition credentialsOf (args : gmap string JSValue) : Credentials :=
  let '(access, refresh, expiry, _) :=
    parseTokens (field args "access_token") (field args "refresh_token")
                (field args "expiry_date") in
  {| access_token := access;
     refresh_token := refresh;
     expiry_date := if truthy expiry then Number_ expiry else JUndefined |}.

Definition executeWithHandler
    (runTool : gmap string JSValue -> OAuth2Client -> string + Result)
    (args : gmap string JSValue) : S Result :=
  let toolArgs := restOf args in
  call (StderrDebug args) (inr tt) ;;;
  let '(access, refresh, expiry, failed) :=
    parseTokens (field args "access_token") (field args "refresh_token")
                (field args "expiry_date") in
  (if failed then call StderrParseFailure (inr tt) else ret tt) ;;;
  if negb (truthy access) || negb (truthy refresh)
  then throw (McpError "InvalidRequest" authRequired)
  else
    authClient <- call InitializeOAuth2Client
                    (match initializeOAuth2Client with
                     | inl e => inl (Raised e)
                     | inr c => inr c
                     end) ;;
    let authClient' :=
      setCredentials authClient
        {| access_token := access;
           refresh_token := refresh;
           expiry_date := if truthy expiry then Number_ expiry else JUndefined |} in
    call (RunTool toolArgs authClient')
         (match runTool toolArgs authClient' with
          | inl e => inl (Raised e)
          | inr res => inr res
          end).

End Dispatcher.

End Server.

(** ** Sample requests *)

Module Samples.
Import CreateEvent.

(** A request for "Team Sync" on the primary calendar, with none of the
    detection options set. *)
Definition teamSync : CreateEventInput :=
  {| calendarId := "primary";
     summary := "Team Sync";
     description := None;
     start := "2024-01-15T10:00:00";
     end_ := "2024-01-15T11:00:00";
     timeZone := Some "UTC";
     location := Some "Room 1";
     attendees := None;
     eventId := None;
     conferenceData := None;
     sendUpdates := None;
     attachments := None;
     copied := [];
     calendarsToCheck := None;
     duplicateSimilarityThreshold := None;
     allowDuplicates := None |}.

(** The same request with an explicit threshold of zero. *)
Definition teamSyncZero : CreateEventInput :=
  {| calendarId := "primary";
     summary := "Team Sync";
     description := None;
     start := "2024-01-15T10:00:00";
     end_ := "2024-01-15T11:00:00";
     timeZone := Some "UTC";
     location := Some "Room 1";
     attendees := None;
     eventId := None;
     conferenceData := None;
     sendUpdates := None;
     attachments := None;
     copied := [];
     calendarsToCheck := None;
     duplicateSimilarityThreshold := Some 0%Q;
     allowDuplicates := None |}.

(** An event already on the calendar that matches the request exactly. *)
Definition existingSync : ConflictInfo :=
  {| event := {| id := Some "evt-1"; title := "Team Sync";
                 ev_start := Some "2024-01-15T10:00:00";
                 ev_end := Some "2024-01-15T11:00:00";
                 url := None; similarity := 1 |};
     conflict_calendarId := Some "primary";
     suggestion := "This appears to be a duplicate." |}.

Definition syncReport : ConflictCheckResult :=
  {| hasConflicts := true; conflicts := [existingSync]; duplicates := [existingSync] |}.

(** Collaborators that always answer, the detection service with
    [syncReport]. *)
Definition answering : Services (string * string) string :=
  {| getCalendarTimezone := fun _ => inr "UTC";
     checkConflicts := fun _ _ _ => inr syncReport;
     validateEventId := fun _ => inr tt;
     tokenInfoEmail := inr (Some "owner@example.com");
     eventsInsert := fun _ => inr (Some "created");
     handleGoogleApiError := fun e => e;
     dateNow := 1705312800000 |}.

(** The request of the dispatcher's unit test: plain string tokens and one
    tool argument. *)
Definition tokenRequest : gmap string Server.JSValue :=
  <["access_token" := Server.JString "ya29.simple_access_token"]>
  (<["refresh_token" := Server.JString "1//simple_refresh_token"]>
  (<["expiry_date" := Server.JString "1763010691"]>
  (<["calendarId" := Server.JString "primary"]> ∅))).

Definition freshClient : Server.OAuth2Client :=
  {| Server.clientId := "client"; Server.credentials := None |}.

(** A report that lists overlapping events and no duplicate. *)
Definition overlapReport : ConflictCheckResult :=
  {| hasConflicts := true; conflicts := [existingSync; existingSync]; duplicates := [] |}.

(** Collaborators that always answer, the detection service with
    [overlapReport]. *)
Definition answeringOverlap : Services (string * string) string :=
  {| getCalendarTimezone := fun _ => inr "UTC";
     checkConflicts := fun _ _ _ => inr overlapReport;
     validateEventId := fun _ => inr tt;
     tokenInfoEmail := inr (Some "owner@example.com");
     eventsInsert := fun _ => inr (Some "created");
     handleGoogleApiError := fun e => e;
     dateNow := 1705312800000 |}.

(** The request for "Team Sync" with the calendars to check and no
    threshold, and with a threshold and no calendars to check. *)
Definition teamSyncTwoCalendars : CreateEventInput :=
  {| calendarId := "primary";
     summary := "Team Sync";
     description := None;
     start := "2024-01-15T10:00:00";
     end_ := "2024-01-15T11:00:00";
     timeZone := Some "UTC";
     location := Some "Room 1";
     attendees := None;
     eventId := None;
     conferenceData := None;
     sendUpdates := None;
     attachments := None;
     copied := [];
     calendarsToCheck := Some ["work"; "home"];
     duplicateSimilarityThreshold := None;
     allowDuplicates := None |}.

Definition teamSyncStrict : CreateEventInput :=
  {| calendarId := "primary";
     summary := "Team Sync";
     description := None;
     start := "2024-01-15T10:00:00";
     end_ := "2024-01-15T11:00:00";
     timeZone := Some "UTC";
     location := Some "Room 1";
     attendees := None;
     eventId := None;
     conferenceData := None;
     sendUpdates := None;
     attachments := None;
     copied := [];
     calendarsToCheck := None;
     duplicateSimilarityThreshold := Some (9 # 10);
     allowDuplicates := None |}.

(** A host that knows the zone [UTC] and no other, on Monday 2024-01-15. *)
Definition utcOnly : NaturalDateTime.Host :=
  fun timezone => if String.eqb timezone "UTC" then Some (JsDate.atDay 19737) else None.

End Samples.

(** ** Further string notions *)

Module JsStringMore.
Import JsString.

(** A string that does not start with white space. *)
Definition startsClean (s : string) : bool :=
  match s with String c _ => negb (isSpace c) | EmptyString => true end.

(** A run of exactly [n] decimal digits. *)
Definition digitString (n : nat) (s : string) : bool :=
  allChars isDigit s && Nat.eqb (String.length s) n.

End JsStringMore.

(** ** Anchored patterns and the flexible date/time schema *)

Module FlexibleDateTime.
Import JsString Regex JsDate NaturalDateTime.

(** The continuation of a pattern that ends in [$]: the input must be used
    up. *)
Definition atEnd : Kont :=
  fun _ s caps => match s with EmptyString => Some caps | String _ _ => None end.

(** [re.test(s)] for a pattern written [^...$]: the match starts at the
    first character and ends at the last. *)
Definition testWhole (re : Re) (s : string) : bool :=
  is_Some_b (exec re None s [] atEnd).

(** [\d{n}] *)
Definition digits (n : nat) : Re := Cls isDigit n (Some n).

(** [[+-]] *)
Definition isSign (c : ascii) : bool := Ascii.eqb c "+" || Ascii.eqb c "-".

(** [\d{4}-\d{2}-\d{2}] *)
Definition datePart : Re := digits 4 >> Lit "-" >> digits 2 >> Lit "-" >> digits 2.

(** [T\d{2}:\d{2}:\d{2}] *)
Definition timePart : Re :=
  Lit "T" >> digits 2 >> Lit ":" >> digits 2 >> Lit ":" >> digits 2.

(** [Z|[+-]\d{2}:\d{2}] *)
Definition zonePart : Re :=
  Alt (Lit "Z") (Cls isSign 1 (Some 1%nat) >> digits 2 >> Lit ":" >> digits 2).

(** [/^\d{4}-\d{2}-\d{2}(?:T\d{2}:\d{2}:\d{2}(?:Z|[+-]\d{2}:\d{2})?)?$/] *)
Definition isoPattern : Re := datePart >> Opt (timePart >> Opt zonePart).

(** [/^\d{4}-\d{2}-\d{2}$/] *)
Definition dateOnly : Re := datePart.

(** [/^\d{4}-\d{2}-\d{2}T\d{2}:\d{2}:\d{2}(Z|[+-]\d{2}:\d{2})$/] *)
Definition withTimezone : Re := datePart >> timePart >> Grp 1 zonePart.

(** [/^\d{4}-\d{2}-\d{2}T\d{2}:\d{2}:\d{2}$/] *)
Definition withoutTimezone : Re := datePart >> timePart.

(** [preprocess] of [createFlexibleDateTimeSchema] in the parser file, on a
    string value; a value that is not a string is returned as it is. *)
Definition preprocess (val timezone : string) (current : Date) : string :=
  if testWhole isoPattern val then val
  else datetime (parseNaturalDateTime val timezone current).

(** The [transform] step of [createFlexibleDateTimeSchema] in the tool
    registry: [timezone || 'UTC'] is the zone given to the parser. *)
Definition transform (timezone : option string) (val : string) (current : Date) : string :=
  if testWhole isoPattern val then val
  else datetime (parseNaturalDateTime val
                   (match timezone with
                    | Some (String c r) => String c r
                    | _ => "UTC"
                    end) current).

(** The [refine] step: one of the three accepted shapes. *)
Definition refine (val : string) : bool :=
  testWhole dateOnly val || testWhole withTimezone val || testWhole withoutTimezone val.

Definition formatError : string :=
  "Must be ISO 8601 format or natural language like 'today 8pm', 'tomorrow 2:30pm'".

(** The schema on a string: the transformed value, or the validation
    message. *)
Definition flexibleDateTime (timezone : option string) (val : string) (current : Date)
    : string + string :=
  let v := transform timezone val current in
  if refine v then inr v else inl formatError.

(** The date that [parseTimeForDate] prints for the anchor [date]: the
    anchor with the extracted time when the input holds one, else the anchor
    itself. *)
Definition printedDate (input : string) (date : Date) : Date :=
  match regexMatch timePattern input with
  | Some timeMatch => withTime date timeMatch
  | None => date
  end.

(** The part of a deterministic pattern's match: what is left of the input
    and the last character read.  Literals, classes with an exact count and
    their sequences are deterministic. *)
Fixpoint takeExact (p : ascii -> bool) (n : nat) (prev : option ascii) (s : string)
    : option (option ascii * string) :=
  match n with
  | O => Some (prev, s)
  | S n' =>
      match s with
      | String c r => if p c then takeExact p n' (Some c) r else None
      | EmptyString => None
      end
  end.

Fixpoint strip (re : Re) (prev : option ascii) (s : string)
    : option (option ascii * string) :=
  match re with
  | Lit l =>
      match dropPrefix l s with
      | Some r => Some (lastChar prev l, r)
      | None => None
      end
  | Cls p lo _ => takeExact p lo prev s
  | Seq a b =>
      match strip a prev s with
      | Some (prev', s') => strip b prev' s'
      | None => None
      end
  | _ => None
  end.

(** Two continuations that succeed on the same positions, whatever the
    captures. *)
Definition sameSuccess (k k' : Kont) : Prop :=
  forall prev s caps caps', is_Some_b (k prev s caps) = is_Some_b (k' prev s caps').

Fixpoint deterministic (re : Re) : bool :=
  match re with
  | Lit _ => true
  | Cls _ lo hi => match hi with Some n => Nat.eqb lo n | None => false end
  | Seq a b => deterministic a && deterministic b
  | _ => false
  end.

End FlexibleDateTime.

(** ** The request that [createEvent] sends *)

Module CreateEventParts.
Import JsString Eff Eff.Notations CreateEvent.

Section Parts.
Variable TimeObject : Type.
Variable createTimeObject : string -> string -> TimeObject.
Variable Event : Type.
Variable svc : Services TimeObject Event.

(** The attendee list of the request: the list of the arguments, with the
    primary user appended when no entry has the primary user's address. *)
Definition attendeesFor (args : CreateEventInput) (primaryEmail : option string)
    : list Attendee :=
  let primaryAttendee := {| email := primaryEmail; self := Some true |} in
  let attendees0 := orArray (attendees args) [] in
  if existsb (fun a => sameEmail (email a) primaryEmail) attendees0
  then attendees0 else (attendees0 ++ [primaryAttendee])%list.

(** The conference data of the request. *)
Definition conferenceFor (args : CreateEventInput) : ConferenceChoice :=
  let meetCreationRequest :=
    CreateRequest (default (showZ (dateNow _ _ svc)) (orString (eventId args)))
                  "hangoutsMeet" in
  match conferenceData args with
  | Some c => if truthyId (conferenceId c) then ExistingConference c
              else meetCreationRequest
  | None => meetCreationRequest
  end.

(** The parameters of [calendar.events.insert], for the resolved time zone
    and the primary user's address. *)
Definition insertParams (args : CreateEventInput) (timezone : string)
    (primaryEmail : option string) : InsertParams TimeObject :=
  {| ins_calendarId := calendarId args;
     ins_requestBody :=
       {| rb_summary := summary args;
          rb_description := description args;
          rb_start := createTimeObject (start args) timezone;
          rb_end := createTimeObject (end_ args) timezone;
          rb_attendees := Some (attendeesFor args primaryEmail);
          rb_location := location args;
          rb_copied := copied args;
          rb_conferenceData := Some (conferenceFor args);
          rb_attachments := attachments args;
          rb_id := orString (eventId args) |};
     ins_sendUpdates := sendUpdates args;
     ins_conferenceDataVersion := 1;
     ins_supportsAttachments :=
       match attachments args with Some _ => Some true | None => None end |}.

(** What the [catch] clause of [createEvent] throws for a caught error. *)
Definition rethrown (args : CreateEventInput) (error : Exn) : Thrown :=
  if is409 error then
    EventIdExists ("Event ID '" +:+ showOpt (eventId args) +:+
                   "' already exists. Please use a different ID.")
  else ApiError (handleGoogleApiError _ _ svc error).

(** The answer to the time-zone question, and the call it costs: none when
    the arguments name a zone. *)
Definition timezoneAnswer (args : CreateEventInput) : Exn + string :=
  match orString (timeZone args) with
  | Some tz => inr tz
  | None => getCalendarTimezone _ _ svc (calendarId args)
  end.

Definition timezoneCalls (args : CreateEventInput) : list (Call TimeObject) :=
  match orString (timeZone args) with
  | Some _ => []
  | None => [GetCalendarTimezone TimeObject (calendarId args)]
  end.

(** The validation of a custom event id, and the call it costs: none when
    the arguments give no id. *)
Definition validationAnswer (args : CreateEventInput) : Exn + unit :=
  if truthyId (eventId args) then validateEventId _ _ svc (default "" (eventId args))
  else inr tt.

Definition validationCalls (args : CreateEventInput) : list (Call TimeObject) :=
  if truthyId (eventId args)
  then [ValidateEventId TimeObject (default "" (eventId args))]
  else [].

(** The steps of [createEvent] before the insert: the calls made and either
    the error caught or the parameters of the insert. *)
Definition beforeInsert (args : CreateEventInput)
    : list (Call TimeObject) * (Exn + InsertParams TimeObject) :=
  match validationAnswer args with
  | inl e => (validationCalls args, inl e)
  | inr _ =>
      match timezoneAnswer args with
      | inl e => ((validationCalls args ++ timezoneCalls args)%list, inl e)
      | inr tz =>
          match tokenInfoEmail _ _ svc with
          | inl e =>
              ((validationCalls args ++ timezoneCalls args ++
                [GetTokenInfo TimeObject])%list, inl e)
          | inr primaryEmail =>
              ((validationCalls args ++ timezoneCalls args ++
                [GetTokenInfo TimeObject])%list,
               inr (insertParams args tz primaryEmail))
          end
      end
  end.

(** The duplicate check refuses the creation. *)
Definition blocked (args : CreateEventInput) (rep : ConflictCheckResult) : bool :=
  match List.find isBlocking (duplicates rep) with
  | Some _ => notTrue (allowDuplicates args)
  | None => false
  end.

(** The conflict check that [runTool] makes for the resolved time zone. *)
Definition checkCall (args : CreateEventInput) (timezone : string) : Call TimeObject :=
  CheckConflicts TimeObject (eventToCheck TimeObject createTimeObject args timezone)
    (calendarId args) (detectionOptions args).

(** A look-up of the calendar's time zone. *)
Definition isTimezoneLookup (c : Call TimeObject) : bool :=
  match c with GetCalendarTimezone _ _ => true | _ => false end.

(** The message of the error thrown for status 409. *)
Definition idExistsMessage (args : CreateEventInput) : string :=
  "Event ID '" +:+ showOpt (eventId args) +:+
  "' already exists. Please use a different ID.".

End Parts.

End CreateEventParts.

(** ** More sample requests *)

Module SamplesMore.
Import CreateEvent.

(** A request with a custom event id and no time zone, which allows
    duplicates. *)
Definition standup : CreateEventInput :=
  {| calendarId := "primary";
     summary := "Team Sync";
     description := None;
     start := "2024-01-15T10:00:00";
     end_ := "2024-01-15T11:00:00";
     timeZone := None;
     location := None;
     attendees := Some [{| email := Some "guest@example.com"; self := None |}];
     eventId := Some "standup01";
     conferenceData := None;
     sendUpdates := None;
     attachments := None;
     copied := [];
     calendarsToCheck := None;
     duplicateSimilarityThreshold := None;
     allowDuplicates := Some true |}.

Definition conflict409 : Exn :=
  {| message := "Conflict"; code := Some 409; responseStatus := None |}.

(** Collaborators as in [Samples.answering], except for the answers given
    here. *)
Definition answeringWith
    (check : Exn + ConflictCheckResult) (validate : Exn + unit)
    (insert : Exn + option string) : Services (string * string) string :=
  {| getCalendarTimezone := fun _ => inr "Europe/Paris";
     checkConflicts := fun _ _ _ => check;
     validateEventId := fun _ => validate;
     tokenInfoEmail := inr (Some "owner@example.com");
     eventsInsert := fun _ => insert;
     handleGoogleApiError := fun e => newError ("Google API error: " +:+ message e);
     dateNow := 1705312800000 |}.

End SamplesMore.

(** ** Parts of the dispatcher *)

Module ServerParts.
Import JsString Server.

(** A line on stderr; neither a client nor the handler is involved. *)
Definition isStderr (c : Call) : Prop :=
  match c with
  | StderrDebug _ | StderrParseFailure => True
  | InitializeOAuth2Client | RunTool _ _ => False
  end.

(** The [expiry_date] of the credentials for the value of the variable
    after the [try] block: [expiry_date ? Number(expiry_date) : undefined]. *)
Definition expiryOf (Number_ : JSValue -> JSValue) (expiry : JSValue) : JSValue :=
  if truthy expiry then Number_ expiry else JUndefined.

End ServerParts.

Module SamplesServer.
Import Server.

(** The answer of an external token service, as text and parsed. *)
Definition wrappedText : string := "{...}".

Definition wrapped : JSValue :=
  JObject (<["success" := JBool true]>
           (<["tokens" :=
                JObject (<["google" :=
                             JObject (<["access_token" := JString "ya29.inner"]>
                                      (<["refresh_token" := JString "1//inner"]>
                                      (<["expires_at" := JNumber 1763010691]> ∅)))]> ∅)]> ∅)).

(** A request that gives the wrapped answer for each of the three
    credentials. *)
Definition wrappedRequest : gmap string JSValue :=
  <["access_token" := JString wrappedText]>
  (<["refresh_token" := JString wrappedText]>
  (<["expiry_date" := JString wrappedText]>
  (<["calendarId" := JString "primary"]> ∅))).

(** A request whose access token starts like JSON. *)
Definition bracedRequest : gmap string JSValue :=
  <["access_token" := JString "{not json"]>
  (<["refresh_token" := JString "1//simple_refresh_token"]>
  (<["calendarId" := JString "primary"]> ∅)).

(** A request with no refresh token. *)
Definition accessOnly : gmap string JSValue :=
  <["access_token" := JString "ya29.simple_access_token"]>
  (<["calendarId" := JString "primary"]> ∅).

End SamplesServer.

(** ** The tool registry: preprocessing of the arguments *)

Module Registry.
Import JsString Regex NaturalDateTime FlexibleDateTime Server.

Definition toolsWithDateTime : list string :=
  ["create-google-calendar-event"; "update-google-calendar-event";
   "search-google-calendar-events"; "get-google-calendar-freebusy"].

Definition dateTimeFields : list string :=
  ["start"; "end"; "originalStartTime"; "futureStartDate"; "timeMin"; "timeMax"].

(** [typeof v === 'object'] *)
Definition isObject (v : JSValue) : bool :=
  match v with
  | JNull | JArray _ | JObject _ => true
  | _ => false
  end.

(** [obj.k] for a value that is neither [null] nor [undefined]. *)
Definition prop (obj : JSValue) (k : string) : JSValue :=
  default JUndefined (getProp obj k).

(** One round of the loop over [dateTimeFields]. *)
Definition normalizeField (normalized : gmap string JSValue) (field : string)
    : gmap string JSValue :=
  let v := default JUndefined (normalized !! field) in
  if truthy v && isObject v then
    let obj := v in
    if truthy (prop obj "date") then <[field := prop obj "date"]> normalized
    else if truthy (prop obj "dateTime") then <[field := prop obj "dateTime"]> normalized
    else normalized
  else normalized.

Definition normalizeDateTimeFields (toolName : string) (args : gmap string JSValue)
    : gmap string JSValue :=
  if existsb (String.eqb toolName) toolsWithDateTime
  then fold_left normalizeField dateTimeFields args
  else args.

(** What the loop makes of one value: an object with a truthy [date] gives
    way to that date, one with a truthy [dateTime] to that date-time. *)
Definition flattened (v : JSValue) : JSValue :=
  match v with
  | JObject obj =>
      if truthy (default JUndefined (obj !! "date"))
      then default JUndefined (obj !! "date")
      else if truthy (default JUndefined (obj !! "dateTime"))
      then default JUndefined (obj !! "dateTime")
      else v
  | _ => v
  end.

(** [[^=]] *)
Definition notEquals (c : ascii) : bool := negb (Ascii.eqb c "=").

(** [/^[^=]+=[^=]+$/], the pattern of [privateExtendedProperty] and
    [sharedExtendedProperty]. *)
Definition keyValuePattern : Re :=
  Cls notEquals 1 None >> Lit "=" >> Cls notEquals 1 None.

Definition isKeyValue (s : string) : bool := testWhole keyValuePattern s.

(** The rest of the input after a match of [re] that starts at its first
    character. *)
Definition matchRest (re : Re) (prev : option ascii) (s : string) : option string :=
  match exec re prev s [] (fun _ rest _ => Some [(0%nat, rest)]) with
  | Some ((_, rest) :: _) => Some rest
  | _ => None
  end.

(** [s.replace(re, by)] for a pattern with the [g] flag: the matches are
    looked for from left to right and do not overlap; after an empty match
    one character is copied.  [skip] counts the characters of the last match
    that are still to be passed over. *)
Fixpoint replaceAll (re : Re) (by_ : string) (prev : option ascii) (s : string)
    (skip : nat) : string :=
  match skip with
  | Datatypes.S n =>
      match s with
      | String c r => replaceAll re by_ (Some c) r n
      | EmptyString => EmptyString
      end
  | O =>
      match matchRest re prev s with
      | Some rest =>
          by_ +:+
          match s with
          | String c r =>
              match (String.length s - String.length rest)%nat with
              | O => String c (replaceAll re by_ (Some c) r 0)
              | Datatypes.S n => replaceAll re by_ (Some c) r n
              end
          | EmptyString => EmptyString
          end
      | None =>
          match s with
          | String c r => String c (replaceAll re by_ (Some c) r 0)
          | EmptyString => EmptyString
          end
      end
  end.

Definition replace (re : Re) (by_ : string) (s : string) : string :=
  replaceAll re by_ None s 0.

Definition quote : string := String (ascii_of_nat 34) EmptyString.

(** [/\[\s*'/g], [/'\s*,\s*'/g] and [/'\s*\]/g] *)
Definition openingQuote : Re := Lit "[" >> Cls isSpace 0 None >> Lit "'".
Definition separatingQuotes : Re :=
  Lit "'" >> Cls isSpace 0 None >> Lit "," >> Cls isSpace 0 None >> Lit "'".
Definition closingQuote : Re := Lit "'" >> Cls isSpace 0 None >> Lit "]".

(** The single-quoted list made into JSON. *)
Definition normalizeQuotes (jsonString : string) : string :=
  if includes "'" jsonString then
    replace closingQuote (quote +:+ "]")
      (replace separatingQuotes (quote +:+ ", " +:+ quote)
         (replace openingQuote ("[" +:+ quote) jsonString))
  else jsonString.

(** [s.endsWith(']')] *)
Definition endsWithBracket (s : string) : bool :=
  match lastChar None s with
  | Some c => Ascii.eqb c "]"
  | None => false
  end.

Definition isNonEmptyString (v : JSValue) : bool :=
  match v with
  | JString (String _ _) => true
  | _ => false
  end.

(** The strings among the values of an array. *)
Definition stringsOf (l : list JSValue) : list string :=
  omap (fun v => match v with JString s => Some s | _ => None end) l.

(** [new Set(parsed).size], for an array of strings. *)
Definition setSize (l : list JSValue) : nat :=
  List.length (List.nodup String.string_dec (stringsOf l)).

Definition invalidJson : string := "Invalid JSON format for calendarId: ".

Section ListEvents.
(** [JSON.parse]: the value, or the message of the [SyntaxError]. *)
Variable JSON_parse : string -> string + JSValue.

(** The [try] block of the [handlerFunction] of [list-google-calendar-events]:
    the calendar ids, or the message of the error thrown in it. *)
Definition parseCalendarIds (calendarId : string) : string + list JSValue :=
  let jsonString := normalizeQuotes (trim calendarId) in
  match JSON_parse jsonString with
  | inl syntaxError => inl syntaxError
  | inr (JArray parsed) =>
      if negb (forallb isNonEmptyString parsed)
      then inl "Array must contain only non-empty strings"
      else if Nat.eqb (List.length parsed) 0
      then inl "At least one calendar ID is required"
      else if Nat.ltb 50 (List.length parsed)
      then inl "Maximum 50 calendars allowed"
      else if negb (Nat.eqb (setSize parsed) (List.length parsed))
      then inl "Duplicate calendar IDs are not allowed"
      else inr parsed
  | inr _ => inl "JSON string must contain an array"
  end.

(** Whether the [calendarId] is a string to be read as a JSON list. *)
Definition looksLikeList (calendarId : JSValue) : option string :=
  match calendarId with
  | JString s =>
      if startsWith "[" (trim s) && endsWithBracket (trim s) then Some s else None
  | _ => None
  end.

(** The [handlerFunction]: the processed arguments, or the message of the
    error thrown. *)
Definition handlerFunction (args : gmap string JSValue) : string + gmap string JSValue :=
  let calendarId := field args "calendarId" in
  match looksLikeList calendarId with
  | Some s =>
      match parseCalendarIds s with
      | inl msg => inl (invalidJson +:+ msg)
      | inr parsed => inr (<["calendarId" := JArray parsed]> args)
      end
  | None => inr (<["calendarId" := calendarId]> args)
  end.

End ListEvents.

End Registry.

(** ** The FastMCP server: the [execute] callback of a tool *)

Module FastServer.
Import JsString Eff Eff.Notations Server Registry.

Section Execute.
(** The handler's answer type; [getAuthenticatedClient] of the token
    fetcher; the [handlerFunction] of the tool, if it has one, which returns
    the processed arguments or throws an [Error] with a message; and the
    handler of the tool. *)
Variable Result : Type.
Variable getAuthenticatedClient : JSValue -> JSValue -> Thrown + OAuth2Client.
Variable handlerFunction : option (gmap string JSValue -> string + gmap string JSValue).
Variable runTool : gmap string JSValue -> OAuth2Client -> string + Result.

Inductive Call : Type :=
  | StderrDebug (toolName : string) (normalizedArgs : gmap string JSValue)
  | GetAuthenticatedClient (user_id provider : JSValue)
  | HandlerFunction (normalizedArgs : gmap string JSValue)
  | RunTool (toolArgs : gmap string JSValue) (authClient : OAuth2Client).

Definition isRunTool (c : Call) : bool :=
  match c with RunTool _ _ => true | _ => false end.

(** The loop over [dateTimeFields], here for every tool. *)
Definition normalizedArgs (args : gmap string JSValue) : gmap string JSValue :=
  fold_left normalizeField dateTimeFields args.

(** [const { user_id, provider, ...toolArgs } = normalizedArgs] *)
Definition restOf (normalizedArgs : gmap string JSValue) : gmap string JSValue :=
  delete "provider" (delete "user_id" normalizedArgs).

Definition raised {A} (answer : string + A) : Thrown + A :=
  match answer with inl e => inl (Raised e) | inr a => inr a end.

Definition execute (toolName : string) (args : gmap string JSValue)
    : M Call Thrown Result :=
  let normalizedArgs := normalizedArgs args in
  let user_id := field normalizedArgs "user_id" in
  let provider := field normalizedArgs "provider" in
  let toolArgs := restOf normalizedArgs in
  call (StderrDebug toolName normalizedArgs) (inr tt) ;;;
  authClient <- call (GetAuthenticatedClient user_id provider)
                     (getAuthenticatedClient user_id provider) ;;
  processedArgs <- match handlerFunction with
                   | Some f => call (HandlerFunction normalizedArgs)
                                    (raised (f normalizedArgs))
                   | None => ret normalizedArgs
                   end ;;
  call (RunTool toolArgs authClient) (raised (runTool toolArgs authClient)).

End Execute.

End FastServer.

(** ** The token fetcher *)

Module TokenFetcher.
Import JsString Eff Eff.Notations.

(** The tokens that the token service holds for one provider. *)
Record ProviderTokens : Type := {
  access_token : option string;
  refresh_token : option string;
  expires_at : option Q;          (* seconds since the epoch *)
  token_type : option string
}.

(** The answer of [getOAuthTokens]. *)
Inductive AuthResult : Type :=
  | AuthFailure (error : string) (requires_auth : option bool) (message : option string)
  | AuthSuccess (tokens : gmap string ProviderTokens).

(** The object given to [setCredentials]. *)
Record Credentials : Type := {
  cr_access_token : option string;
  cr_refresh_token : option string;
  cr_expiry_date : option Q;      (* milliseconds since the epoch *)
  cr_token_type : option string
}.

Record OAuth2Client : Type := {
  clientId : string;
  credentials : option Credentials
}.

Definition setCredentials (c : OAuth2Client) (cr : Credentials) : OAuth2Client :=
  {| clientId := clientId c; credentials := Some cr |}.

Inductive ErrorCode : Type := InvalidRequest | InvalidParams | InternalError.

Inductive Thrown : Type :=
  | McpError (errorCode : ErrorCode) (msg : string)
  | Raised (what : string).

Inductive Call : Type :=
  | GetOAuthTokens (userId provider : string)
  | InitializeOAuth2Client.

(** [x || d] on strings *)
Definition orElse (x : option string) (d : string) : string :=
  match x with
  | Some (String c r) => String c r
  | _ => d
  end.

Definition nonEmpty (x : option string) : bool :=
  match x with Some (String _ _) => true | _ => false end.

(** [expires_at ? expires_at * 1000 : undefined] *)
Definition expiryDate (expires_at : option Q) : option Q :=
  match expires_at with
  | Some q => if Qeq_bool q 0 then None else Some (q * 1000)%Q
  | None => None
  end.

Definition requiredParameters : string :=
  "[AUTH_ERROR] user_id and provider are required parameters".

Section Fetcher.
(** The token service and the client factory; each answers or throws. *)
Variable getOAuthTokens : string -> string -> string + AuthResult.
Variable initializeOAuth2Client : string + OAuth2Client.

Definition raised {A} (answer : string + A) : Thrown + A :=
  match answer with inl e => inl (Raised e) | inr a => inr a end.

(** The tokens that the service holds for the provider, when it answers
    with success and they include an access token. *)
Definition found (userId provider : string) : option ProviderTokens :=
  match getOAuthTokens userId provider with
  | inr (AuthSuccess tokens) =>
      match tokens !! provider with
      | Some t => if nonEmpty (access_token t) then Some t else None
      | None => None
      end
  | _ => None
  end.

(** The credentials made of the tokens of the provider. *)
Definition credentialsFor (t : ProviderTokens) (token_type : option string) : Credentials :=
  {| cr_access_token := access_token t;
     cr_refresh_token := refresh_token t;
     cr_expiry_date := expiryDate (expires_at t);
     cr_token_type := token_type |}.

(** [getAuthenticatedClient(userId, provider)] of the handler's file. *)
Definition getAuthenticatedClient (userId provider : string)
    : M Call Thrown OAuth2Client :=
  if negb (nonEmpty (Some userId)) || negb (nonEmpty (Some provider))
  then throw (McpError InvalidRequest requiredParameters)
  else
    authResult <- call (GetOAuthTokens userId provider)
                       (raised (getOAuthTokens userId provider)) ;;
    match authResult with
    | AuthFailure error requires_auth message =>
        match requires_auth with
        | Some true =>
            throw (McpError InvalidRequest
                     (orElse message (orElse (Some error) "Authentication required")))
        | _ =>
            throw (McpError InternalError
                     (orElse (Some error) "Failed to retrieve OAuth tokens"))
        end
    | AuthSuccess tokens =>
        match tokens !! provider with
        | Some t =>
            if nonEmpty (access_token t) then
              oauth2Client <- call InitializeOAuth2Client (raised initializeOAuth2Client) ;;
              ret (setCredentials oauth2Client
                     {| cr_access_token := access_token t;
                        cr_refresh_token := refresh_token t;
                        cr_expiry_date := expiryDate (expires_at t);
                        cr_token_type := Some (orElse (token_type t) "Bearer") |})
            else
              throw (McpError InternalError
                       ("[AUTH_ERROR] No access token found for provider " +:+ provider))
        | None =>
            throw (McpError InternalError
                     ("[AUTH_ERROR] No access token found for provider " +:+ provider))
        end
    end.

(** [getAuthenticatedClient(user_id, provider)] of the token fetcher's own
    file: it builds the client itself and wraps what is thrown on the way. *)
Definition getAuthenticatedClientWrapped (user_id provider : string)
    : M Call Thrown OAuth2Client :=
  if negb (nonEmpty (Some user_id)) || negb (nonEmpty (Some provider))
  then throw (McpError InvalidParams requiredParameters)
  else
    tryCatch
      (tokenResponse <- call (GetOAuthTokens user_id provider)
                             (raised (getOAuthTokens user_id provider)) ;;
       match tokenResponse with
       | AuthFailure error requires_auth message =>
           match requires_auth with
           | Some true =>
               throw (McpError InvalidRequest
                        (orElse message
                           ("Authentication required: Please connect your " +:+ provider +:+
                            " account.")))
           | _ =>
               throw (McpError InternalError
                        (orElse (Some error) "Failed to retrieve OAuth tokens"))
           end
       | AuthSuccess tokens =>
           match tokens !! provider with
           | Some t =>
               if nonEmpty (access_token t) then
                 let oauth2Client := {| clientId := ""; credentials := None |} in
                 ret (setCredentials oauth2Client
                        {| cr_access_token := access_token t;
                           cr_refresh_token := refresh_token t;
                           cr_expiry_date := expiryDate (expires_at t);
                           cr_token_type := token_type t |})
               else
                 throw (McpError InvalidRequest
                          ("[AUTH_ERROR] No access token found for provider " +:+ provider))
           | None =>
               throw (McpError InvalidRequest
                        ("[AUTH_ERROR] No access token found for provider " +:+ provider))
           end
       end)
      (fun error =>
         match error with
         | McpError _ _ => throw error
         | Raised what =>
             throw (McpError InternalError ("[AUTH_ERROR] Failed to authenticate: " +:+ what))
         end).

End Fetcher.

End TokenFetcher.

(** ** The dispatcher that falls back on stored tokens *)

Module StoredTokens.
Import JsString Eff Eff.Notations Server.

Section Dispatcher.
(** The handler's answer type, the client of the server with its stored
    tokens, [tokenManager.validateTokens()], and the client factory. *)
Variable Result : Type.
Variable oauth2Client : OAuth2Client.
Variable validateTokens : string + bool.
Variable initializeOAuth2Client : string + OAuth2Client.

Inductive Call : Type :=
  | InitializeOAuth2Client
  | ValidateTokens
  | RunTool (toolArgs : gmap string JSValue) (authClient : OAuth2Client).

(** [const { access_token, refresh_token, ...toolArgs } = args] *)
Definition restOf (args : gmap string JSValue) : gmap string JSValue :=
  delete "refresh_token" (delete "access_token" args).

Definition raised {A} (answer : string + A) : Thrown + A :=
  match answer with inl e => inl (Raised e) | inr a => inr a end.

Definition executeWithHandler
    (runTool : gmap string JSValue -> OAuth2Client -> string + Result)
    (args : gmap string JSValue) : M Call Thrown Result :=
  let access := field args "access_token" in
  let refresh := field args "refresh_token" in
  let toolArgs := restOf args in
  authClient <-
    (if truthy access || truthy refresh then
       authClient <- call InitializeOAuth2Client (raised initializeOAuth2Client) ;;
       ret (setCredentials authClient
              {| access_token := access;
                 refresh_token := refresh;
                 expiry_date := JUndefined |})
     else
       valid <- call ValidateTokens (raised validateTokens) ;;
       if (valid : bool) then ret oauth2Client
       else throw (McpError "InvalidRequest" authRequired)) ;;
  call (RunTool toolArgs authClient) (raised (runTool toolArgs authClient)).

End Dispatcher.

End StoredTokens.

Module SamplesRegistry.
Import Server Registry.

(** A [JSON.parse] that knows one text. *)
Definition parseTwoIds (text : string) : string + JSValue :=
  if String.eqb text ("[" +:+ quote +:+ "work" +:+ quote +:+ ", " +:+
                      quote +:+ "home" +:+ quote +:+ "]")
  then inr (JArray [JString "work"; JString "home"])
  else inl "Unexpected token".

(** A request that lists two calendars the way Python prints a list. *)
Definition twoCalendars : gmap string JSValue :=
  <["calendarId" := JString " ['work', 'home'] "]>
  (<["timeMin" := JString "today"]> ∅).

(** A request in the format of the calendar API. *)
Definition apiFormat : gmap string JSValue :=
  <["user_id" := JString "user123"]>
  (<["provider" := JString "google"]>
  (<["summary" := JString "Team Sync"]>
  (<["start" := JObject (<["dateTime" := JString "2025-01-01T10:00:00"]>
                         (<["timeZone" := JString "UTC"]> ∅))]>
  (<["end" := JObject (<["date" := JString "2025-01-02"]> ∅)]> ∅)))).

End SamplesRegistry.

Module SamplesTokens.
Import TokenFetcher.

(** The tokens of the fetcher's unit test, without a token type. *)
Definition google : ProviderTokens :=
  {| access_token := Some "ya29.test_access_token";
     refresh_token := Some "1//test_refresh_token";
     expires_at := Some 1763010691%Q;
     token_type := None |}.

Definition service (userId provider : string) : string + AuthResult :=
  inr (AuthSuccess (<["google" := google]> ∅)).

Definition blankClient : OAuth2Client := {| clientId := "client"; credentials := None |}.

End SamplesTokens.

(** * Properties *)

(** ** Strings *)

Module JsStringFacts.
Import JsString.

#[local] Arguments String.append !_ _ / : simpl nomatch.

Lemma append_assoc (a b c : string) : (a +:+ b) +:+ c = a +:+ (b +:+ c).
Proof. induction a as [|x a IH]; simpl; [done|]. by rewrite IH. Qed.

Lemma anyChar_append P a b : anyChar P (a +:+ b) = anyChar P a || anyChar P b.
Proof.
  induction a as [|x a IH]; simpl; [done|].
  by rewrite IH, orb_assoc.
Qed.

Lemma allChars_append P a b : allChars P (a +:+ b) = allChars P a && allChars P b.
Proof.
  induction a as [|x a IH]; simpl; [done|].
  by rewrite IH, andb_assoc.
Qed.

(** When all characters satisfy [P] and some character satisfies [Q], a
    single character satisfies both. *)
Lemma allChars_anyChar P Q s :
  allChars P s = true -> anyChar Q s = true ->
  exists c, P c = true /\ Q c = true.
Proof.
  induction s as [|x s IH]; simpl; [done|].
  intros [Hx Hs]%andb_true_iff [Hc|Hc]%orb_true_iff; [by exists x|by apply IH].
Qed.

Lemma allChars_without P Q s :
  (forall c, P c = true -> Q c = false) ->
  allChars P s = true -> anyChar Q s = false.
Proof.
  intros HPQ Hs. destruct (anyChar Q s) eqn:E; [|done].
  destruct (allChars_anyChar _ _ _ Hs E) as (c & Hp & Hq).
  rewrite (HPQ _ Hp) in Hq. done.
Qed.

Lemma allChars_weaken (P Q : ascii -> bool) s :
  (forall c, P c = true -> Q c = true) ->
  allChars P s = true -> allChars Q s = true.
Proof.
  intros HPQ. induction s as [|x s IH]; simpl; [done|].
  intros [Hx Hs]%andb_true_iff. rewrite (HPQ _ Hx). by apply IH.
Qed.

Lemma anyChar_weaken (P Q : ascii -> bool) s :
  (forall c, P c = true -> Q c = true) ->
  anyChar P s = true -> anyChar Q s = true.
Proof.
  intros HPQ. induction s as [|x s IH]; simpl; [done|].
  intros [Hx|Hs]%orb_true_iff; [by rewrite (HPQ _ Hx)|].
  rewrite (IH Hs). apply orb_true_r.
Qed.

(** A property checked on the 256 code units holds of every character. *)
Lemma forall_ascii (P : ascii -> bool) :
  forallb P allAscii = true -> forall c, P c = true.
Proof.
  intros H c. rewrite forallb_forall in H. apply H.
  unfold allAscii. apply in_map_iff. exists (nat_of_ascii c).
  split; [apply ascii_nat_embedding|].
  apply in_seq. pose proof (nat_ascii_bounded c). lia.
Qed.

Lemma forall_ascii_impl (P Q : ascii -> bool) :
  forallb (fun c => implb (P c) (Q c)) allAscii = true ->
  forall c, P c = true -> Q c = true.
Proof.
  intros H c Hp. pose proof (forall_ascii _ H c) as Hc. cbv beta in Hc.
  by rewrite Hp in Hc.
Qed.

Lemma dropPrefix_append p s r : dropPrefix p s = Some r -> s = p +:+ r.
Proof.
  revert s. induction p as [|a p IH]; intros [|b s]; simpl; try congruence.
  destruct (Ascii.eqb a b) eqn:E; [|done].
  apply Ascii.eqb_eq in E as ->. intros H. by rewrite (IH _ H).
Qed.

Lemma dropPrefix_app_same p r : dropPrefix p (p +:+ r) = Some r.
Proof.
  induction p as [|a p IH]; simpl; [done|].
  by rewrite Ascii.eqb_refl.
Qed.

Lemma dropPrefixI_suffix p s r : dropPrefixI p s = Some r -> exists w, s = w +:+ r.
Proof.
  revert s. induction p as [|a p IH]; intros [|b s]; simpl; try congruence.
  - intros [= <-]. by exists "".
  - intros [= <-]. by exists "".
  - destruct (Ascii.eqb _ _); [|done].
    intros [w ->]%IH. by exists (String b w).
Qed.


Lemma length_append (a b : string) :
  String.length (a +:+ b) = (String.length a + String.length b)%nat.
Proof. induction a as [|x a IH]; simpl; [done|]. by rewrite IH. Qed.

Lemma take_append (w r : string) :
  take (String.length (w +:+ r) - String.length r) (w +:+ r) = w.
Proof.
  rewrite length_append.
  replace (String.length w + String.length r - String.length r)%nat
    with (String.length w) by lia.
  induction w as [|x w IH]; simpl; [by destruct r|]. by rewrite IH.
Qed.

Lemma includes_anyChar p s P :
  includes p s = true -> anyChar P p = true -> anyChar P s = true.
Proof.
  intros Hin Hc. induction s as [|x s IH].
  - simpl in Hin. unfold startsWith in Hin.
    destruct (dropPrefix p "") eqn:E; [|done].
    apply dropPrefix_append in E. destruct p; [done|discriminate E].
  - change (includes p (String x s)) with
      (startsWith p (String x s) || includes p s) in Hin.
    apply orb_true_iff in Hin as [Hin|Hin].
    + unfold startsWith in Hin. destruct (dropPrefix p (String x s)) eqn:E; [|done].
      apply dropPrefix_append in E. rewrite E, anyChar_append, Hc. done.
    + simpl. rewrite (IH Hin). apply orb_true_r.
Qed.

Lemma includes_without p s P :
  anyChar P p = true -> anyChar P s = false -> includes p s = false.
Proof.
  intros Hc Hs. destruct (includes p s) eqn:E; [|done].
  apply (includes_anyChar _ _ P) in E; congruence.
Qed.

Lemma includes_prefix p b : includes p (p +:+ b) = true.
Proof.
  destruct (p +:+ b) eqn:E; simpl; unfold startsWith;
    rewrite <- E, dropPrefix_app_same; done.
Qed.

Lemma includes_append_r p a s : includes p s = true -> includes p (a +:+ s) = true.
Proof.
  intros H. induction a as [|x a IH]; [done|].
  change (includes p (String x (a +:+ s)) = true).
  simpl. rewrite IH. apply orb_true_r.
Qed.

Lemma includes_middle p a b : includes p (a +:+ p +:+ b) = true.
Proof.
  induction a as [|x a IH].
  - simpl. destruct (p +:+ b) eqn:E; simpl; unfold startsWith;
      rewrite <- E, dropPrefix_app_same; done.
  - change (includes p (String x (a +:+ p +:+ b)) = true).
    simpl. rewrite IH. apply orb_true_r.
Qed.

(** For a single character, [includes] is [occurs]. *)
Lemma includes_char c s : includes (String c "") s = occurs c s.
Proof.
  unfold occurs. induction s as [|x s IH]; [done|].
  change (includes (String c "") (String x s)) with
    (startsWith (String c "") (String x s) || includes (String c "") s).
  rewrite IH. simpl. f_equal. unfold startsWith. simpl.
  by destruct (Ascii.eqb c x).
Qed.

Lemma allChars_trimStart P s : allChars P s = true -> allChars P (trimStart s) = true.
Proof.
  induction s as [|x s IH]; simpl; [done|].
  intros H. destruct (isSpace x); [|done].
  apply andb_true_iff in H as [_ H]. by apply IH.
Qed.

Lemma allChars_trimEnd P s : allChars P s = true -> allChars P (trimEnd s) = true.
Proof.
  induction s as [|x s IH]; simpl; [done|].
  intros [Hx Hs]%andb_true_iff. specialize (IH Hs).
  destruct (trimEnd s) as [|y t].
  - destruct (isSpace x); simpl; [done|]. by rewrite Hx.
  - simpl in *. by rewrite Hx, IH.
Qed.

Lemma allChars_trim P s : allChars P s = true -> allChars P (trim s) = true.
Proof. intros H. apply allChars_trimEnd, allChars_trimStart, H. Qed.

Lemma allChars_toLowerCase (P Q : ascii -> bool) s :
  (forall c, P c = true -> Q (lowerChar c) = true) ->
  allChars P s = true -> allChars Q (toLowerCase s) = true.
Proof.
  intros HPQ. induction s as [|x s IH]; simpl; [done|].
  intros [Hx Hs]%andb_true_iff. by rewrite (HPQ _ Hx), IH.
Qed.

Lemma allChars_uint d : allChars numChar (NilEmpty.string_of_uint d) = true.
Proof. induction d; simpl; try done. Qed.

Lemma allChars_showZ n : allChars numChar (showZ n) = true.
Proof.
  unfold showZ, NilZero.string_of_int, NilZero.string_of_uint.
  destruct (Z.to_int n) as [d|d]; destruct d; simpl; try done; apply allChars_uint.
Qed.

Lemma allChars_showNum x : allChars numChar (showNum x) = true.
Proof. destruct x; [apply allChars_showZ|done]. Qed.

Lemma allChars_padStart2 P s :
  P "0"%char = true -> allChars P s = true -> allChars P (padStart2 s) = true.
Proof.
  intros H0 Hs. destruct s as [|a [|b s]]; simpl in *; rewrite ?H0; done.
Qed.

End JsStringFacts.

(** ** The matcher *)

Module RegexFacts.
Import JsString JsStringFacts Regex.

#[local] Arguments String.append !_ _ / : simpl nomatch.

(** A successful repetition hands a suffix of the input to its
    continuation, with the captures untouched; the part consumed consists of
    characters of the class, at least [lo] of them. *)
Lemma rep_inv p lo hi prev s caps k res :
  rep p lo hi prev s caps k = Some res ->
  exists w s' prev',
    s = w +:+ s' /\ k prev' s' caps = Some res /\
    allChars p w = true /\ (lo <= String.length w)%nat /\
    (forall n, hi = Some n -> (String.length w <= n)%nat).
Proof.
  revert lo hi prev. induction s as [|c s IH]; intros lo hi prev; simpl.
  - destruct lo; [|done]. intros H. exists "", "", prev. simpl.
    split_and!; [done..|lia].
  - assert (Hstop : match lo with O => k prev (String c s) caps | S _ => None end = Some res ->
                    exists w s' prev',
                      String c s = w +:+ s' /\ k prev' s' caps = Some res /\
                      allChars p w = true /\ (lo <= String.length w)%nat /\
                      (forall n, hi = Some n -> (String.length w <= n)%nat)).
    { destruct lo; [|done]. intros H. exists "", (String c s), prev. simpl.
      split_and!; [done..|lia]. }
    destruct (p c && mayTake hi) eqn:Hp; [|done].
    destruct (rep p (Nat.pred lo) (option_map Nat.pred hi) (Some c) s caps k)
      as [r0|] eqn:E; [|done].
    intros [= <-]. apply IH in E as (w & s' & prev' & -> & Hk & Hw & Hlen & Hhi).
    apply andb_true_iff in Hp as [Hp Hmay].
    exists (String c w), s', prev'. simpl. rewrite Hp, Hw. split_and!; [done..|lia|].
    intros n ->. destruct n as [|n]; [done|]. specialize (Hhi n eq_refl). lia.
Qed.

(** A successful match of [re] consumes a prefix [w] of the input and hands
    the rest to the continuation; [w] holds a character of every class that
    [re] must hit. *)
Lemma exec_inv re : forall prev s caps k res,
  exec re prev s caps k = Some res ->
  exists w s' prev' caps',
    s = w +:+ s' /\ k prev' s' caps' = Some res /\
    forall P, mustHit P re = true -> anyChar P w = true.
Proof.
  induction re as [l|l|p lo hi|a IHa b IHb|a IHa b IHb|a IHa|i a IHa|];
    intros prev s caps k res; cbn [exec mustHit].
  - destruct (dropPrefix l s) as [r|] eqn:E; [|done]. intros Hk.
    apply dropPrefix_append in E. by exists l, r, (lastChar prev l), caps.
  - destruct (dropPrefixI l s) as [r|] eqn:E; [|done]. intros Hk.
    apply dropPrefixI_suffix in E as [w ->].
    by eexists w, r, _, caps.
  - intros (w & s' & prev' & -> & Hk & Hw & Hlen & _)%rep_inv.
    exists w, s', prev', caps. split_and!; [done..|].
    intros P [Hlo Hall]%andb_true_iff. apply Nat.ltb_lt in Hlo.
    destruct w as [|x w]; [simpl in Hlen; lia|].
    cbn [allChars anyChar] in *.
    apply andb_true_iff in Hw as [Hx _].
    pose proof (forall_ascii _ Hall x) as Hi. cbv beta in Hi.
    rewrite Hx in Hi. cbn [implb] in Hi. by rewrite Hi.
  - intros (w1 & s1 & prev1 & caps1 & -> & Hb & Hw1)%IHa.
    apply IHb in Hb as (w2 & s2 & prev2 & caps2 & -> & Hk & Hw2).
    exists (w1 +:+ w2), s2, prev2, caps2. split; [by rewrite append_assoc|].
    split; [done|]. intros P [H|H]%orb_true_iff; rewrite anyChar_append.
    + by rewrite (Hw1 _ H).
    + rewrite (Hw2 _ H). apply orb_true_r.
  - destruct (exec a prev s caps k) as [r0|] eqn:E.
    + intros [= <-]. apply IHa in E as (w & s' & prev' & caps' & -> & Hk & Hw).
      exists w, s', prev', caps'. split_and!; [done..|].
      intros P [H _]%andb_true_iff. by apply Hw.
    + intros (w & s' & prev' & caps' & -> & Hk & Hw)%IHb.
      exists w, s', prev', caps'. split_and!; [done..|].
      intros P [_ H]%andb_true_iff. by apply Hw.
  - destruct (exec a prev s caps k) as [r0|] eqn:E.
    + intros [= <-]. apply IHa in E as (w & s' & prev' & caps' & -> & Hk & _).
      by exists w, s', prev', caps'.
    + intros Hk. by exists "", s, prev, caps.
  - intros (w & s' & prev' & caps' & -> & Hk & Hw)%IHa.
    by eexists w, s', prev', _.
  - destruct (xorb _ _); [|done]. intros Hk. by exists "", s, prev, caps.
Qed.

(** A successful match leaves the capture groups that [re] does not hold
    as they were. *)
Lemma exec_keeps re : forall prev s caps k res,
  exec re prev s caps k = Some res ->
  exists s' prev' caps',
    k prev' s' caps' = Some res /\
    forall i, hasGroup i re = false -> group i caps' = group i caps.
Proof.
  induction re as [l|l|p lo hi|a IHa b IHb|a IHa b IHb|a IHa|j a IHa|];
    intros prev s caps k res; cbn [exec hasGroup].
  - destruct (dropPrefix l s) as [r|]; [|done]. intros Hk. by eexists r, _, caps.
  - destruct (dropPrefixI l s) as [r|]; [|done]. intros Hk. by eexists r, _, caps.
  - intros (w & s' & prev' & -> & Hk & _)%rep_inv. by exists s', prev', caps.
  - intros (s1 & prev1 & caps1 & Hb & H1)%IHa.
    apply IHb in Hb as (s2 & prev2 & caps2 & Hk & H2).
    exists s2, prev2, caps2. split; [done|].
    intros i [Ha Hb]%orb_false_iff. by rewrite H2, H1.
  - destruct (exec a prev s caps k) as [r0|] eqn:E.
    + intros [= <-]. apply IHa in E as (s' & prev' & caps' & Hk & H1).
      exists s', prev', caps'. split; [done|].
      intros i [Ha _]%orb_false_iff. by apply H1.
    + intros (s' & prev' & caps' & Hk & H1)%IHb.
      exists s', prev', caps'. split; [done|].
      intros i [_ Hb]%orb_false_iff. by apply H1.
  - destruct (exec a prev s caps k) as [r0|] eqn:E.
    + intros [= <-]. by apply IHa in E.
    + intros Hk. by exists s, prev, caps.
  - intros (s' & prev' & caps' & Hk & H1)%IHa.
    eexists s', prev', _. split; [exact Hk|].
    intros i [Hi Ha]%orb_false_iff. cbn [group]. rewrite Hi. by apply H1.
  - destruct (xorb _ _); [|done]. intros Hk. by exists s, prev, caps.
Qed.

Lemma exec_seq_keeps a b prev s caps k res :
  exec (Seq a b) prev s caps k = Some res ->
  exists s' prev' caps',
    exec b prev' s' caps' k = Some res /\
    forall i, hasGroup i a = false -> group i caps' = group i caps.
Proof. cbn [exec]. intros H. by apply (exec_keeps a) in H. Qed.

(** With the accepting continuation the result is the captures reached. *)
Lemma exec_accept_keeps re prev s caps res i :
  exec re prev s caps accept = Some res ->
  hasGroup i re = false -> group i res = group i caps.
Proof.
  intros (s' & prev' & caps' & [= <-] & H)%exec_keeps Hi. by apply H.
Qed.

Lemma searchFrom_hits re P : forall prev s caps,
  mustHit P re = true -> searchFrom re prev s = Some caps -> anyChar P s = true.
Proof.
  intros prev s caps Hc. revert prev.
  induction s as [|x s IH]; intros prev; simpl.
  - destruct (exec re prev "" [] accept) as [r0|] eqn:E; [|done]. intros _.
    apply exec_inv in E as (w & s' & _ & _ & Hs & _ & Hw).
    destruct w; [|discriminate Hs]. by specialize (Hw _ Hc).
  - destruct (exec re prev (String x s) [] accept) as [r0|] eqn:E.
    + intros _. apply exec_inv in E as (w & s' & _ & _ & Hs & _ & Hw).
      change (anyChar P (String x s) = true).
      rewrite Hs, anyChar_append, (Hw _ Hc). done.
    + intros H%IH. rewrite H. apply orb_true_r.
Qed.

(** A regular expression that must hit [P] does not match a string without
    a character in [P]. *)
Lemma regexMatch_without re P s :
  mustHit P re = true -> anyChar P s = false -> regexMatch re s = None.
Proof.
  intros Hc Hs. destruct (regexMatch re s) as [r0|] eqn:E; [|done].
  apply (searchFrom_hits _ _ _ _ _ Hc) in E. congruence.
Qed.

Lemma regexMatch_hits re P s caps :
  mustHit P re = true -> regexMatch re s = Some caps -> anyChar P s = true.
Proof. intros Hc. apply searchFrom_hits, Hc. Qed.

Lemma rep_optional p hi prev s caps k :
  total k -> rep p 0 hi prev s caps k <> None.
Proof.
  intros Hk. destruct s as [|c s]; simpl; [apply Hk|].
  destruct (p c && mayTake hi); [|apply Hk].
  destruct (rep p 0 (option_map Nat.pred hi) (Some c) s caps k); [done|apply Hk].
Qed.

Lemma exec_optional re : forall prev s caps k,
  optional re = true -> total k -> exec re prev s caps k <> None.
Proof.
  induction re as [l|l|p lo hi|a IHa b IHb|a IHa b IHb|a IHa|i a IHa|];
    intros prev s caps k Hopt Hk; simpl in *; try done.
  - destruct l; [|done]. simpl. apply Hk.
  - destruct l; [|done]. simpl. apply Hk.
  - apply Nat.eqb_eq in Hopt as ->. by apply rep_optional.
  - apply andb_true_iff in Hopt as [Ha Hb]. apply IHa; [done|].
    intros prev' s' caps'. by apply IHb.
  - destruct (exec a prev s caps k) as [r0|] eqn:E; [done|].
    apply orb_true_iff in Hopt as [Ha|Hb]; [|by apply IHb].
    by apply IHa in E.
  - destruct (exec a prev s caps k); [done|apply Hk].
  - apply IHa; [done|]. intros prev' s' caps'. apply Hk.
Qed.

(** An alternation of literals matches one of them. *)
Lemma joinAlt_inv names : forall prev s caps k res,
  exec (joinAlt names) prev s caps k = Some res ->
  exists n r,
    (In n names \/ names = [] /\ n = "") /\
    s = n +:+ r /\ k (lastChar prev n) r caps = Some res.
Proof.
  induction names as [|n [|n' names] IH]; intros prev s caps k res.
  - simpl. intros Hk. exists "", s. auto.
  - simpl. destruct (dropPrefix n s) as [r|] eqn:E; [|done]. intros Hk.
    apply dropPrefix_append in E. exists n, r. auto.
  - change (joinAlt (n :: n' :: names)) with (Alt (Lit n) (joinAlt (n' :: names))).
    cbn [exec]. destruct (dropPrefix n s) as [r|] eqn:E.
    + destruct (k (lastChar prev n) r caps) as [r0|] eqn:Hk.
      * intros [= <-]. apply dropPrefix_append in E. exists n, r.
        split_and!; [left; by left|done..].
      * intros (m & r' & [Hin|[? _]] & Hs & Hk')%IH; [|done].
        exists m, r'. split_and!; [left; by right|done..].
    + intros (m & r' & [Hin|[? _]] & Hs & Hk')%IH; [|done].
      exists m, r'. split_and!; [left; by right|done..].
Qed.

End RegexFacts.

(** ** The calendar arithmetic of [Date] *)

Module JsDateFacts.
Import JsDate.

Lemma time_split t : t = Day t * msPerDay + TimeWithinDay t.
Proof. unfold Day, TimeWithinDay, msPerDay. pose proof (Z.div_mod t 86400000). lia. Qed.

(** [d.setDate(d.getDate() + k)] moves a valid date by [k] whole days. *)
Lemma setDate_shift t k :
  setDate (ValidDate t) (numAdd (getDate (ValidDate t)) (Some k))
  = TimeClip (t + k * msPerDay).
Proof.
  unfold setDate, getDate, getter, numAdd. f_equal.
  pose proof (time_split t) as Ht. unfold msPerDay in *. lia.
Qed.

(** [YearFromDay] selects the year that holds the day. *)
Lemma YearFromDay_spec d :
  DayFromYear (YearFromDay d) <= d < DayFromYear (YearFromDay d + 1).
Proof.
  unfold YearFromDay. cbv zeta.
  destruct (Z.leb_spec (DayFromYear (1970 + d * 400 / 146097 + 1)) d) as [H1|H1];
    [|destruct (Z.leb_spec (DayFromYear (1970 + d * 400 / 146097)) d) as [H2|H2]].
  - split; [assumption|]. revert H1. unfold DayFromYear. Z.div_mod_to_equations. lia.
  - split; [assumption|]. lia.
  - split.
    + revert H2. unfold DayFromYear. Z.div_mod_to_equations. lia.
    + replace (1970 + d * 400 / 146097 - 1 + 1) with (1970 + d * 400 / 146097) by lia. lia.
Qed.

Lemma Day_shift t k : Day (t + k * msPerDay) = Day t + k.
Proof. unfold Day, msPerDay. by rewrite Z.div_add. Qed.

Lemma TimeWithinDay_shift t k : TimeWithinDay (t + k * msPerDay) = TimeWithinDay t.
Proof. unfold TimeWithinDay, msPerDay. by rewrite Z.mod_add. Qed.

Lemma WeekDay_range t : 0 <= WeekDay t < 7.
Proof. unfold WeekDay. apply Z.mod_pos_bound. lia. Qed.

Lemma TimeClip_valid t : - maxTime <= t <= maxTime -> TimeClip t = ValidDate t.
Proof.
  intros H. unfold TimeClip. destruct (Z.leb_spec (Z.abs t) maxTime); [done|lia].
Qed.


End JsDateFacts.

(** ** The parser *)

Module NaturalDateTimeSpec.
Import JsString JsStringFacts Regex RegexFacts JsDate JsDateFacts NaturalDateTime.

#[local] Arguments String.append !_ _ / : simpl nomatch.

(** *** What the parser prints *)

Lemma numChar_isoChar c : numChar c = true -> isoChar c = true.
Proof. unfold isoChar. by intros ->. Qed.

Lemma isoDate_chars d : allChars numChar (isoDate d) = true.
Proof.
  unfold isoDate. rewrite !allChars_append, !allChars_showNum.
  rewrite !allChars_padStart2; try done; apply allChars_showNum.
Qed.

Lemma isoDateTime_chars d : allChars isoChar (isoDateTime d) = true.
Proof.
  unfold isoDateTime. rewrite !allChars_append.
  rewrite (allChars_weaken _ _ _ numChar_isoChar (isoDate_chars d)).
  rewrite !allChars_padStart2; try done;
    apply (allChars_weaken _ _ _ numChar_isoChar), allChars_showNum.
Qed.

(** The printed characters, lower-cased, hold no anchor letter. *)
Lemma isoChar_lower c : isoChar c = true -> negb (anchorLetter (lowerChar c)) = true.
Proof.
  revert c. apply forall_ascii_impl. by vm_compute.
Qed.

Lemma anyChar_neg P s : allChars (fun c => negb (P c)) s = true -> anyChar P s = false.
Proof.
  apply allChars_without. intros c H. by apply negb_true_iff in H.
Qed.

(** Text made of the characters that the parser prints triggers no
    recognition rule. *)
Lemma printed_not_recognized s :
  allChars isoChar s = true -> recognized (trim (toLowerCase s)) = false.
Proof.
  intros Hs.
  assert (Hn : anyChar anchorLetter (trim (toLowerCase s)) = false).
  { apply anyChar_neg, allChars_trim.
    apply (allChars_toLowerCase isoChar); [apply isoChar_lower|done]. }
  unfold recognized.
  rewrite (includes_without "today" _ anchorLetter), (includes_without "tomorrow" _ anchorLetter),
    (includes_without "yesterday" _ anchorLetter); try done.
  rewrite (regexMatch_without relativeDayPattern anchorLetter),
    (regexMatch_without dayPattern anchorLetter); done.
Qed.

Lemma anchorDate_recognized n cur :
  anchorDate n cur = None <-> recognized n = false.
Proof.
  unfold anchorDate, recognized.
  destruct (includes "today" n); [done|].
  destruct (includes "tomorrow" n); [done|].
  destruct (includes "yesterday" n); [done|].
  destruct (regexMatch relativeDayPattern n); [done|].
  destruct (regexMatch dayPattern n); done.
Qed.

(** The pass-through result. *)
Lemma parse_unrecognized x tz cur :
  recognized (trim (toLowerCase x)) = false ->
  parseNaturalDateTime x tz cur = {| datetime := x; isAllDay := negb (includes "T" x) |}.
Proof.
  intros H. unfold parseNaturalDateTime.
  by rewrite (proj2 (anchorDate_recognized _ cur) H).
Qed.

(** What [parseTimeForDate] returns is printed text, and its flag tells
    whether the text has a [T]. *)
Lemma parseTimeForDate_printed n date tz :
  let r := parseTimeForDate n date tz in
  allChars isoChar (datetime r) = true /\ isAllDay r = negb (includes "T" (datetime r)).
Proof.
  unfold parseTimeForDate. destruct (regexMatch timePattern n) as [m|]; simpl.
  - split; [apply isoDateTime_chars|].
    unfold isoDateTime. by rewrite includes_middle.
  - split; [apply (allChars_weaken _ _ _ numChar_isoChar), isoDate_chars|].
    rewrite includes_char. unfold occurs.
    rewrite (allChars_without numChar); [done| |apply isoDate_chars].
    intros c Hc. apply negb_true_iff. revert c Hc.
    apply forall_ascii_impl. by vm_compute.
Qed.

(** C3.  Normalisation is idempotent at a fixed current instant: for every
    input [x] and time zone [tz], normalising the value produced by a first
    normalisation gives the same result (value and all-day flag) as the first
    normalisation did.  This covers inputs that a recognition rule rewrites
    and inputs that pass through. *)
Theorem normalize_idempotent (x tz : string) (current : Date) :
  parseNaturalDateTime (datetime (parseNaturalDateTime x tz current)) tz current
  = parseNaturalDateTime x tz current.
Proof.
  destruct (anchorDate (trim (toLowerCase x)) current) as [date|] eqn:Ha.
  - assert (Hr : parseNaturalDateTime x tz current
                 = parseTimeForDate (trim (toLowerCase x)) date tz).
    { unfold parseNaturalDateTime. by rewrite Ha. }
    rewrite Hr.
    destruct (parseTimeForDate_printed (trim (toLowerCase x)) date tz) as [Hc Hf].
    rewrite (parse_unrecognized _ _ _ (printed_not_recognized _ Hc)), <- Hf.
    by destruct (parseTimeForDate _ _ _).
  - apply anchorDate_recognized in Ha.
    rewrite (parse_unrecognized _ _ _ Ha). simpl.
    by rewrite (parse_unrecognized _ _ _ Ha).
Qed.

(** C7, amended.  On a host that knows the time zone, an input that matches
    none of the recognition rules (after lower-casing and trimming) does not
    make the parser throw: it is returned unchanged, flagged all-day exactly
    when it holds no literal [T].  On a host that does not know the time
    zone the parser throws the [RangeError] of [toLocaleString], for this
    input and for every other one, recognised or not. *)
Theorem unrecognized_passthrough (host : Host) (x tz : string) :
  recognized (trim (toLowerCase x)) = false ->
  (forall current, host tz = Some current ->
     parseNaturalDateTimeOn host x tz
     = inr {| datetime := x; isAllDay := negb (occurs "T" x) |}) /\
  (host tz = None ->
     forall y, parseNaturalDateTimeOn host y tz = inl (RangeError tz)) /\
  ((exists r, parseNaturalDateTimeOn host x tz = inr r) <-> host tz <> None).
Proof.
  intros H. unfold parseNaturalDateTimeOn. split_and!.
  - intros current ->. rewrite (parse_unrecognized _ _ _ H).
    by rewrite includes_char.
  - by intros ->.
  - destruct (host tz) as [current|]; split; try done.
    + intros _. by eexists.
    + by intros [r Hr].
Qed.

Lemma unrecognized_passthrough_witness :
  recognized (trim (toLowerCase "2024-01-20")) = false /\
  Samples.utcOnly "UTC" = Some (atDay 19737) /\
  parseNaturalDateTimeOn Samples.utcOnly "2024-01-20" "UTC"
  = inr {| datetime := "2024-01-20"; isAllDay := true |}.
Proof.
  split; [reflexivity|]. split; [reflexivity|].
  destruct (unrecognized_passthrough Samples.utcOnly "2024-01-20" "UTC" eq_refl)
    as [Hpass _].
  rewrite (Hpass (atDay 19737) eq_refl). reflexivity.
Defined.

(** C7 as worded fails: with a time zone name that the host does not know,
    an input that matches no recognition rule is not returned; the parser
    throws. *)
Lemma unknown_zone_throws :
  recognized (trim (toLowerCase "2024-01-20")) = false /\
  Samples.utcOnly "Mars/Olympus" = None /\
  parseNaturalDateTimeOn Samples.utcOnly "2024-01-20" "Mars/Olympus"
  = inl (RangeError "Mars/Olympus") /\
  forall r, parseNaturalDateTimeOn Samples.utcOnly "2024-01-20" "Mars/Olympus" <> inr r.
Proof. by split_and!. Qed.

(** *** Weekday names *)

Lemma exec_dayPattern prev s m :
  exec dayPattern prev s [] accept = Some m ->
  exists n, In n dayNames /\ m = [(1%nat, n)].
Proof.
  unfold dayPattern. cbn [exec].
  destruct (xorb (isWordAt prev) (isWordAt (headChar s))); [|done].
  intros (n & r & [Hin|[? _]] & -> & Hk)%joinAlt_inv; [|done].
  exists n. split; [done|]. rewrite take_append in Hk.
  destruct (xorb _ _); [|done]. unfold accept in Hk. congruence.
Qed.

Lemma dayMatch_inv s m :
  regexMatch dayPattern s = Some m -> exists n, In n dayNames /\ m = [(1%nat, n)].
Proof.
  unfold regexMatch. generalize (@None ascii).
  induction s as [|x s IH]; intros prev; cbn [searchFrom].
  - destruct (exec dayPattern prev "" [] accept) as [r|] eqn:E; [|done].
    intros [= <-]. by apply exec_dayPattern in E.
  - destruct (exec dayPattern prev (String x s) [] accept) as [r|] eqn:E.
    + intros [= <-]. by apply exec_dayPattern in E.
    + apply IH.
Qed.

Lemma dayNames_index n :
  In n dayNames ->
  0 <= indexOf n dayNames < 7 /\ nth (Z.to_nat (indexOf n dayNames)) dayNames "" = n.
Proof.
  intros H. simpl in H.
  repeat (destruct H as [<-|H]; [by vm_compute|]). done.
Qed.

(** [getNextWeekdayDate] moves forward by between one and seven days, to
    the first later day that falls on the target weekday. *)
Lemma getNextWeekdayDate_next t i :
  0 <= i < 7 -> - maxTime <= t -> t + 7 * msPerDay <= maxTime ->
  exists k,
    1 <= k <= 7 /\
    getNextWeekdayDate (ValidDate t) i = ValidDate (t + k * msPerDay) /\
    WeekDay (t + k * msPerDay) = i /\
    (forall j, 1 <= j < k -> WeekDay (t + j * msPerDay) <> i) /\
    (WeekDay t = i -> k = 7).
Proof.
  intros Hi Hlo Hhi. pose proof (WeekDay_range t) as Hw.
  unfold getNextWeekdayDate.
  change (getDay (ValidDate t)) with (Some (WeekDay t)).
  cbn [option_map numAdd numRem].
  rewrite Z.rem_mod_nonneg by lia.
  assert (Hshift : forall k, 1 <= k <= 7 ->
            setDate (ValidDate t) (numAdd (getDate (ValidDate t)) (Some k))
            = ValidDate (t + k * msPerDay)).
  { intros k Hk. rewrite setDate_shift. apply TimeClip_valid.
    unfold msPerDay, maxTime in *. lia. }
  assert (Hweek : forall k, WeekDay (t + k * msPerDay) = (WeekDay t + k) mod 7).
  { intros k. unfold WeekDay. rewrite Day_shift.
    rewrite Zplus_mod_idemp_l. f_equal. lia. }
  set (d := (i - WeekDay t + 7) mod 7).
  assert (Hd : 0 <= d < 7) by (apply Z.mod_pos_bound; lia).
  assert (Hdw : (WeekDay t + d) mod 7 = i).
  { subst d. rewrite Zplus_mod_idemp_r.
    replace (WeekDay t + (i - WeekDay t + 7)) with (i + 1 * 7) by lia.
    rewrite Z.mod_add by lia. apply Z.mod_small. lia. }
  assert (Hcases : d = 0 /\ WeekDay t = i \/ 1 <= d /\ WeekDay t <> i).
  { destruct (Z.eq_dec d 0) as [E|E].
    - left. split; [done|]. rewrite E, Z.add_0_r, Z.mod_small in Hdw; lia.
    - right. split; [lia|]. intros <-. subst d.
      replace (WeekDay t - WeekDay t + 7) with (1 * 7) in E by lia.
      by rewrite Z.mod_mul in E. }
  assert (Hfirst : forall k j, (WeekDay t + k) mod 7 = i -> 1 <= k <= 7 ->
                     (k = 7 -> WeekDay t = i) -> 1 <= j < k ->
                     (WeekDay t + j) mod 7 <> i).
  { intros k j Hk Hkr H7 Hj Hji. rewrite <- Hk in Hji.
    pose proof (Z.div_mod (WeekDay t + j) 7). pose proof (Z.div_mod (WeekDay t + k) 7).
    pose proof (Z.mod_pos_bound (WeekDay t + k) 7).
    assert (k = 7 \/ k < 7) as [->|Hlt] by lia.
    - rewrite (H7 eq_refl) in *. lia.
    - lia. }
  destruct Hcases as [[Hd0 Hwi]|[Hd1 Hwi]].
  - rewrite Hd0. exists 7. rewrite (Hshift 7) by lia. rewrite !Hweek.
    split_and!; [lia|lia|done| | |done].
    + replace (WeekDay t + 7) with (WeekDay t + 1 * 7) by lia.
      rewrite Z.mod_add by lia. rewrite Z.mod_small; lia.
    + intros j Hj. rewrite Hweek. apply (Hfirst 7); try lia.
      replace (WeekDay t + 7) with (WeekDay t + 1 * 7) by lia.
      rewrite Z.mod_add by lia. rewrite Z.mod_small; lia.
  - exists d. rewrite !Hweek.
    assert (Hres : match d with
                   | 0 => setDate (ValidDate t) (numAdd (getDate (ValidDate t)) (Some 7))
                   | _ => setDate (ValidDate t) (numAdd (getDate (ValidDate t)) (Some d))
                   end = ValidDate (t + d * msPerDay)).
    { destruct d eqn:Ed; [lia| |lia]. rewrite <- Ed. apply Hshift. lia. }
    split_and!; [lia|lia|exact Hres|done| |done].
    intros j Hj. rewrite Hweek. apply (Hfirst d); lia.
Qed.

(** C5, amended.  When the weekday rule is the one that applies (no earlier
    rule of the recognition order matches and the input holds a weekday name
    as a word), the anchor is the first day strictly after the current date
    that falls on the named weekday: between one and seven days ahead, and
    exactly seven days ahead when the current date itself falls on that
    weekday. *)
Theorem weekday_resolves_to_next_occurrence (input tz : string) (t : Z) (m : Caps) :
  let n := trim (toLowerCase input) in
  includes "today" n = false ->
  includes "tomorrow" n = false ->
  includes "yesterday" n = false ->
  regexMatch relativeDayPattern n = None ->
  regexMatch dayPattern n = Some m ->
  - maxTime <= t -> t + 7 * msPerDay <= maxTime ->
  exists (name : string) (i k : Z),
    group 1 m = Some name /\ 0 <= i < 7 /\ nth (Z.to_nat i) dayNames "" = name /\
    1 <= k <= 7 /\
    anchorDate n (ValidDate t) = Some (ValidDate (t + k * msPerDay)) /\
    parseNaturalDateTime input tz (ValidDate t)
      = parseTimeForDate n (ValidDate (t + k * msPerDay)) tz /\
    WeekDay (t + k * msPerDay) = i /\
    (forall j, 1 <= j < k -> WeekDay (t + j * msPerDay) <> i) /\
    (WeekDay t = i -> k = 7).
Proof.
  intros n; subst n; intros H1 H2 H3 H4 H5 Hlo Hhi.
  destruct (dayMatch_inv _ _ H5) as (name & Hin & ->).
  destruct (dayNames_index _ Hin) as [Hi Hnth].
  destruct (getNextWeekdayDate_next t (indexOf name dayNames) Hi Hlo Hhi)
    as (k & Hk & Hnext & Hwd & Hfirst & Hsame).
  assert (Ha : anchorDate (trim (toLowerCase input)) (ValidDate t)
               = Some (ValidDate (t + k * msPerDay))).
  { unfold anchorDate. rewrite H1, H2, H3, H4, H5.
    change (default "" (group 1 [(1%nat, name)])) with name.
    by rewrite Hnext. }
  exists name, (indexOf name dayNames), k.
  split_and!; try done; try lia.
  unfold parseNaturalDateTime. by rewrite Ha.
Qed.

Lemma weekday_resolves_to_next_occurrence_witness :
  let n := trim (toLowerCase "Friday 5pm") in
  let t := 19737 * msPerDay in
  let m := [(1%nat, "friday")] in
  (includes "today" n = false /\ includes "tomorrow" n = false /\
   includes "yesterday" n = false /\ regexMatch relativeDayPattern n = None /\
   regexMatch dayPattern n = Some m /\ - maxTime <= t /\ t + 7 * msPerDay <= maxTime) /\
  exists (name : string) (i k : Z),
    group 1 m = Some name /\ 0 <= i < 7 /\ nth (Z.to_nat i) dayNames "" = name /\
    1 <= k <= 7 /\
    anchorDate n (ValidDate t) = Some (ValidDate (t + k * msPerDay)) /\
    parseNaturalDateTime "Friday 5pm" "UTC" (ValidDate t)
      = parseTimeForDate n (ValidDate (t + k * msPerDay)) "UTC" /\
    WeekDay (t + k * msPerDay) = i /\
    (forall j, 1 <= j < k -> WeekDay (t + j * msPerDay) <> i) /\
    (WeekDay t = i -> k = 7).
Proof.
  split.
  - repeat split; try reflexivity; vm_compute; discriminate.
  - apply (weekday_resolves_to_next_occurrence "Friday 5pm" "UTC" (19737 * msPerDay)
             [(1%nat, "friday")]); try reflexivity; vm_compute; discriminate.
Defined.

(** C5 as worded fails: an input can hold a weekday name without being
    anchored to the next occurrence of that weekday.  On Monday 2024-01-15,
    "friday today" is anchored to the current date, since the rule for
    [today] comes first, and "Fridays 5pm" is not recognised at all, since
    the name is not a word of its own; neither gives Friday 2024-01-19. *)
Lemma weekday_name_is_not_always_the_anchor :
  (includes "friday" (trim (toLowerCase "friday today")) = true /\
   parseNaturalDateTime "friday today" "UTC" (atDay 19737)
   = {| datetime := "2024-01-15"; isAllDay := true |}) /\
  (includes "friday" (trim (toLowerCase "Fridays 5pm")) = true /\
   parseNaturalDateTime "Fridays 5pm" "UTC" (atDay 19737)
   = {| datetime := "Fridays 5pm"; isAllDay := true |}) /\
  WeekDay (19737 * msPerDay) = 1 /\
  isoDate (atDay 19741) = "2024-01-19" /\ WeekDay (19741 * msPerDay) = 5.
Proof. by split_and!. Qed.

(** *** Time of day *)

(** A captured class followed by [rest]: the group holds a run of the
    class, and [rest] matched after it. *)
Lemma exec_captured_class i p lo hi rest prev s caps res :
  exec (Grp i (Cls p lo hi) >> rest) prev s caps accept = Some res ->
  hasGroup i rest = false ->
  exists w prev' s',
    group i res = Some w /\ allChars p w = true /\
    (lo <= String.length w)%nat /\ (forall n, hi = Some n -> (String.length w <= n)%nat) /\
    exec rest prev' s' ((i, w) :: caps) accept = Some res.
Proof.
  cbn [exec]. intros (w & s' & prev' & -> & Hk & Hw & Hlo & Hhi)%rep_inv Hrest.
  rewrite take_append in Hk. exists w, prev', s'.
  split_and!; try done.
  rewrite (exec_accept_keeps _ _ _ _ _ i Hk Hrest). cbn [group].
  by rewrite Nat.eqb_refl.
Qed.









(** *** Relative days *)

Lemma rep_first p hi prev x r caps k :
  p x = true -> mayTake hi = true -> total k ->
  rep p 1 hi prev (String x r) caps k <> None.
Proof.
  intros Hp Hhi Hk. cbn [rep]. rewrite Hp, Hhi. cbn [andb Nat.pred].
  pose proof (rep_optional p (option_map Nat.pred hi) (Some x) r caps k Hk).
  by destruct (rep p 0 _ _ _ _ _).
Qed.

(** A captured class with an optional rest matches wherever a character of
    the class stands. *)
Lemma exec_class_then_optional i p hi rest prev x r caps k :
  p x = true -> mayTake hi = true -> optional rest = true -> total k ->
  exec (Grp i (Cls p 1 hi) >> rest) prev (String x r) caps k <> None.
Proof.
  intros Hp Hhi Hrest Hk. cbn [exec]. apply rep_first; [done..|].
  intros prev' s' caps'. by apply exec_optional.
Qed.

(** The time pattern matches wherever a digit stands. *)
Lemma exec_timePattern_digit prev x r :
  isDigit x = true -> exec timePattern prev (String x r) [] accept <> None.
Proof.
  intros Hx. unfold timePattern.
  apply exec_class_then_optional; [done..|]. by intros ? ? ?.
Qed.

Lemma timePattern_finds_digit s :
  anyChar isDigit s = true -> regexMatch timePattern s <> None.
Proof.
  unfold regexMatch. generalize (@None ascii).
  induction s as [|x s IH]; intros prev; [done|].
  cbn [searchFrom anyChar].
  destruct (exec timePattern prev (String x s) [] accept) as [r|] eqn:E; [done|].
  intros [Hx|Hs]%orb_true_iff; [|by apply IH].
  by apply (exec_timePattern_digit prev x s) in Hx.
Qed.

(** Whenever the relative-day rule applies, its day count is itself read as
    a time of day, so the result is never the bare all-day date. *)
Lemma relative_days_never_all_day (input tz : string) (current : Date) :
  let n := trim (toLowerCase input) in
  includes "today" n = false ->
  includes "tomorrow" n = false ->
  includes "yesterday" n = false ->
  regexMatch relativeDayPattern n <> None ->
  isAllDay (parseNaturalDateTime input tz current) = false.
Proof.
  intros n; subst n; intros H1 H2 H3 H4.
  set (n := trim (toLowerCase input)) in *.
  destruct (regexMatch relativeDayPattern n) as [m|] eqn:Hm; [|done].
  assert (Hd : anyChar isDigit n = true).
  { apply (regexMatch_hits relativeDayPattern isDigit n m); [by vm_compute|done]. }
  apply timePattern_finds_digit in Hd.
  unfold parseNaturalDateTime, anchorDate. fold n. rewrite H1, H2, H3, Hm.
  unfold parseTimeForDate. by destruct (regexMatch timePattern n).
Qed.

(** C4, on the code.  "in 3 days" on Monday 2024-01-15 does move the
    anchor to 2024-01-18, but the day count 3 is then taken for the hour: the
    result is 03:00 on that day and is not all-day. *)
Theorem relative_days_count_read_as_hour :
  parseNaturalDateTime "in 3 days" "UTC" (atDay 19737)
  = {| datetime := "2024-01-18T03:00:00"; isAllDay := false |}.
Proof. reflexivity. Qed.

(** A count of 24 or more even moves the date: "in 30 days" gives 06:00 on
    the day after 2024-02-14. *)
Example relative_days_count_overflows_day :
  parseNaturalDateTime "in 30 days" "UTC" (atDay 19737)
  = {| datetime := "2024-02-15T06:00:00"; isAllDay := false |}.
Proof. reflexivity. Qed.

(** The scenarios of the design. *)
Example scenario_today_8pm :
  parseNaturalDateTime "today 8pm" "UTC" (atDay 19737)
  = {| datetime := "2024-01-15T20:00:00"; isAllDay := false |}.
Proof. reflexivity. Qed.

Example scenario_friday_5pm :
  parseNaturalDateTime "Friday 5pm" "UTC" (atDay 19737)
  = {| datetime := "2024-01-19T17:00:00"; isAllDay := false |}.
Proof. reflexivity. Qed.

Example scenario_iso_date :
  parseNaturalDateTime "2024-01-20" "UTC" (atDay 19737)
  = {| datetime := "2024-01-20"; isAllDay := true |}.
Proof. reflexivity. Qed.

End NaturalDateTimeSpec.

(** ** Traces *)

Module EffFacts.
Import Eff Eff.Notations.

Section Emits.
Context {C E : Type} (P : C -> Prop).

Lemma emits_ret {A} (a : A) : emits (E:=E) P (ret a).
Proof. intros tr. exists []. by rewrite app_nil_r. Qed.

Lemma emits_throw {A} (e : E) : emits P (throw (A:=A) e).
Proof. intros tr. exists []. by rewrite app_nil_r. Qed.

Lemma emits_call {A} (c : C) (answer : E + A) : P c -> emits P (call c answer).
Proof. intros Hc tr. exists [c]. split; [done|]. by constructor. Qed.

Lemma emits_bind {A B} (m : M C E A) (k : A -> M C E B) :
  emits P m -> (forall a, emits P (k a)) -> emits P (bind m k).
Proof.
  intros Hm Hk tr. unfold bind.
  destruct (Hm tr) as (e1 & H1 & HP1).
  destruct (m tr) as [[e|a] tr1]; simpl in H1; subst tr1.
  - by exists e1.
  - destruct (Hk a (tr ++ e1)%list) as (e2 & H2 & HP2).
    exists (e1 ++ e2)%list. rewrite H2, app_assoc. split; [done|].
    by apply Forall_app.
Qed.

Lemma emits_tryCatch {A} (m : M C E A) (h : E -> M C E A) :
  emits P m -> (forall e, emits P (h e)) -> emits P (tryCatch m h).
Proof.
  intros Hm Hh tr. unfold tryCatch.
  destruct (Hm tr) as (e1 & H1 & HP1).
  destruct (m tr) as [[e|a] tr1]; simpl in H1; subst tr1.
  - destruct (Hh e (tr ++ e1)%list) as (e2 & H2 & HP2).
    exists (e1 ++ e2)%list. rewrite H2, app_assoc. split; [done|].
    by apply Forall_app.
  - by exists e1.
Qed.
End Emits.

End EffFacts.

(** ** The create-event handler *)

Module CreateEventSpec.
Import JsString JsStringFacts Eff Eff.Notations EffFacts CreateEvent.

#[local] Arguments String.append !_ _ / : simpl nomatch.

Section Handler.
Variable TimeObject : Type.
Variable createTimeObject : string -> string -> TimeObject.
Variable Event : Type.
Variable svc : Services TimeObject Event.

Abbreviation runTool := (runTool TimeObject createTimeObject Event svc).
Abbreviation createEvent := (createEvent TimeObject createTimeObject Event svc).
Abbreviation resolveTimezone := (resolveTimezone TimeObject Event svc).
Abbreviation eventToCheck := (eventToCheck TimeObject createTimeObject).
Abbreviation Call := (Call TimeObject).
Abbreviation isCheck := (isCheck TimeObject).
Abbreviation isInsert := (isInsert TimeObject).
Abbreviation checksWith := (checksWith TimeObject).

Lemma ask_emits {A} (P : Call -> Prop) c (answer : Exn + A) :
  P c -> emits P (ask TimeObject c answer).
Proof. apply emits_call. Qed.

Lemma resolveTimezone_emits (P : Call -> Prop) args :
  (forall cal, P (GetCalendarTimezone _ cal)) -> emits P (resolveTimezone args).
Proof.
  intros HP. unfold CreateEvent.resolveTimezone.
  destruct (orString _); [apply emits_ret|by apply ask_emits].
Qed.

(** [createEvent] never asks for a conflict check. *)
Lemma createEvent_emits args : emits (fun c => ~ isCheck c) (createEvent args).
Proof.
  unfold CreateEvent.createEvent. apply emits_tryCatch.
  - repeat (first
      [ apply emits_bind; [|intros ?]
      | apply emits_ret | apply emits_throw
      | apply ask_emits; simpl; tauto
      | apply resolveTimezone_emits; simpl; tauto
      | match goal with |- emits _ (if ?b then _ else _) => destruct b end
      | match goal with |- emits _ (match ?b with Some _ => _ | None => _ end) =>
          destruct b end ]).
  - intros e. destruct (is409 _); apply emits_throw.
Qed.

(** What [createEvent] throws comes from its [catch] clause. *)
Lemma createEvent_throws args tr e tr' :
  createEvent args tr = (inl e, tr') ->
  (exists msg, e = EventIdExists msg) \/ (exists x, e = ApiError x).
Proof.
  unfold CreateEvent.createEvent, tryCatch.
  match goal with |- context [match ?b tr with _ => _ end] => destruct (b tr) as [[e0|a] tr0] end.
  - destruct (is409 _); unfold throw; intros [= <- <-]; eauto.
  - done.
Qed.

(** [runTool] up to the duplicate check, once the time zone is resolved
    and the detection service has answered with a report. *)
Lemma runTool_checked args tz tr0 rep :
  resolveTimezone args [] = (inr tz, tr0) ->
  checkConflicts _ _ svc (eventToCheck args tz) (calendarId args) (detectionOptions args)
    = inr rep ->
  let tr1 := (tr0 ++ [CheckConflicts _ (eventToCheck args tz) (calendarId args)
                                     (detectionOptions args)])%list in
  let proceed :=
    match createEvent args tr1 with
    | (inr ev, tr2) => (inr {| created := ev; report := rep |}, tr2)
    | (inl e, tr2) => (inl e, tr2)
    end in
  run (runTool args) =
    match List.find isBlocking (duplicates rep) with
    | Some dup =>
        if notTrue (allowDuplicates args)
        then (inl (DuplicateDetected (duplicateMessage dup)), tr1)
        else proceed
    | None => proceed
    end.
Proof.
  intros Htz Hrep tr1 proceed.
  unfold run, CreateEvent.runTool, bind at 1. rewrite Htz.
  unfold bind at 1, ask, call. rewrite Hrep. fold tr1.
  unfold bind at 1.
  destruct (List.find isBlocking (duplicates rep)) as [dup|];
    [destruct (notTrue (allowDuplicates args))|]; try done;
    unfold ret at 1, bind, proceed;
    by destruct (createEvent args tr1) as [[e|ev] tr2].
Qed.

Lemma find_blocking_exists (l : list ConflictInfo) :
  (exists d, In d l /\ (BLOCKING <= similarity (event d))%Q) <->
  (exists dup, List.find isBlocking l = Some dup).
Proof.
  split.
  - intros (d & Hin & Hd).
    destruct (List.find isBlocking l) as [dup|] eqn:E; [by exists dup|].
    pose proof (find_none _ _ E d Hin) as Hn. unfold isBlocking in Hn.
    apply Qle_bool_iff in Hd. congruence.
  - intros (dup & [Hin Hb]%find_some). exists dup. split; [done|].
    by apply Qle_bool_iff.
Qed.

Lemma notTrue_iff v : notTrue v = true <-> v <> Some true.
Proof. destruct v as [[]|]; simpl; split; congruence. Qed.

(** C1.  When the detection report holds a duplicate whose similarity is
    at or above the blocking threshold and the caller has not set
    [allowDuplicates] to [true], the handler throws before any write: the
    only calls made are the time-zone lookup (if any) and the conflict
    check, so the calendar insert is never invoked.  The error names the
    first such duplicate of the report: its message holds the title of that
    duplicate, its similarity times 100 rounded to an integer followed by
    a percent sign, and the instruction to set [allowDuplicates] to
    [true]. *)
Theorem blocking_duplicate_aborts_before_write
    (args : CreateEventInput) (tz : string) (rep : ConflictCheckResult)
    (d : ConflictInfo) :
  outcome (resolveTimezone args) = inr tz ->
  checkConflicts _ _ svc (eventToCheck args tz) (calendarId args) (detectionOptions args)
    = inr rep ->
  In d (duplicates rep) -> (BLOCKING <= similarity (event d))%Q ->
  allowDuplicates args <> Some true ->
  exists dup,
    In dup (duplicates rep) /\ (BLOCKING <= similarity (event dup))%Q /\
    outcome (runTool args) = inl (DuplicateDetected (duplicateMessage dup)) /\
    trace (runTool args)
      = (trace (resolveTimezone args) ++
         [CheckConflicts _ (eventToCheck args tz) (calendarId args)
                         (detectionOptions args)])%list /\
    (forall c, In c (trace (runTool args)) -> ~ isInsert c) /\
    duplicateMessage dup
      = "Duplicate event detected (" +:+
        showZ (round (similarity (event dup) * 100)) +:+ "% similar). Event " +:+
        quote +:+ title (event dup) +:+ quote +:+
        " already exists. To create anyway, set allowDuplicates to true." /\
    includes (title (event dup)) (duplicateMessage dup) = true /\
    includes (showZ (round (similarity (event dup) * 100)) +:+ "%")
             (duplicateMessage dup) = true /\
    includes "To create anyway, set allowDuplicates to true." (duplicateMessage dup)
      = true.
Proof.
  intros Htz Hrep Hin Hd Hallow.
  destruct (proj1 (find_blocking_exists _) (ex_intro _ d (conj Hin Hd))) as [dup Hfind].
  destruct (find_some _ _ Hfind) as [Hdin Hdb]. apply Qle_bool_iff in Hdb.
  unfold outcome, trace in *.
  destruct (run (resolveTimezone args)) as [r0 tr0] eqn:Hrun. simpl in Htz. subst r0.
  assert (Hgo := runTool_checked args tz tr0 rep Hrun Hrep). cbv zeta in Hgo.
  rewrite Hfind, (proj2 (notTrue_iff _) Hallow) in Hgo. rewrite Hgo. cbn [fst snd].
  exists dup. split_and!; try done.
  - intros c [Hc|[<-|[]]]%in_app_or; [|by intros []].
    assert (He : emits (fun c => ~ isInsert c) (resolveTimezone args)).
    { apply resolveTimezone_emits. simpl. tauto. }
    destruct (He []) as (ext & Hext & Hall). unfold run in Hrun.
    rewrite Hrun in Hext. simpl in Hext. subst tr0.
    by apply (proj1 (List.Forall_forall _ _) Hall).
  - unfold duplicateMessage.
    repeat first [apply includes_prefix | apply includes_append_r].
  - unfold duplicateMessage. apply includes_append_r.
    match goal with
    | |- includes (?p +:+ "%") (?p +:+ ?r) = true =>
        replace (p +:+ r) with
          ((p +:+ "%") +:+ " similar). Event " +:+ quote +:+ title (event dup) +:+
           quote +:+ " already exists. To create anyway, set allowDuplicates to true.")
          by (by rewrite append_assoc)
    end.
    apply includes_prefix.
  - unfold duplicateMessage. repeat apply includes_append_r. reflexivity.
Qed.

(** C2.  Once the detection service has answered with a report, the
    handler throws the duplicate error if and only if some duplicate of the
    report has a similarity at or above the blocking threshold and
    [allowDuplicates] is not [true].  The conflicts of the report play no
    part.  With no duplicate at or above the threshold, or with
    [allowDuplicates] set to [true], creation is not refused, whatever
    conflicts the report lists: the run goes on with [createEvent] right
    after the conflict check and ends as [createEvent] ends, so the handler
    returns the created event with the report, or fails with an error that
    [createEvent] built (an id clash or an API error) and with no other. *)
Theorem creation_refused_iff_blocking_duplicate
    (args : CreateEventInput) (tz : string) (rep : ConflictCheckResult) :
  outcome (resolveTimezone args) = inr tz ->
  checkConflicts _ _ svc (eventToCheck args tz) (calendarId args) (detectionOptions args)
    = inr rep ->
  ((exists msg, outcome (runTool args) = inl (DuplicateDetected msg)) <->
   (exists d, In d (duplicates rep) /\ (BLOCKING <= similarity (event d))%Q) /\
   allowDuplicates args <> Some true) /\
  ((forall d, In d (duplicates rep) -> ~ (BLOCKING <= similarity (event d))%Q) ->
   forall msg, outcome (runTool args) <> inl (DuplicateDetected msg)) /\
  ((forall d, In d (duplicates rep) -> ~ (BLOCKING <= similarity (event d))%Q) \/
   allowDuplicates args = Some true ->
   run (runTool args)
   = match createEvent args
             (trace (resolveTimezone args) ++
              [CheckConflicts _ (eventToCheck args tz) (calendarId args)
                 (detectionOptions args)])%list with
     | (inr ev, tr) => (inr {| created := ev; report := rep |}, tr)
     | (inl e, tr) => (inl e, tr)
     end /\
   (forall t, outcome (runTool args) = inl t ->
      (exists msg, t = EventIdExists msg) \/ (exists x, t = ApiError x)) /\
   (forall r, outcome (runTool args) = inr r -> report _ r = rep)).
Proof.
  intros Htz Hrep. unfold outcome, trace in *.
  destruct (run (resolveTimezone args)) as [r0 tr0] eqn:Hrun. simpl in Htz. subst r0.
  assert (Hgo := runTool_checked args tz tr0 rep Hrun Hrep). cbv zeta in Hgo.
  cbn [snd].
  set (tr1 := (tr0 ++ [CheckConflicts _ (eventToCheck args tz) (calendarId args)
                                      (detectionOptions args)])%list) in *.
  assert (Hproceed : forall msg,
            fst (match createEvent args tr1 with
                 | (inr ev, tr2) => (inr {| created := ev; report := rep |}, tr2)
                 | (inl e, tr2) => (inl e, tr2)
                 end) <> inl (DuplicateDetected msg)).
  { intros msg. destruct (createEvent args tr1) as [[e|ev] tr2] eqn:Hc; [|done].
    destruct (createEvent_throws _ _ _ _ Hc) as [[m ->]|[x ->]]; simpl; congruence. }
  assert (Hiff : (exists msg, fst (run (runTool args)) = inl (DuplicateDetected msg)) <->
            (exists dup, List.find isBlocking (duplicates rep) = Some dup) /\
            allowDuplicates args <> Some true).
  { rewrite Hgo, <- notTrue_iff.
    destruct (List.find isBlocking (duplicates rep)) as [dup|];
      [destruct (notTrue (allowDuplicates args))|].
    - split; [eauto|]. intros _. by eexists.
    - split; [|by intros [_ ?]]. intros [msg H]. by apply Hproceed in H.
    - split; [|by intros [[? ?] _]]. intros [msg H]. by apply Hproceed in H. }
  split_and!.
  - by rewrite find_blocking_exists.
  - intros Hnone msg H.
    destruct (proj1 Hiff (ex_intro _ msg H)) as [Hex _].
    apply find_blocking_exists in Hex as (d & Hin & Hd). by apply (Hnone d).
  - intros Hfree.
    assert (Hrun' : run (runTool args)
                    = match createEvent args tr1 with
                      | (inr ev, tr) => (inr {| created := ev; report := rep |}, tr)
                      | (inl e, tr) => (inl e, tr)
                      end).
    { rewrite Hgo. destruct Hfree as [Hnone|Hallow].
      - destruct (List.find isBlocking (duplicates rep)) as [dup|] eqn:Hfind; [|done].
        exfalso.
        destruct (proj2 (find_blocking_exists _) (ex_intro _ dup Hfind)) as (d & Hin & Hd).
        by apply (Hnone d).
      - rewrite Hallow. cbn [notTrue]. by destruct (List.find isBlocking (duplicates rep)). }
    split_and!; [exact Hrun'| |]; rewrite Hrun'.
    + intros t. destruct (createEvent args tr1) as [[e|ev] tr2] eqn:Hc; [|done].
      cbn [fst]. intros [= <-]. by apply (createEvent_throws _ _ _ _ Hc).
    + intros r. destruct (createEvent args tr1) as [[e|ev] tr2]; [done|].
      cbn [fst]. by intros [= <-].
Qed.

Lemma emits_weaken {A} (P Q : Call -> Prop) (m : H TimeObject A) :
  (forall c, P c -> Q c) -> emits P m -> emits Q m.
Proof.
  intros HPQ Hm tr. destruct (Hm tr) as (ext & Hext & Hall).
  exists ext. split; [done|]. by apply (List.Forall_impl _ HPQ).
Qed.

Lemma runTool_emits args : emits (checksWith args) (runTool args).
Proof.
  unfold CreateEvent.runTool. apply emits_bind.
  { by apply resolveTimezone_emits. }
  intros tz. apply emits_bind; [by apply ask_emits|]. intros rep.
  apply emits_bind.
  { destruct (List.find _ _); [destruct (notTrue _)|];
      first [apply emits_ret | apply emits_throw]. }
  intros _. apply emits_bind; [|intros ?; apply emits_ret].
  apply (emits_weaken (fun c => ~ isCheck c)); [|apply createEvent_emits].
  by intros [].
Qed.

Lemma runTool_checks args ev cal o :
  In (CheckConflicts _ ev cal o) (trace (runTool args)) ->
  cal = calendarId args /\ o = detectionOptions args.
Proof.
  intros Hin. destruct (runTool_emits args []) as (ext & Hext & Hall).
  unfold trace, run in Hin. rewrite Hext in Hin. simpl in Hin.
  by apply (proj1 (List.Forall_forall _ _) Hall) in Hin.
Qed.

(** Once the time zone is resolved the conflict check is made. *)
Lemma runTool_asks args tz :
  outcome (resolveTimezone args) = inr tz ->
  In (CheckConflicts _ (eventToCheck args tz) (calendarId args) (detectionOptions args))
     (trace (runTool args)).
Proof.
  intros Htz. unfold outcome, trace in *.
  destruct (run (resolveTimezone args)) as [r0 tr0] eqn:Hrun. simpl in Htz. subst r0.
  destruct (checkConflicts _ _ svc (eventToCheck args tz) (calendarId args)
              (detectionOptions args)) as [e|rep] eqn:Hrep.
  - unfold run, CreateEvent.runTool, bind at 1. unfold run in Hrun. rewrite Hrun.
    unfold bind at 1, ask, call. rewrite Hrep. simpl.
    apply in_or_app. right. by left.
  - rewrite (runTool_checked args tz tr0 rep Hrun Hrep). cbv zeta.
    set (tr1 := (tr0 ++ [_])%list).
    assert (Hin : In (CheckConflicts _ (eventToCheck args tz) (calendarId args)
                        (detectionOptions args)) tr1).
    { apply in_or_app. right. by left. }
    assert (Hproceed : In (CheckConflicts _ (eventToCheck args tz) (calendarId args)
                             (detectionOptions args))
              (snd (match createEvent args tr1 with
                    | (inr ev, tr2) => (inr {| created := ev; report := rep |}, tr2)
                    | (inl e, tr2) => (inl e, tr2)
                    end))).
    { destruct (createEvent_emits args tr1) as (ext & Hext & _).
      destruct (createEvent args tr1) as [[e|ev] tr2]; simpl in *; subst tr2;
        apply in_or_app; by left. }
    destruct (List.find _ _); [destruct (notTrue _)|]; done.
Qed.

(** C8.  The options of the conflict check, for every request.  Both the
    conflict check and the duplicate check are enabled.  When the caller
    gives no [calendarsToCheck], the calendars to check are exactly the
    target calendar of the request, whatever threshold is given; a list that
    the caller gives is used as it is.  When the caller gives no
    [duplicateSimilarityThreshold], the detection threshold is 0.7, whatever
    calendars are given; a threshold other than zero that the caller gives is
    used as it is.  Every conflict check that the handler makes carries these
    options and names the target calendar, and the handler makes one as soon
    as the time zone is known. *)
Theorem detection_options_default (args : CreateEventInput) :
  let o := detectionOptions args in
  opt_checkConflicts o = true /\
  opt_checkDuplicates o = true /\
  (calendarsToCheck args = None -> opt_calendarsToCheck o = [calendarId args]) /\
  (duplicateSimilarityThreshold args = None ->
   opt_duplicateSimilarityThreshold o = 7 # 10) /\
  (forall l, calendarsToCheck args = Some l -> opt_calendarsToCheck o = l) /\
  (forall q, duplicateSimilarityThreshold args = Some q -> ~ (q == 0)%Q ->
     opt_duplicateSimilarityThreshold o = q) /\
  (forall ev cal o', In (CheckConflicts _ ev cal o') (trace (runTool args)) ->
     cal = calendarId args /\ o' = o) /\
  (forall tz, outcome (resolveTimezone args) = inr tz ->
     In (CheckConflicts _ (eventToCheck args tz) (calendarId args) o)
        (trace (runTool args))).
Proof.
  intros o. subst o. unfold detectionOptions at 1 2 3 4 5 6.
  cbn [opt_checkConflicts opt_checkDuplicates opt_calendarsToCheck
       opt_duplicateSimilarityThreshold].
  split_and!.
  - done.
  - done.
  - by intros ->.
  - by intros ->.
  - by intros l ->.
  - intros q -> Hq. unfold orNumber.
    destruct (Qeq_bool q 0) eqn:E; [|done]. by apply Qeq_bool_iff in E.
  - apply runTool_checks.
  - apply runTool_asks.
Qed.

Lemma orNumber_nonzero x : ~ (orNumber x DEFAULT_DUPLICATE_THRESHOLD == 0)%Q.
Proof.
  unfold orNumber. destruct x as [q|]; [|done].
  destruct (Qeq_bool q 0) eqn:E; [done|].
  intros H. apply Qeq_bool_iff in H. congruence.
Qed.

(** C9.  A threshold of zero is within the declared range of the schema,
    yet the handler replaces it with the default 0.7, because zero is falsy
    for [||]: every conflict check made for such a request carries 0.7, and
    for no request at all does a conflict check carry a threshold of zero. *)
Theorem zero_threshold_falls_back_to_default (args : CreateEventInput) (q : Q) :
  duplicateSimilarityThreshold args = Some q -> (q == 0)%Q ->
  thresholdInRange q = true /\
  opt_duplicateSimilarityThreshold (detectionOptions args) = 7 # 10 /\
  (forall ev cal o, In (CheckConflicts _ ev cal o) (trace (runTool args)) ->
     opt_duplicateSimilarityThreshold o = 7 # 10) /\
  (forall args' ev cal o, In (CheckConflicts _ ev cal o) (trace (runTool args')) ->
     ~ (opt_duplicateSimilarityThreshold o == 0)%Q).
Proof.
  intros Hq Hz.
  assert (Hopt : opt_duplicateSimilarityThreshold (detectionOptions args) = 7 # 10).
  { unfold detectionOptions; simpl. rewrite Hq. unfold orNumber.
    by rewrite (proj2 (Qeq_bool_iff q 0) Hz). }
  split_and!.
  - unfold thresholdInRange. apply andb_true_iff.
    split; apply Qle_bool_iff; rewrite Hz; done.
  - done.
  - intros ev cal o [_ ->]%runTool_checks. done.
  - intros args' ev cal o [_ ->]%runTool_checks. apply orNumber_nonzero.
Qed.

End Handler.

(** The handler on the sample request, with collaborators that answer. *)
Lemma blocking_duplicate_aborts_before_write_witness :
  let run := runTool _ pair _ Samples.answering Samples.teamSync in
  (outcome (resolveTimezone _ _ Samples.answering Samples.teamSync) = inr "UTC" /\
   In Samples.existingSync (duplicates Samples.syncReport) /\
   (BLOCKING <= similarity (event Samples.existingSync))%Q /\
   allowDuplicates Samples.teamSync <> Some true) /\
  exists dup,
    outcome run = inl (DuplicateDetected (duplicateMessage dup)) /\
    (forall c, In c (trace run) -> ~ isInsert _ c) /\
    includes (title (event dup)) (duplicateMessage dup) = true.
Proof.
  split.
  - split_and!; [reflexivity|by left|by vm_compute|discriminate].
  - destruct (blocking_duplicate_aborts_before_write _ pair _ Samples.answering
                Samples.teamSync "UTC" Samples.syncReport Samples.existingSync)
      as (dup & _ & _ & Hout & _ & Hins & _ & Htitle & _);
      [reflexivity|reflexivity|by left|by vm_compute|discriminate|].
    exists dup. by split_and!.
Defined.

Lemma creation_refused_iff_blocking_duplicate_witness :
  let refused := runTool _ pair _ Samples.answering Samples.teamSync in
  let created := runTool _ pair _ Samples.answeringOverlap Samples.teamSync in
  (outcome (resolveTimezone _ _ Samples.answering Samples.teamSync) = inr "UTC" /\
   outcome (resolveTimezone _ _ Samples.answeringOverlap Samples.teamSync) = inr "UTC" /\
   conflicts Samples.overlapReport <> [] /\
   forall d, In d (duplicates Samples.overlapReport) ->
     ~ (BLOCKING <= similarity (event d))%Q) /\
  ((exists msg, outcome refused = inl (DuplicateDetected msg)) <->
   (exists d, In d (duplicates Samples.syncReport) /\ (BLOCKING <= similarity (event d))%Q) /\
   allowDuplicates Samples.teamSync <> Some true) /\
  outcome created = inr {| created := "created"; report := Samples.overlapReport |} /\
  (forall t, outcome created = inl t ->
     (exists msg, t = EventIdExists msg) \/ (exists x, t = ApiError x)).
Proof.
  cbv zeta. split; [split_and!; try reflexivity; [discriminate|by intros d []]|].
  split.
  - apply (creation_refused_iff_blocking_duplicate _ pair _ Samples.answering
             Samples.teamSync "UTC" Samples.syncReport); reflexivity.
  - destruct (creation_refused_iff_blocking_duplicate _ pair _ Samples.answeringOverlap
                Samples.teamSync "UTC" Samples.overlapReport eq_refl eq_refl)
      as (_ & _ & Hfree).
    destruct Hfree as (Hrun & Hthrown & _); [left; by intros d []|].
    split; [|exact Hthrown].
    unfold outcome. rewrite Hrun. reflexivity.
Defined.

Lemma detection_options_default_witness :
  let one := detectionOptions Samples.teamSyncTwoCalendars in
  let other := detectionOptions Samples.teamSyncStrict in
  (calendarsToCheck Samples.teamSyncTwoCalendars = Some ["work"; "home"] /\
   duplicateSimilarityThreshold Samples.teamSyncTwoCalendars = None /\
   calendarsToCheck Samples.teamSyncStrict = None /\
   duplicateSimilarityThreshold Samples.teamSyncStrict = Some (9 # 10)) /\
  (opt_calendarsToCheck one = ["work"; "home"] /\
   opt_duplicateSimilarityThreshold one = 7 # 10) /\
  (opt_calendarsToCheck other = ["primary"] /\
   opt_duplicateSimilarityThreshold other = 9 # 10).
Proof.
  cbv zeta. split; [by split_and!|].
  destruct (detection_options_default _ pair _ Samples.answering
              Samples.teamSyncTwoCalendars) as (_ & _ & _ & Ht & Hl & _).
  destruct (detection_options_default _ pair _ Samples.answering
              Samples.teamSyncStrict) as (_ & _ & Hc & _ & _ & Hq & _).
  split.
  - split; [exact (Hl _ eq_refl)|exact (Ht eq_refl)].
  - split; [exact (Hc eq_refl)|]. apply (Hq _ eq_refl). by vm_compute.
Defined.

Lemma zero_threshold_falls_back_to_default_witness :
  (duplicateSimilarityThreshold Samples.teamSyncZero = Some 0%Q /\ (0 == 0)%Q) /\
  thresholdInRange 0 = true /\
  opt_duplicateSimilarityThreshold (detectionOptions Samples.teamSyncZero) = 7 # 10.
Proof.
  split; [by split|].
  destruct (zero_threshold_falls_back_to_default _ pair _ Samples.answering
              Samples.teamSyncZero 0%Q eq_refl (Qeq_refl 0)) as (Hr & Ht & _).
  by split.
Defined.

End CreateEventSpec.

(** ** The dispatcher *)

Module ServerSpec.
Import JsString Eff Eff.Notations Server.

Section Dispatcher.
Variable Result : Type.
Variable JSON_parse : string -> option JSValue.
Variable toStringOf : JSValue -> option JSValue.
Variable Number_ : JSValue -> JSValue.
Variable initializeOAuth2Client : string + OAuth2Client.
Variable runTool : gmap string JSValue -> OAuth2Client -> string + Result.

Abbreviation executeWithHandler :=
  (executeWithHandler Result JSON_parse toStringOf Number_ initializeOAuth2Client runTool).
Abbreviation credentialsOf := (credentialsOf JSON_parse toStringOf Number_).
Abbreviation parseTokens := (parseTokens JSON_parse toStringOf).

(** The dispatcher, step by step. *)
Lemma executeWithHandler_run (args : gmap string JSValue) :
  exists access refresh expiry failed,
    parseTokens (field args "access_token") (field args "refresh_token")
                (field args "expiry_date") = (access, refresh, expiry, failed) /\
    let tr1 := (StderrDebug args :: if failed then [StderrParseFailure] else [])%list in
    run (executeWithHandler args) =
      if negb (truthy access) || negb (truthy refresh)
      then (inl (McpError "InvalidRequest" authRequired), tr1)
      else
        match initializeOAuth2Client with
        | inl e => (inl (Raised e), (tr1 ++ [InitializeOAuth2Client])%list)
        | inr c =>
            (match runTool (restOf args) (setCredentials c (credentialsOf args)) with
             | inl e => inl (Raised e)
             | inr res => inr res
             end,
             (tr1 ++ [InitializeOAuth2Client;
                      RunTool (restOf args) (setCredentials c (credentialsOf args))])%list)
        end.
Proof.
  unfold Server.executeWithHandler, Server.credentialsOf.
  destruct (parseTokens _ _ _) as [[[access refresh] expiry] failed].
  exists access, refresh, expiry, failed. split; [done|]. cbv zeta.
  unfold run, bind, call, ret, throw.
  destruct failed; simpl;
    (destruct (negb (truthy access) || negb (truthy refresh)); [done|]);
    by destruct initializeOAuth2Client.
Qed.

(** What is left of the arguments. *)
Lemma restOf_lookup (args : gmap string JSValue) :
  restOf args !! "access_token" = None /\
  restOf args !! "refresh_token" = None /\
  restOf args !! "expiry_date" = None /\
  (forall k : string,
     k <> "access_token" -> k <> "refresh_token" -> k <> "expiry_date" ->
     restOf args !! k = args !! k).
Proof.
  unfold restOf. split_and!.
  - rewrite !lookup_delete_ne by done. apply lookup_delete_eq.
  - rewrite lookup_delete_ne by done. apply lookup_delete_eq.
  - apply lookup_delete_eq.
  - intros k H1 H2 H3. by rewrite !lookup_delete_ne.
Qed.

(** C10.  Whenever the dispatcher calls the handler, the arguments it
    passes are the request without its [access_token], [refresh_token] and
    [expiry_date] fields and with every other field as it came; the
    credentials are found in the client that is passed along, and nowhere
    in those arguments.  The handler is called at most once, and it is
    called whenever both tokens are present and a client can be built. *)
Theorem credentials_stripped_from_tool_arguments (args : gmap string JSValue) :
  (forall toolArgs authClient,
     In (RunTool toolArgs authClient) (trace (executeWithHandler args)) ->
     toolArgs = restOf args /\
     toolArgs !! "access_token" = None /\
     toolArgs !! "refresh_token" = None /\
     toolArgs !! "expiry_date" = None /\
     (forall k : string,
        k <> "access_token" -> k <> "refresh_token" -> k <> "expiry_date" ->
        toolArgs !! k = args !! k) /\
     credentials authClient = Some (credentialsOf args)) /\
  (forall c,
     truthy (access_token (credentialsOf args)) = true ->
     truthy (refresh_token (credentialsOf args)) = true ->
     initializeOAuth2Client = inr c ->
     In (RunTool (restOf args) (setCredentials c (credentialsOf args)))
        (trace (executeWithHandler args))).
Proof.
  destruct (executeWithHandler_run args)
    as (access & refresh & expiry & failed & Hparse & Hrun).
  cbv zeta in Hrun. unfold trace. rewrite Hrun. split.
  - intros toolArgs authClient Hin.
    assert (Hcall : exists c, initializeOAuth2Client = inr c /\
              RunTool toolArgs authClient
              = RunTool (restOf args) (setCredentials c (credentialsOf args))).
    { destruct (negb (truthy access) || negb (truthy refresh));
        [|destruct initializeOAuth2Client as [e|c]];
        destruct failed; simpl in Hin;
        repeat (destruct Hin as [Hin|Hin]; [try discriminate Hin|]);
        try contradiction; exists c; by rewrite Hin. }
    destruct Hcall as (c & _ & [= -> ->]).
    destruct (restOf_lookup args) as (Ha & Hr & He & Hk). done.
  - intros c Ha Hr ->.
    unfold Server.credentialsOf in Ha, Hr. rewrite Hparse in Ha, Hr. simpl in Ha, Hr.
    rewrite Ha, Hr. simpl. destruct failed; simpl; auto.
Qed.

End Dispatcher.

Lemma credentials_stripped_from_tool_arguments_witness :
  let call :=
    executeWithHandler string (fun _ => None) Some (fun v => v)
      (inr Samples.freshClient) (fun _ _ => inr "success") Samples.tokenRequest in
  let toolArgs : gmap string JSValue := {[ "calendarId" := JString "primary" ]} in
  let authClient :=
    setCredentials Samples.freshClient
      {| access_token := JString "ya29.simple_access_token";
         refresh_token := JString "1//simple_refresh_token";
         expiry_date := JString "1763010691" |} in
  In (RunTool toolArgs authClient) (trace call) /\
  toolArgs !! "access_token" = None /\
  toolArgs !! "calendarId" = Samples.tokenRequest !! "calendarId".
Proof.
  assert (Hin : In (RunTool ({[ "calendarId" := JString "primary" ]} : gmap string JSValue)
                      (setCredentials Samples.freshClient
                         {| access_token := JString "ya29.simple_access_token";
                            refresh_token := JString "1//simple_refresh_token";
                            expiry_date := JString "1763010691" |}))
                   (trace (executeWithHandler string (fun _ => None) Some (fun v => v)
                             (inr Samples.freshClient) (fun _ _ => inr "success")
                             Samples.tokenRequest))).
  { right. right. left. reflexivity. }
  split; [exact Hin|].
  destruct (credentials_stripped_from_tool_arguments string (fun _ => None) Some (fun v => v)
              (inr Samples.freshClient) (fun _ _ => inr "success") Samples.tokenRequest)
    as [Hcalls _].
  destruct (Hcalls _ _ Hin) as (_ & Ha & _ & _ & Hk & _).
  split; [exact Ha|]. by apply Hk.
Defined.

End ServerSpec.

(** ** More on the parser *)

Module NaturalDateTimeMore.
Import JsString JsStringMore JsStringFacts Regex RegexFacts JsDate JsDateFacts
  NaturalDateTime NaturalDateTimeSpec.

#[local] Arguments String.append !_ _ / : simpl nomatch.

(** X1.  For every input, recognised or not, the all-day flag of the result
    is set exactly when the returned value holds no [T]. *)
Theorem allDay_iff_value_has_no_T (x tz : string) (current : Date) :
  isAllDay (parseNaturalDateTime x tz current)
  = negb (occurs "T" (datetime (parseNaturalDateTime x tz current))).
Proof.
  rewrite <- includes_char.
  destruct (anchorDate (trim (toLowerCase x)) current) as [date|] eqn:Ha.
  - unfold parseNaturalDateTime. rewrite Ha.
    by destruct (parseTimeForDate_printed (trim (toLowerCase x)) date tz) as [_ ->].
  - apply anchorDate_recognized in Ha. by rewrite (parse_unrecognized _ _ _ Ha).
Qed.

(** X2.  [parseTimeForDate] decides on the digits of its input alone: with
    no digit anywhere the result is the bare date of the anchor, all-day; with
    a digit somewhere it is a date-time and never all-day. *)
Theorem parseTimeForDate_all_day_iff_no_digit (input tz : string) (date : Date) :
  isAllDay (parseTimeForDate input date tz) = negb (anyChar isDigit input) /\
  (anyChar isDigit input = false ->
   parseTimeForDate input date tz = {| datetime := isoDate date; isAllDay := true |}) /\
  (anyChar isDigit input = true ->
   exists m, regexMatch timePattern input = Some m /\
     parseTimeForDate input date tz
     = {| datetime := isoDateTime (withTime date m); isAllDay := false |}).
Proof.
  unfold parseTimeForDate.
  destruct (anyChar isDigit input) eqn:Hd.
  - pose proof (timePattern_finds_digit _ Hd) as Hm.
    destruct (regexMatch timePattern input) as [m|]; [|done].
    split_and!; [done|done|]. intros _. by exists m.
  - rewrite (regexMatch_without timePattern isDigit input); [done| |done].
    by vm_compute.
Qed.

Lemma parseTimeForDate_all_day_iff_no_digit_witness :
  anyChar isDigit "tomorrow morning" = false /\
  parseTimeForDate "tomorrow morning" (atDay 19738) "UTC"
  = {| datetime := "2024-01-16"; isAllDay := true |}.
Proof.
  split; [reflexivity|].
  destruct (parseTimeForDate_all_day_iff_no_digit "tomorrow morning" "UTC" (atDay 19738))
    as (_ & H & _).
  by rewrite (H eq_refl).
Defined.

(** *** Case and surrounding white space *)

Lemma lowerChar_idem c : lowerChar (lowerChar c) = lowerChar c.
Proof.
  apply Ascii.eqb_eq. revert c.
  apply (forall_ascii (fun c => Ascii.eqb (lowerChar (lowerChar c)) (lowerChar c))).
  by vm_compute.
Qed.

Lemma isSpace_lowerChar c : isSpace (lowerChar c) = isSpace c.
Proof.
  apply Bool.eqb_prop. revert c.
  apply (forall_ascii (fun c => Bool.eqb (isSpace (lowerChar c)) (isSpace c))).
  by vm_compute.
Qed.

Lemma toLowerCase_idem s : toLowerCase (toLowerCase s) = toLowerCase s.
Proof. induction s as [|c s IH]; simpl; [done|]. by rewrite lowerChar_idem, IH. Qed.

Lemma toLowerCase_trimStart s : toLowerCase (trimStart s) = trimStart (toLowerCase s).
Proof.
  induction s as [|c s IH]; simpl; [done|].
  rewrite isSpace_lowerChar. by destruct (isSpace c).
Qed.

Lemma toLowerCase_trimEnd s : toLowerCase (trimEnd s) = trimEnd (toLowerCase s).
Proof.
  induction s as [|c s IH]; simpl; [done|].
  rewrite <- IH, isSpace_lowerChar.
  destruct (trimEnd s); simpl; [by destruct (isSpace c)|done].
Qed.

Lemma toLowerCase_trim s : toLowerCase (trim s) = trim (toLowerCase s).
Proof. unfold trim. by rewrite toLowerCase_trimEnd, toLowerCase_trimStart. Qed.

Lemma trimStart_clean s : startsClean (trimStart s) = true.
Proof.
  induction s as [|c s IH]; simpl; [done|].
  destruct (isSpace c) eqn:E; [done|]. simpl. by rewrite E.
Qed.

Lemma trimStart_of_clean s : startsClean s = true -> trimStart s = s.
Proof. destruct s as [|c s]; simpl; [done|]. by intros ->%negb_true_iff. Qed.

Lemma trimEnd_clean s : startsClean s = true -> startsClean (trimEnd s) = true.
Proof.
  destruct s as [|c s]; simpl; [done|]. intros H.
  destruct (trimEnd s); simpl; [|done].
  apply negb_true_iff in H. by rewrite H; simpl; rewrite H.
Qed.

Lemma trimEnd_idem s : trimEnd (trimEnd s) = trimEnd s.
Proof.
  induction s as [|c s IH]; simpl; [done|].
  destruct (trimEnd s) as [|d t] eqn:E.
  - destruct (isSpace c) eqn:Hc; simpl; [done|]. by rewrite Hc.
  - simpl in *. by rewrite IH.
Qed.

Lemma trim_idem s : trim (trim s) = trim s.
Proof.
  unfold trim.
  rewrite (trimStart_of_clean (trimEnd (trimStart s))).
  - apply trimEnd_idem.
  - apply trimEnd_clean, trimStart_clean.
Qed.

(** The normalised input is its own normal form. *)
Lemma normalize_input_idem x :
  trim (toLowerCase (trim (toLowerCase x))) = trim (toLowerCase x).
Proof. by rewrite toLowerCase_trim, toLowerCase_idem, trim_idem. Qed.

(** X3.  On an input that some recognition rule matches, letter case and
    surrounding white space do not matter: the result is that of the
    lower-cased, trimmed input. *)
Theorem recognized_input_case_and_space_insensitive (x tz : string) (current : Date) :
  recognized (trim (toLowerCase x)) = true ->
  parseNaturalDateTime x tz current
  = parseNaturalDateTime (trim (toLowerCase x)) tz current.
Proof.
  intros Hr. unfold parseNaturalDateTime. rewrite normalize_input_idem.
  destruct (anchorDate (trim (toLowerCase x)) current) as [date|] eqn:Ha; [done|].
  apply anchorDate_recognized in Ha. congruence.
Qed.

Lemma recognized_input_case_and_space_insensitive_witness :
  recognized (trim (toLowerCase "  TOMORROW 2:30PM ")) = true /\
  parseNaturalDateTime "  TOMORROW 2:30PM " "UTC" (atDay 19737)
  = parseNaturalDateTime "tomorrow 2:30pm" "UTC" (atDay 19737).
Proof.
  split; [reflexivity|].
  apply (recognized_input_case_and_space_insensitive "  TOMORROW 2:30PM " "UTC"
           (atDay 19737)).
  reflexivity.
Defined.

(** *** The earlier rules and the relative count *)

(** X4.  The first three rules in their order: an input that holds [today]
    is anchored to the current date whatever else it holds; failing that,
    one that holds [tomorrow] is anchored exactly one day later; failing
    that, one that holds [yesterday] exactly one day earlier.  The time of
    day of the current date is kept in the anchor. *)
Theorem literal_rules_anchor (x tz : string) (t : Z) :
  - maxTime <= t - msPerDay -> t + msPerDay <= maxTime ->
  let n := trim (toLowerCase x) in
  (includes "today" n = true ->
   parseNaturalDateTime x tz (ValidDate t) = parseTimeForDate n (ValidDate t) tz) /\
  (includes "today" n = false -> includes "tomorrow" n = true ->
   parseNaturalDateTime x tz (ValidDate t)
   = parseTimeForDate n (ValidDate (t + msPerDay)) tz) /\
  (includes "today" n = false -> includes "tomorrow" n = false ->
   includes "yesterday" n = true ->
   parseNaturalDateTime x tz (ValidDate t)
   = parseTimeForDate n (ValidDate (t - msPerDay)) tz).
Proof.
  intros Hlo Hhi n. subst n. unfold parseNaturalDateTime, anchorDate.
  split_and!.
  - by intros ->.
  - intros -> ->. rewrite setDate_shift, TimeClip_valid; [|unfold msPerDay in *; lia].
    do 2 f_equal; lia.
  - intros -> -> ->. rewrite setDate_shift, TimeClip_valid; [|unfold msPerDay in *; lia].
    do 2 f_equal; lia.
Qed.

Lemma literal_rules_anchor_witness :
  (- maxTime <= 19737 * msPerDay - msPerDay /\ 19737 * msPerDay + msPerDay <= maxTime /\
   includes "today" "day after tomorrow" = false /\
   includes "tomorrow" "day after tomorrow" = true) /\
  parseNaturalDateTime "day after tomorrow" "UTC" (ValidDate (19737 * msPerDay))
  = parseTimeForDate "day after tomorrow" (ValidDate (19737 * msPerDay + msPerDay)) "UTC".
Proof.
  split; [by vm_compute|].
  destruct (literal_rules_anchor "day after tomorrow" "UTC" (19737 * msPerDay))
    as (_ & H & _); [by vm_compute|by vm_compute|].
  by apply H.
Defined.

Lemma parseDigits_nonneg s : forall acc,
  allChars isDigit s = true -> 0 <= acc -> 0 <= parseDigits acc s.
Proof.
  induction s as [|c s IH]; intros acc; simpl; [done|].
  intros [Hc Hs]%andb_true_iff Hacc. apply IH; [done|].
  unfold isDigit, inRange in Hc. apply andb_true_iff in Hc as [H1 _].
  apply N.leb_le in H1. lia.
Qed.

(** Every match of the relative pattern captures a run of digits. *)
Lemma relativeMatch_shape s m :
  regexMatch relativeDayPattern s = Some m ->
  exists ds, group 1 m = Some ds /\ allChars isDigit ds = true.
Proof.
  unfold regexMatch. generalize (@None ascii).
  assert (Hexec : forall prev s, exec relativeDayPattern prev s [] accept = Some m ->
            exists ds, group 1 m = Some ds /\ allChars isDigit ds = true).
  { clear s. intros prev s H. unfold relativeDayPattern in H.
    apply exec_seq_keeps in H as (s1 & p1 & caps1 & H & _).
    apply exec_captured_class in H as (ds & _ & _ & Hg & Hd & _); [|done].
    by exists ds. }
  induction s as [|x s IH]; intros prev; cbn [searchFrom].
  - destruct (exec relativeDayPattern prev "" [] accept) as [r|] eqn:E; [|done].
    intros [= <-]. by apply Hexec in E.
  - destruct (exec relativeDayPattern prev (String x s) [] accept) as [r|] eqn:E.
    + intros [= <-]. by apply Hexec in E.
    + apply IH.
Qed.

(** X5.  When the relative-day rule applies with the count [N], the anchor
    is exactly [N] days after the current date as long as that date exists;
    a count that leads past the last date a [Date] can hold gives no error
    but the text [NaN-NaN-NaNTNaN:NaN:00]. *)
Theorem relative_count_anchor_or_NaN (x tz : string) (t : Z) (m : Caps) :
  - maxTime <= t <= maxTime ->
  let n := trim (toLowerCase x) in
  includes "today" n = false -> includes "tomorrow" n = false ->
  includes "yesterday" n = false ->
  regexMatch relativeDayPattern n = Some m ->
  exists (ds : string),
    group 1 m = Some ds /\ 0 <= parseInt ds /\
    (t + parseInt ds * msPerDay <= maxTime ->
     parseNaturalDateTime x tz (ValidDate t)
     = parseTimeForDate n (ValidDate (t + parseInt ds * msPerDay)) tz) /\
    (maxTime < t + parseInt ds * msPerDay ->
     parseNaturalDateTime x tz (ValidDate t)
     = {| datetime := "NaN-NaN-NaNTNaN:NaN:00"; isAllDay := false |}).
Proof.
  intros Ht n; subst n; intros H1 H2 H3 Hm.
  destruct (relativeMatch_shape _ _ Hm) as (ds & Hg & Hd).
  assert (HN : 0 <= parseInt ds) by (by apply parseDigits_nonneg).
  exists ds. split_and!; [done|done| |].
  - intros Hin. unfold parseNaturalDateTime, anchorDate. rewrite H1, H2, H3, Hm, Hg.
    cbn [option_map]. rewrite setDate_shift, TimeClip_valid; [done|].
    unfold msPerDay in *. lia.
  - intros Hout. unfold parseNaturalDateTime, anchorDate. rewrite H1, H2, H3, Hm, Hg.
    cbn [option_map]. rewrite setDate_shift.
    assert (Hclip : TimeClip (t + parseInt ds * msPerDay) = InvalidDate).
    { unfold TimeClip. destruct (Z.leb_spec (Z.abs (t + parseInt ds * msPerDay)) maxTime);
        [lia|done]. }
    rewrite Hclip.
    assert (Hdig : anyChar isDigit (trim (toLowerCase x)) = true).
    { apply (regexMatch_hits relativeDayPattern isDigit _ m); [by vm_compute|done]. }
    destruct (parseTimeForDate_all_day_iff_no_digit (trim (toLowerCase x)) tz InvalidDate)
      as (_ & _ & Hdt).
    destruct (Hdt Hdig) as (tm & _ & ->). reflexivity.
Qed.

Lemma relative_count_anchor_or_NaN_witness :
  let m := [(1%nat, "200000000")] in
  (- maxTime <= 19737 * msPerDay <= maxTime /\
   regexMatch relativeDayPattern "in 200000000 days" = Some m) /\
  parseNaturalDateTime "in 200000000 days" "UTC" (ValidDate (19737 * msPerDay))
  = {| datetime := "NaN-NaN-NaNTNaN:NaN:00"; isAllDay := false |}.
Proof.
  split; [by vm_compute|].
  assert (Ht : - maxTime <= 19737 * msPerDay <= maxTime) by (by vm_compute).
  destruct (relative_count_anchor_or_NaN "in 200000000 days" "UTC" (19737 * msPerDay)
              [(1%nat, "200000000")] Ht eq_refl eq_refl eq_refl eq_refl)
    as (ds & Hg & _ & _ & Hnan).
  injection Hg as <-. apply Hnan. by vm_compute.
Defined.

End NaturalDateTimeMore.

(** ** The flexible date/time schema *)

Module FlexibleDateTimeSpec.
Import JsString JsStringMore JsStringFacts Regex RegexFacts JsDate JsDateFacts
  NaturalDateTime NaturalDateTimeSpec FlexibleDateTime.

#[local] Arguments String.append !_ _ / : simpl nomatch.

(** *** Deterministic patterns *)

Lemma rep_exact p n : forall prev s caps k,
  rep p n (Some n) prev s caps k
  = match takeExact p n prev s with
    | Some (prev', r) => k prev' r caps
    | None => None
    end.
Proof.
  induction n as [|n IH]; intros prev s caps k.
  - destruct s as [|c r]; simpl; [done|]. by rewrite andb_false_r.
  - destruct s as [|c r]; simpl; [done|]. rewrite andb_true_r.
    destruct (p c); [|done]. rewrite IH.
    by destruct (takeExact p n (Some c) r) as [[prev' r']|]; [destruct (k prev' r' caps)|].
Qed.

Lemma exec_deterministic re : deterministic re = true ->
  forall prev s caps k,
    exec re prev s caps k
    = match strip re prev s with
      | Some (prev', r) => k prev' r caps
      | None => None
      end.
Proof.
  induction re as [l|l|p lo hi|a IHa b IHb|a IHa b IHb|a IHa|i a IHa|];
    cbn [deterministic]; try done; intros Hdet prev s caps k; cbn [exec strip].
  - by destruct (dropPrefix l s).
  - destruct hi as [n|]; [|done]. apply Nat.eqb_eq in Hdet as ->. apply rep_exact.
  - apply andb_true_iff in Hdet as [Ha Hb]. rewrite (IHa Ha).
    destruct (strip a prev s) as [[prev' r]|]; [|done]. by rewrite (IHb Hb).
Qed.

Lemma exec_seq_deterministic a b prev s caps k :
  deterministic a = true ->
  exec (a >> b) prev s caps k
  = match strip a prev s with
    | Some (prev', r) => exec b prev' r caps k
    | None => None
    end.
Proof. intros Ha. cbn [exec]. by rewrite (exec_deterministic a Ha). Qed.

Lemma exec_opt a prev s caps k :
  exec (Opt a) prev s caps k
  = match exec a prev s caps k with
    | Some res => Some res
    | None => k prev s caps
    end.
Proof. reflexivity. Qed.

Lemma exec_grp i a prev s caps k :
  exec (Grp i a) prev s caps k
  = exec a prev s caps (fun prev' s' caps' =>
      k prev' s' ((i, take (String.length s - String.length s') s) :: caps')).
Proof. reflexivity. Qed.

(** Whether a match succeeds does not depend on the captures. *)
Lemma rep_sameSuccess p : forall s lo hi prev caps caps' k k',
  sameSuccess k k' ->
  is_Some_b (rep p lo hi prev s caps k) = is_Some_b (rep p lo hi prev s caps' k').
Proof.
  induction s as [|c s IH]; intros lo hi prev caps caps' k k' Hk; simpl.
  - destruct lo; [apply Hk|done].
  - assert (Hstop : is_Some_b (match lo with O => k prev (String c s) caps | S _ => None end)
                    = is_Some_b (match lo with O => k' prev (String c s) caps' | S _ => None end)).
    { destruct lo; [apply Hk|done]. }
    destruct (p c && mayTake hi); [|done].
    specialize (IH (Nat.pred lo) (option_map Nat.pred hi) (Some c) caps caps' k k' Hk).
    destruct (rep p (Nat.pred lo) _ (Some c) s caps k),
             (rep p (Nat.pred lo) _ (Some c) s caps' k'); done.
Qed.

Lemma exec_sameSuccess re : forall prev s caps caps' k k',
  sameSuccess k k' ->
  is_Some_b (exec re prev s caps k) = is_Some_b (exec re prev s caps' k').
Proof.
  induction re as [l|l|p lo hi|a IHa b IHb|a IHa b IHb|a IHa|i a IHa|];
    intros prev s caps caps' k k' Hk; cbn [exec].
  - destruct (dropPrefix l s); [apply Hk|done].
  - destruct (dropPrefixI l s); [apply Hk|done].
  - by apply rep_sameSuccess.
  - apply IHa. intros p1 s1 c1 c1'. by apply IHb.
  - specialize (IHa prev s caps caps' k k' Hk). specialize (IHb prev s caps caps' k k' Hk).
    destruct (exec a prev s caps k), (exec a prev s caps' k'); done.
  - specialize (IHa prev s caps caps' k k' Hk). pose proof (Hk prev s caps caps') as H0.
    destruct (exec a prev s caps k), (exec a prev s caps' k'); done.
  - apply IHa. intros p1 s1 c1 c1'. apply Hk.
  - destruct (xorb _ _); [apply Hk|done].
Qed.

Lemma atEnd_sameSuccess : sameSuccess atEnd atEnd.
Proof. intros prev s caps caps'. by destruct s. Qed.

(** A match of the time part starts with [T]. *)
Lemma strip_timePart_nonempty prev s r : strip timePart prev s = Some r -> s <> "".
Proof. by destruct s. Qed.

(** X6.  The three shapes of the final check accept exactly the strings
    that the ISO test of the first step accepts. *)
Theorem refine_accepts_exactly_iso (v : string) : refine v = testWhole isoPattern v.
Proof.
  unfold refine, testWhole, isoPattern, dateOnly, withTimezone, withoutTimezone.
  rewrite !(exec_seq_deterministic datePart) by done.
  rewrite (exec_deterministic datePart) by done.
  destruct (strip datePart None v) as [[p1 r1]|]; [|done].
  rewrite exec_opt, !(exec_seq_deterministic timePart) by done.
  rewrite (exec_deterministic timePart) by done.
  destruct (strip timePart p1 r1) as [[p2 r2]|] eqn:ET.
  - apply strip_timePart_nonempty in ET.
    assert (H1 : atEnd p1 r1 [] = None) by (by destruct r1).
    rewrite H1, exec_opt. cbn [is_Some_b orb].
    rewrite exec_grp.
    rewrite (exec_sameSuccess zonePart p2 r2 [] [] _ atEnd).
    + destruct (exec zonePart p2 r2 [] atEnd); [done|].
      cbn [is_Some_b orb]. by destruct (atEnd p2 r2 []).
    + intros prev s caps caps'. by destruct s.
  - by rewrite !orb_false_r.
Qed.

(** What the parser returns is the input itself or printed text, and the
    parser returns it unchanged when given it again. *)
Lemma parse_value_stable (x tz tz' : string) (current : Date) :
  datetime (parseNaturalDateTime (datetime (parseNaturalDateTime x tz current)) tz' current)
  = datetime (parseNaturalDateTime x tz current).
Proof.
  destruct (anchorDate (trim (toLowerCase x)) current) as [date|] eqn:Ha.
  - assert (Hr : parseNaturalDateTime x tz current
                 = parseTimeForDate (trim (toLowerCase x)) date tz).
    { unfold parseNaturalDateTime. by rewrite Ha. }
    rewrite Hr.
    destruct (parseTimeForDate_printed (trim (toLowerCase x)) date tz) as [Hc _].
    by rewrite (parse_unrecognized _ _ _ (printed_not_recognized _ Hc)).
  - apply anchorDate_recognized in Ha.
    rewrite (parse_unrecognized _ tz _ Ha). simpl.
    by rewrite (parse_unrecognized _ tz' _ Ha).
Qed.

(** X7.  The schema and ISO text: a value of ISO shape is accepted as it
    is, without being parsed; and whatever value the schema accepts is of ISO
    shape and is accepted unchanged when it is submitted again. *)
Theorem schema_accepts_iso_and_is_stable
    (timezone : option string) (val : string) (current : Date) :
  (testWhole isoPattern val = true -> flexibleDateTime timezone val current = inr val) /\
  (forall v, flexibleDateTime timezone val current = inr v ->
     testWhole isoPattern v = true /\ flexibleDateTime timezone v current = inr v).
Proof.
  assert (Hiso : forall v, testWhole isoPattern v = true ->
            flexibleDateTime timezone v current = inr v).
  { intros v Hv. unfold flexibleDateTime, transform. rewrite Hv.
    by rewrite refine_accepts_exactly_iso, Hv. }
  split; [apply Hiso|].
  intros v Hv. unfold flexibleDateTime in Hv.
  destruct (refine (transform timezone val current)) eqn:Hr; [|done].
  injection Hv as <-. rewrite refine_accepts_exactly_iso in Hr. auto.
Qed.

Lemma schema_accepts_iso_and_is_stable_witness :
  testWhole isoPattern "2024-01-20T10:00:00+05:30" = true /\
  flexibleDateTime None "2024-01-20T10:00:00+05:30" (atDay 19737)
  = inr "2024-01-20T10:00:00+05:30".
Proof.
  split; [reflexivity|].
  by apply (schema_accepts_iso_and_is_stable None "2024-01-20T10:00:00+05:30" (atDay 19737)).
Defined.

(** X8.  Free text that is not of ISO shape and that no recognition rule
    matches is rejected by the schema with the format message: the parser
    hands it back unchanged and the final check refuses it. *)
Theorem schema_rejects_unrecognized_text
    (timezone : option string) (val : string) (current : Date) :
  testWhole isoPattern val = false ->
  recognized (trim (toLowerCase val)) = false ->
  transform timezone val current = val /\
  flexibleDateTime timezone val current = inl formatError.
Proof.
  intros Hiso Hrec.
  assert (Ht : transform timezone val current = val).
  { unfold transform. rewrite Hiso. by rewrite (parse_unrecognized _ _ _ Hrec). }
  split; [done|]. unfold flexibleDateTime.
  by rewrite Ht, refine_accepts_exactly_iso, Hiso.
Qed.

Lemma schema_rejects_unrecognized_text_witness :
  (testWhole isoPattern "next week" = false /\
   recognized (trim (toLowerCase "next week")) = false) /\
  flexibleDateTime None "next week" (atDay 19737) = inl formatError.
Proof.
  split; [by split|].
  by apply (schema_rejects_unrecognized_text None "next week" (atDay 19737)).
Defined.

(** X9.  [preprocess] is idempotent: applied to its own result it changes
    nothing. *)
Theorem preprocess_idempotent (val tz : string) (current : Date) :
  preprocess (preprocess val tz current) tz current = preprocess val tz current.
Proof.
  unfold preprocess at 2 3.
  destruct (testWhole isoPattern val) eqn:Hiso.
  - unfold preprocess. by rewrite Hiso.
  - unfold preprocess.
    destruct (testWhole isoPattern (datetime (parseNaturalDateTime val tz current)));
      [done|apply parse_value_stable].
Qed.

(** *** Printed dates and the ISO shape *)

Lemma year_length y : DayFromYear (y + 1) = DayFromYear y + 365 + InLeapYear y.
Proof.
  unfold DayFromYear, InLeapYear.
  destruct (Z.eqb_spec (y mod 4) 0) as [H4|H4];
    destruct (Z.eqb_spec (y mod 100) 0) as [H100|H100];
    destruct (Z.eqb_spec (y mod 400) 0) as [H400|H400];
    cbn [negb]; Z.div_mod_to_equations; lia.
Qed.

Lemma DayWithinYear_range d :
  0 <= DayWithinYear d < 365 + InLeapYear (YearFromDay d).
Proof.
  unfold DayWithinYear. pose proof (YearFromDay_spec d) as H.
  rewrite year_length in H. lia.
Qed.

Lemma InLeapYear_range y : 0 <= InLeapYear y <= 1.
Proof.
  unfold InLeapYear.
  destruct (negb _); [lia|]. destruct (negb _); [lia|]. destruct (negb _); lia.
Qed.

Lemma MonthFromDay_range d : 0 <= MonthFromDay d <= 11.
Proof. unfold MonthFromDay. cbv zeta. repeat (destruct (_ <? _); [lia|]). lia. Qed.

Lemma DateFromDay_range d : 1 <= DateFromDay d <= 31.
Proof.
  pose proof (DayWithinYear_range d) as Hw.
  pose proof (InLeapYear_range (YearFromDay d)) as Hl.
  unfold DateFromDay, MonthFromDay. cbv zeta.
  repeat (match goal with
          | |- context [?a <? ?b] => destruct (Z.ltb_spec a b)
          end; [cbn match; lia|]).
  cbn match. lia.
Qed.

Lemma hours_range t : 0 <= TimeWithinDay t / msPerHour <= 23.
Proof.
  unfold TimeWithinDay, msPerHour, msPerDay.
  pose proof (Z.mod_pos_bound t 86400000). Z.div_mod_to_equations. lia.
Qed.

Lemma minutes_range t : 0 <= (TimeWithinDay t mod msPerHour) / msPerMinute <= 59.
Proof.
  unfold msPerHour, msPerMinute.
  pose proof (Z.mod_pos_bound (TimeWithinDay t) 3600000). Z.div_mod_to_equations. lia.
Qed.

(** Printing numbers of the ranges in question. *)
Lemma showZ_four_digits y : 1000 <= y <= 9999 -> digitString 4 (showZ y) = true.
Proof.
  intros Hy.
  assert (H : forallb (fun k => digitString 4 (showZ (1000 + Z.of_nat k))) (List.seq 0 (Z.to_nat 9000)) = true)
    by (by vm_compute).
  rewrite forallb_forall in H. specialize (H (Z.to_nat (y - 1000))).
  replace (1000 + Z.of_nat (Z.to_nat (y - 1000))) with y in H by lia.
  apply H, in_seq. lia.
Qed.

Lemma padded_two_digits v : 0 <= v <= 99 -> digitString 2 (padStart2 (showZ v)) = true.
Proof.
  intros Hv.
  assert (H : forallb (fun k => digitString 2 (padStart2 (showZ (Z.of_nat k)))) (List.seq 0 (Z.to_nat 100)) = true)
    by (by vm_compute).
  rewrite forallb_forall in H. specialize (H (Z.to_nat v)).
  replace (Z.of_nat (Z.to_nat v)) with v in H by lia.
  apply H, in_seq. lia.
Qed.

Lemma takeExact_append p n : forall w prev r,
  allChars p w = true -> String.length w = n ->
  takeExact p n prev (w +:+ r) = Some (lastChar prev w, r).
Proof.
  induction n as [|n IH]; intros [|c w] prev r Hw Hlen; simpl in *; try done.
  apply andb_true_iff in Hw as [-> Hw]. apply IH; [done|lia].
Qed.

Lemma strip_digits n w prev r :
  digitString n w = true ->
  strip (digits n) prev (w +:+ r) = Some (lastChar prev w, r).
Proof.
  intros [Hw Hlen]%andb_true_iff. apply Nat.eqb_eq in Hlen.
  by apply takeExact_append.
Qed.

Lemma strip_lit l prev r : strip (Lit l) prev (l +:+ r) = Some (lastChar prev l, r).
Proof. cbn [strip]. by rewrite dropPrefix_app_same. Qed.

Lemma strip_seq a b prev s p1 s1 :
  strip a prev s = Some (p1, s1) -> strip (a >> b) prev s = strip b p1 s1.
Proof. cbn [strip]. by intros ->. Qed.

(** Text of the shape [dddd-dd-dd] followed by [rest]. *)
Lemma strip_datePart y m d prev rest :
  digitString 4 y = true -> digitString 2 m = true -> digitString 2 d = true ->
  exists p', strip datePart prev (y +:+ "-" +:+ m +:+ "-" +:+ d +:+ rest) = Some (p', rest).
Proof.
  intros Hy Hm Hd. unfold datePart.
  rewrite (strip_seq _ _ _ _ _ _ (strip_digits 4 y prev _ Hy)).
  rewrite (strip_seq _ _ _ _ _ _ (strip_lit "-" _ _)).
  rewrite (strip_seq _ _ _ _ _ _ (strip_digits 2 m _ _ Hm)).
  rewrite (strip_seq _ _ _ _ _ _ (strip_lit "-" _ _)).
  rewrite (strip_digits 2 d _ _ Hd). by eexists.
Qed.

Lemma strip_timePart h mi s prev rest :
  digitString 2 h = true -> digitString 2 mi = true -> digitString 2 s = true ->
  exists p', strip timePart prev ("T" +:+ h +:+ ":" +:+ mi +:+ ":" +:+ s +:+ rest)
             = Some (p', rest).
Proof.
  intros Hh Hm Hs. unfold timePart.
  rewrite (strip_seq _ _ _ _ _ _ (strip_lit "T" _ _)).
  rewrite (strip_seq _ _ _ _ _ _ (strip_digits 2 h _ _ Hh)).
  rewrite (strip_seq _ _ _ _ _ _ (strip_lit ":" _ _)).
  rewrite (strip_seq _ _ _ _ _ _ (strip_digits 2 mi _ _ Hm)).
  rewrite (strip_seq _ _ _ _ _ _ (strip_lit ":" _ _)).
  rewrite (strip_digits 2 s _ _ Hs). by eexists.
Qed.

Lemma testWhole_date y m d :
  digitString 4 y = true -> digitString 2 m = true -> digitString 2 d = true ->
  testWhole isoPattern (y +:+ "-" +:+ m +:+ "-" +:+ d +:+ "") = true.
Proof.
  intros Hy Hm Hd. destruct (strip_datePart y m d None "" Hy Hm Hd) as [p1 H1].
  unfold testWhole, isoPattern.
  rewrite (exec_seq_deterministic datePart) by done. rewrite H1, exec_opt.
  rewrite (exec_seq_deterministic timePart) by done. reflexivity.
Qed.

Lemma testWhole_dateTime y m d h mi :
  digitString 4 y = true -> digitString 2 m = true -> digitString 2 d = true ->
  digitString 2 h = true -> digitString 2 mi = true ->
  testWhole isoPattern
    (y +:+ "-" +:+ m +:+ "-" +:+ d +:+ "T" +:+ h +:+ ":" +:+ mi +:+ ":" +:+ "00" +:+ "") = true.
Proof.
  intros Hy Hm Hd Hh Hmi.
  destruct (strip_datePart y m d None
              ("T" +:+ h +:+ ":" +:+ mi +:+ ":" +:+ "00" +:+ "") Hy Hm Hd) as [p1 H1].
  destruct (strip_timePart h mi "00" p1 "" Hh Hmi eq_refl) as [p2 H2].
  unfold testWhole, isoPattern.
  rewrite (exec_seq_deterministic datePart) by done. rewrite H1, exec_opt.
  rewrite (exec_seq_deterministic timePart) by done. rewrite H2. reflexivity.
Qed.

Lemma append_nil_r (s : string) : s +:+ "" = s.
Proof. induction s as [|c s IH]; simpl; [done|]. by rewrite IH. Qed.

(** A valid date in the years 1000 to 9999 is printed in ISO shape, with or
    without its time. *)
Lemma valid_date_prints_iso t :
  1000 <= YearFromDay (Day t) <= 9999 ->
  testWhole isoPattern (isoDate (ValidDate t)) = true /\
  testWhole isoPattern (isoDateTime (ValidDate t)) = true.
Proof.
  intros Hy.
  pose proof (MonthFromDay_range (Day t)) as Hm.
  pose proof (DateFromDay_range (Day t)) as Hd.
  pose proof (hours_range t) as Hh. pose proof (minutes_range t) as Hmi.
  assert (Ey : digitString 4 (showNum (getFullYear (ValidDate t))) = true)
    by (by apply showZ_four_digits).
  assert (Em : digitString 2 (padStart2 (showNum (numAdd (getMonth (ValidDate t)) (Some 1))))
               = true) by (apply padded_two_digits; lia).
  assert (Ed : digitString 2 (padStart2 (showNum (getDate (ValidDate t)))) = true)
    by (apply padded_two_digits; lia).
  assert (Eh : digitString 2 (padStart2 (showNum (getHours (ValidDate t)))) = true)
    by (apply padded_two_digits; lia).
  assert (Emi : digitString 2 (padStart2 (showNum (getMinutes (ValidDate t)))) = true)
    by (apply padded_two_digits; lia).
  split.
  - rewrite <- (testWhole_date _ _ _ Ey Em Ed). unfold isoDate.
    by rewrite append_nil_r.
  - rewrite <- (testWhole_dateTime _ _ _ _ _ Ey Em Ed Eh Emi).
    unfold isoDateTime, isoDate. f_equal.
    rewrite !append_assoc, append_nil_r. reflexivity.
Qed.

(** X10.  A phrase that a recognition rule matches is accepted by the schema
    whenever the date it resolves to exists and lies in the years 1000 to
    9999: the text that the parser prints for it has one of the accepted
    shapes. *)
Theorem schema_accepts_resolved_phrase
    (timezone : option string) (val : string) (current date : Date) (t : Z) :
  anchorDate (trim (toLowerCase val)) current = Some date ->
  printedDate (trim (toLowerCase val)) date = ValidDate t ->
  1000 <= YearFromDay (Day t) <= 9999 ->
  (forall tz, refine (datetime (parseNaturalDateTime val tz current)) = true) /\
  flexibleDateTime timezone val current = inr (transform timezone val current).
Proof.
  intros Ha Hp Hy. destruct (valid_date_prints_iso t Hy) as [Hd Hdt].
  assert (Hparse : forall tz, refine (datetime (parseNaturalDateTime val tz current)) = true).
  { intros tz. rewrite refine_accepts_exactly_iso.
    unfold parseNaturalDateTime. rewrite Ha. unfold parseTimeForDate.
    unfold printedDate in Hp.
    destruct (regexMatch timePattern (trim (toLowerCase val))) as [m|]; simpl;
      by rewrite Hp. }
  split; [done|]. unfold flexibleDateTime.
  assert (Hr : refine (transform timezone val current) = true).
  { unfold transform. destruct (testWhole isoPattern val) eqn:Hiso; [|apply Hparse].
    by rewrite refine_accepts_exactly_iso. }
  by rewrite Hr.
Qed.

Lemma schema_accepts_resolved_phrase_witness :
  (anchorDate (trim (toLowerCase "Friday 5pm")) (atDay 19737) = Some (atDay 19741) /\
   printedDate (trim (toLowerCase "Friday 5pm")) (atDay 19741)
   = ValidDate (19741 * msPerDay + 17 * msPerHour) /\
   1000 <= YearFromDay (Day (19741 * msPerDay + 17 * msPerHour)) <= 9999) /\
  flexibleDateTime None "Friday 5pm" (atDay 19737) = inr "2024-01-19T17:00:00".
Proof.
  split; [by vm_compute|].
  destruct (schema_accepts_resolved_phrase None "Friday 5pm" (atDay 19737) (atDay 19741)
              (19741 * msPerDay + 17 * msPerHour)) as [_ H];
    [reflexivity|reflexivity|by vm_compute|].
  rewrite H. reflexivity.
Defined.

End FlexibleDateTimeSpec.

(** ** More on the create-event handler *)

Module CreateEventMore.
Import JsString JsStringFacts Eff Eff.Notations EffFacts CreateEvent CreateEventParts
  CreateEventSpec.

#[local] Arguments String.append !_ _ / : simpl nomatch.

Section Handler.
Variable TimeObject : Type.
Variable createTimeObject : string -> string -> TimeObject.
Variable Event : Type.
Variable svc : Services TimeObject Event.

Abbreviation runTool := (runTool TimeObject createTimeObject Event svc).
Abbreviation createEvent := (createEvent TimeObject createTimeObject Event svc).
Abbreviation resolveTimezone := (resolveTimezone TimeObject Event svc).
Abbreviation eventToCheck := (eventToCheck TimeObject createTimeObject).
Abbreviation Call := (Call TimeObject).
Abbreviation isInsert := (isInsert TimeObject).
Abbreviation insertParams := (insertParams TimeObject createTimeObject Event svc).
Abbreviation beforeInsert := (beforeInsert TimeObject createTimeObject Event svc).
Abbreviation rethrown := (rethrown TimeObject Event svc).
Abbreviation timezoneAnswer := (timezoneAnswer TimeObject Event svc).
Abbreviation timezoneCalls := (timezoneCalls TimeObject).
Abbreviation validationAnswer := (validationAnswer TimeObject Event svc).
Abbreviation validationCalls := (validationCalls TimeObject).
Abbreviation attendeesFor := (attendeesFor).
Abbreviation conferenceFor := (conferenceFor TimeObject Event svc).
Abbreviation checkCall := (checkCall TimeObject createTimeObject).

(** Closes a goal that compares two runs after the last case split. *)
Ltac run_done :=
  cbn [caught];
  try match goal with |- context [is409 ?e] => destruct (is409 e) end;
  rewrite ?app_nil_r, <- ?app_assoc; reflexivity.

Lemma resolveTimezone_run args tr :
  resolveTimezone args tr
  = (match timezoneAnswer args with inl e => inl (Raised e) | inr tz => inr tz end,
     (tr ++ timezoneCalls args)%list).
Proof.
  unfold CreateEvent.resolveTimezone, CreateEventParts.timezoneAnswer,
    CreateEventParts.timezoneCalls.
  destruct (orString (timeZone args)); [|done].
  unfold ret. by rewrite app_nil_r.
Qed.

(** [createEvent], step by step. *)
Lemma createEvent_run args tr :
  createEvent args tr
  = match beforeInsert args with
    | (calls, inl e) => (inl (rethrown args e), (tr ++ calls)%list)
    | (calls, inr params) =>
        (match eventsInsert _ _ svc params with
         | inr (Some ev) => inr ev
         | inr None =>
             inl (rethrown args (newError "Failed to create event, no data returned"))
         | inl e => inl (rethrown args e)
         end,
         (tr ++ calls ++ [EventsInsert _ params])%list)
    end.
Proof.
  unfold CreateEvent.createEvent, CreateEventParts.beforeInsert,
    CreateEventParts.validationAnswer, CreateEventParts.validationCalls,
    CreateEventParts.rethrown, CreateEvent.resolveTimezone,
    CreateEventParts.timezoneAnswer, CreateEventParts.timezoneCalls,
    CreateEventParts.insertParams, CreateEventParts.attendeesFor,
    CreateEventParts.conferenceFor, tryCatch, bind, ask, call, ret, throw.
  destruct (truthyId (eventId args));
    [destruct (validateEventId _ _ svc _) as [e|[]]|];
    try (run_done);
    (destruct (orString (timeZone args));
     [|destruct (getCalendarTimezone _ _ svc _) as [e|tz]];
     try (run_done);
     (destruct (tokenInfoEmail _ _ svc) as [e|pe];
      try (run_done);
      (destruct (eventsInsert _ _ svc _) as [e|[ev|]]; run_done))).
Qed.

(** The calls before the insert are not inserts. *)
Lemma beforeInsert_no_insert args :
  Forall (fun c => ~ isInsert c) (fst (beforeInsert args)).
Proof.
  assert (Hv : Forall (fun c => ~ isInsert c) (validationCalls args)).
  { unfold CreateEventParts.validationCalls.
    destruct (truthyId _); [constructor; [by intros []|]|]; constructor. }
  assert (Ht : Forall (fun c => ~ isInsert c) (timezoneCalls args)).
  { unfold CreateEventParts.timezoneCalls.
    destruct (orString _); [|constructor; [by intros []|]]; constructor. }
  assert (Hg : Forall (fun c => ~ isInsert c) [GetTokenInfo TimeObject]).
  { constructor; [by intros []|constructor]. }
  unfold CreateEventParts.beforeInsert.
  destruct (validationAnswer args); cbn [fst]; [assumption|].
  destruct (timezoneAnswer args); cbn [fst]; [by apply List.Forall_app|].
  destruct (tokenInfoEmail _ _ svc); cbn [fst];
    apply List.Forall_app; (split; [assumption|]); by apply List.Forall_app.
Qed.

(** Every insert that [createEvent] makes sends [insertParams] for the
    resolved zone and the primary user's address. *)
Lemma createEvent_insert args p :
  In (EventsInsert _ p) (trace (createEvent args)) ->
  exists tz pe,
    timezoneAnswer args = inr tz /\ tokenInfoEmail _ _ svc = inr pe /\
    p = insertParams args tz pe.
Proof.
  unfold trace, run. rewrite createEvent_run.
  pose proof (beforeInsert_no_insert args) as Hno.
  unfold CreateEventParts.beforeInsert in *.
  destruct (validationAnswer args) as [e|u]; cbn [fst snd] in *.
  { intros Hin. by apply (proj1 (List.Forall_forall _ _) Hno) in Hin. }
  destruct (timezoneAnswer args) as [e|tz]; cbn [fst snd] in *.
  { intros Hin. by apply (proj1 (List.Forall_forall _ _) Hno) in Hin. }
  destruct (tokenInfoEmail _ _ svc) as [e|pe]; cbn [fst snd] in *.
  { intros Hin. by apply (proj1 (List.Forall_forall _ _) Hno) in Hin. }
  cbn [app]. intros [Hin|[Hin|[]]]%in_app_or.
  - by apply (proj1 (List.Forall_forall _ _) Hno) in Hin.
  - injection Hin as <-. by exists tz, pe.
Qed.

(** X11.  The primary user is always among the attendees of an insert, and
    is not added twice: the attendee list sent is the list of the arguments
    when one of its entries already has the primary user's address, and that
    list followed by the primary user (marked [self]) otherwise. *)
Theorem insert_always_lists_primary_user (args : CreateEventInput) (p : InsertParams TimeObject) :
  In (EventsInsert _ p) (trace (createEvent args)) ->
  exists (pe : option string) (l : list Attendee),
    tokenInfoEmail _ _ svc = inr pe /\
    rb_attendees _ (ins_requestBody _ p) = Some l /\
    (exists a, In a l /\ sameEmail (email a) pe = true) /\
    let given := orArray (attendees args) [] in
    (existsb (fun a => sameEmail (email a) pe) given = true -> l = given) /\
    (existsb (fun a => sameEmail (email a) pe) given = false ->
     l = (given ++ [{| email := pe; self := Some true |}])%list).
Proof.
  intros (tz & pe & _ & Hpe & ->)%createEvent_insert.
  exists pe, (attendeesFor args pe). split_and!; [done|done| |cbv zeta; split].
  - unfold CreateEventParts.attendeesFor.
    destruct (existsb _ _) eqn:E.
    + apply existsb_exists in E as (a & Hin & Ha). by exists a.
    + eexists. split; [apply in_or_app; right; by left|].
      cbn [email]. destruct pe; cbn [sameEmail]; [apply String.eqb_refl|done].
  - unfold CreateEventParts.attendeesFor. by intros ->.
  - unfold CreateEventParts.attendeesFor. by intros ->.
Qed.

(** X12.  Every insert asks for conference data to be processed
    ([conferenceDataVersion] is 1) and carries conference data: the
    conference of the arguments when it has a non-empty [conferenceId], and
    otherwise a request for a new Meet link whose request id is the custom
    event id, or the current time in milliseconds when there is none. *)
Theorem insert_always_carries_conference (args : CreateEventInput) (p : InsertParams TimeObject) :
  In (EventsInsert _ p) (trace (createEvent args)) ->
  ins_conferenceDataVersion _ p = 1 /\
  exists c, rb_conferenceData _ (ins_requestBody _ p) = Some c /\
    (forall cd, conferenceData args = Some cd -> truthyId (conferenceId cd) = true ->
       c = ExistingConference cd) /\
    ((conferenceData args = None \/
      exists cd, conferenceData args = Some cd /\ truthyId (conferenceId cd) = false) ->
     c = CreateRequest (match orString (eventId args) with
                        | Some i => i
                        | None => showZ (dateNow _ _ svc)
                        end) "hangoutsMeet").
Proof.
  intros (tz & pe & _ & _ & ->)%createEvent_insert.
  split; [done|]. exists (conferenceFor args). split; [done|].
  unfold CreateEventParts.conferenceFor. split.
  - by intros cd -> ->.
  - intros [->|(cd & -> & ->)]; by destruct (orString (eventId args)).
Qed.

(** [runTool], step by step. *)
Lemma runTool_run args :
  run (runTool args)
  = match timezoneAnswer args with
    | inl e => (inl (Raised e), timezoneCalls args)
    | inr tz =>
        let pre := (timezoneCalls args ++ [checkCall args tz])%list in
        let proceed :=
          fun rep =>
            match createEvent args pre with
            | (inr ev, tr) => (inr {| created := ev; report := rep |}, tr)
            | (inl t, tr) => (inl t, tr)
            end in
        match checkConflicts _ _ svc (eventToCheck args tz) (calendarId args)
                (detectionOptions args) with
        | inl e => (inl (Raised e), pre)
        | inr rep =>
            match List.find isBlocking (duplicates rep) with
            | Some dup =>
                if notTrue (allowDuplicates args)
                then (inl (DuplicateDetected (duplicateMessage dup)), pre)
                else proceed rep
            | None => proceed rep
            end
        end
    end.
Proof.
  unfold run, CreateEvent.runTool, bind at 1. rewrite resolveTimezone_run. cbn [app].
  destruct (timezoneAnswer args) as [e|tz]; [done|].
  cbv zeta. unfold bind at 1, ask, call, CreateEventParts.checkCall.
  destruct (checkConflicts _ _ svc _ _ _) as [e|rep]; [done|].
  unfold bind at 1.
  destruct (List.find isBlocking (duplicates rep)) as [dup|];
    [destruct (notTrue (allowDuplicates args)); [done|]|];
    unfold ret at 1; unfold bind, ret;
    by destruct (createEvent args _) as [[t|ev] tr].
Qed.

Lemma outcome_resolveTimezone args :
  outcome (resolveTimezone args)
  = match timezoneAnswer args with inl e => inl (Raised e) | inr tz => inr tz end.
Proof. unfold outcome, run. by rewrite resolveTimezone_run. Qed.

Lemma trace_resolveTimezone args : trace (resolveTimezone args) = timezoneCalls args.
Proof. unfold trace, run. by rewrite resolveTimezone_run. Qed.

Lemma resolved_timezone args tz :
  outcome (resolveTimezone args) = inr tz -> timezoneAnswer args = inr tz.
Proof.
  rewrite outcome_resolveTimezone. destruct (timezoneAnswer args); congruence.
Qed.

Lemma is409_newError msg : is409 (newError msg) = false.
Proof. done. Qed.

(** X13.  Whatever goes wrong inside [createEvent], the caller never sees
    the error as it was raised: the error thrown is built by the [catch]
    clause from the error of the step that failed (the validation of the
    id, the time-zone lookup, the token lookup, the insert, or the missing
    response data).  For status 409 it is the id-clash error, whose message
    quotes the custom id; any other error goes through
    [handleGoogleApiError]. *)
Theorem createEvent_errors_are_rebuilt (args : CreateEventInput) (t : Thrown) :
  outcome (createEvent args) = inl t ->
  exists e : Exn,
    ((truthyId (eventId args) = true /\
      validateEventId _ _ svc (default "" (eventId args)) = inl e) \/
     (orString (timeZone args) = None /\
      getCalendarTimezone _ _ svc (calendarId args) = inl e) \/
     tokenInfoEmail _ _ svc = inl e \/
     (exists p, In (EventsInsert _ p) (trace (createEvent args)) /\
                eventsInsert _ _ svc p = inl e) \/
     (exists p, In (EventsInsert _ p) (trace (createEvent args)) /\
                eventsInsert _ _ svc p = inr None /\
                e = newError "Failed to create event, no data returned")) /\
    t = (if is409 e
         then EventIdExists ("Event ID '" +:+ showOpt (eventId args) +:+
                             "' already exists. Please use a different ID.")
         else ApiError (handleGoogleApiError _ _ svc e)).
Proof.
  unfold outcome, trace, run. rewrite createEvent_run. cbn [app].
  unfold CreateEventParts.beforeInsert, CreateEventParts.validationAnswer,
    CreateEventParts.timezoneAnswer.
  destruct (truthyId (eventId args)) eqn:Hid.
  - destruct (validateEventId _ _ svc _) as [e|[]] eqn:Hv.
    { intros [= <-]. exists e. split; [by left|done]. }
    destruct (orString (timeZone args)) eqn:Htz.
    + destruct (tokenInfoEmail _ _ svc) as [e|pe] eqn:Hpe.
      { intros [= <-]. exists e. split; [by right; right; left|done]. }
      cbn [fst snd]. destruct (eventsInsert _ _ svc _) as [e|[ev|]] eqn:Hins; intros [= <-].
      * exists e. split; [|done]. do 3 right. left. eexists. split; [|exact Hins].
        apply in_or_app. right. by left.
      * eexists. split; [|done]. do 4 right. eexists. split_and!; [|exact Hins|done].
        apply in_or_app. right. by left.
    + destruct (getCalendarTimezone _ _ svc _) as [e|tz] eqn:Hg.
      { intros [= <-]. exists e. split; [by right; left|done]. }
      destruct (tokenInfoEmail _ _ svc) as [e|pe] eqn:Hpe.
      { intros [= <-]. exists e. split; [by right; right; left|done]. }
      cbn [fst snd]. destruct (eventsInsert _ _ svc _) as [e|[ev|]] eqn:Hins; intros [= <-].
      * exists e. split; [|done]. do 3 right. left. eexists. split; [|exact Hins].
        apply in_or_app. right. by left.
      * eexists. split; [|done]. do 4 right. eexists. split_and!; [|exact Hins|done].
        apply in_or_app. right. by left.
  - destruct (orString (timeZone args)) eqn:Htz.
    + destruct (tokenInfoEmail _ _ svc) as [e|pe] eqn:Hpe.
      { intros [= <-]. exists e. split; [by right; right; left|done]. }
      cbn [fst snd]. destruct (eventsInsert _ _ svc _) as [e|[ev|]] eqn:Hins; intros [= <-].
      * exists e. split; [|done]. do 3 right. left. eexists. split; [|exact Hins].
        apply in_or_app. right. by left.
      * eexists. split; [|done]. do 4 right. eexists. split_and!; [|exact Hins|done].
        apply in_or_app. right. by left.
    + destruct (getCalendarTimezone _ _ svc _) as [e|tz] eqn:Hg.
      { intros [= <-]. exists e. split; [by right; left|done]. }
      destruct (tokenInfoEmail _ _ svc) as [e|pe] eqn:Hpe.
      { intros [= <-]. exists e. split; [by right; right; left|done]. }
      cbn [fst snd]. destruct (eventsInsert _ _ svc _) as [e|[ev|]] eqn:Hins; intros [= <-].
      * exists e. split; [|done]. do 3 right. left. eexists. split; [|exact Hins].
        apply in_or_app. right. by left.
      * eexists. split; [|done]. do 4 right. eexists. split_and!; [|exact Hins|done].
        apply in_or_app. right. by left.
Qed.

(** The trace of [createEvent]: the calls before the insert, then the
    insert if the steps before it went through. *)
Lemma createEvent_trace args :
  trace (createEvent args)
  = (fst (beforeInsert args) ++
     match snd (beforeInsert args) with
     | inl _ => []
     | inr params => [EventsInsert _ params]
     end)%list.
Proof.
  unfold trace, run. rewrite createEvent_run.
  destruct (beforeInsert args) as [calls [e|params]]; cbn [fst snd app]; [|done].
  by rewrite app_nil_r.
Qed.

(** X14.  [createEvent] writes at most once, and the write is its last
    call; an event is returned only as the data of the answer to that
    write. *)
Theorem createEvent_writes_once_at_the_end (args : CreateEventInput) :
  (exists pre,
     Forall (fun c => ~ isInsert c) pre /\
     (trace (createEvent args) = pre \/
      exists p, trace (createEvent args) = (pre ++ [EventsInsert _ p])%list)) /\
  (forall ev, outcome (createEvent args) = inr ev ->
     exists pre p,
       trace (createEvent args) = (pre ++ [EventsInsert _ p])%list /\
       Forall (fun c => ~ isInsert c) pre /\
       eventsInsert _ _ svc p = inr (Some ev)).
Proof.
  pose proof (beforeInsert_no_insert args) as Hno.
  split.
  - exists (fst (beforeInsert args)). split; [done|].
    rewrite createEvent_trace.
    destruct (snd (beforeInsert args)) as [e|params]; [left|right].
    + by rewrite app_nil_r.
    + by exists params.
  - intros ev. rewrite createEvent_trace. unfold outcome, run.
    rewrite createEvent_run. cbn [app].
    destruct (beforeInsert args) as [calls [e|params]]; cbn [fst snd] in *; [done|].
    destruct (eventsInsert _ _ svc params) as [e|[ev'|]] eqn:Hins; intros [= <-].
    by exists calls, params.
Qed.

(** X15.  When the insert answers without data, the error "Failed to
    create event, no data returned" does not reach the caller as thrown: it
    is caught by the handler's own [catch] clause and handed to
    [handleGoogleApiError]; the insert has been made by then. *)
Theorem missing_data_goes_through_error_handler
    (args : CreateEventInput) (p : InsertParams TimeObject) :
  In (EventsInsert _ p) (trace (createEvent args)) ->
  eventsInsert _ _ svc p = inr None ->
  outcome (createEvent args)
  = inl (ApiError (handleGoogleApiError _ _ svc
                     (newError "Failed to create event, no data returned"))).
Proof.
  rewrite createEvent_trace. unfold outcome, run. rewrite createEvent_run.
  pose proof (beforeInsert_no_insert args) as Hno.
  destruct (beforeInsert args) as [calls [e|params]]; cbn [fst snd] in *.
  - rewrite app_nil_r. intros Hin.
    by apply (proj1 (List.Forall_forall _ _) Hno) in Hin.
  - intros [Hin|[Hin|[]]]%in_app_or.
    + by apply (proj1 (List.Forall_forall _ _) Hno) in Hin.
    + injection Hin as ->. by intros ->.
Qed.

(** X16.  An invalid custom event id is found out only after the conflict
    check has been made: when the check lets the creation proceed, [runTool]
    makes the time-zone lookup (if any) and the conflict check, then asks
    for the validation of the id, and stops there with the error that the
    [catch] clause of [createEvent] builds from the validation error. *)
Theorem invalid_event_id_found_after_conflict_check
    (args : CreateEventInput) (tz : string) (rep : ConflictCheckResult) (e : Exn) :
  outcome (resolveTimezone args) = inr tz ->
  checkConflicts _ _ svc (eventToCheck args tz) (calendarId args) (detectionOptions args)
    = inr rep ->
  (List.find isBlocking (duplicates rep) = None \/ allowDuplicates args = Some true) ->
  truthyId (eventId args) = true ->
  validateEventId _ _ svc (default "" (eventId args)) = inl e ->
  trace (runTool args)
  = (trace (resolveTimezone args) ++
     [CheckConflicts _ (eventToCheck args tz) (calendarId args) (detectionOptions args);
      ValidateEventId _ (default "" (eventId args))])%list /\
  outcome (runTool args)
  = inl (if is409 e
         then EventIdExists ("Event ID '" +:+ showOpt (eventId args) +:+
                             "' already exists. Please use a different ID.")
         else ApiError (handleGoogleApiError _ _ svc e)).
Proof.
  intros Htz%resolved_timezone Hrep Hgo Hid Hv.
  rewrite trace_resolveTimezone. unfold trace, outcome. rewrite runTool_run.
  rewrite Htz. cbv zeta. rewrite Hrep.
  assert (Hcreate : createEvent args (timezoneCalls args ++ [checkCall args tz])%list
                    = (inl (rethrown args e),
                       ((timezoneCalls args ++ [checkCall args tz]) ++
                        [ValidateEventId _ (default "" (eventId args))])%list)).
  { rewrite createEvent_run.
    unfold CreateEventParts.beforeInsert, CreateEventParts.validationAnswer,
      CreateEventParts.validationCalls.
    by rewrite Hid, Hv. }
  assert (Hnot : notTrue (allowDuplicates args) = false \/
                 List.find isBlocking (duplicates rep) = None).
  { destruct Hgo as [Hgo|Hgo]; [by right|left; by rewrite Hgo]. }
  rewrite Hcreate.
  assert (Hshape : ((timezoneCalls args ++ [checkCall args tz]) ++
                    [ValidateEventId _ (default "" (eventId args))])%list
                   = (timezoneCalls args ++
                      [CheckConflicts _ (eventToCheck args tz) (calendarId args)
                         (detectionOptions args);
                       ValidateEventId _ (default "" (eventId args))])%list).
  { by rewrite <- app_assoc. }
  rewrite Hshape.
  destruct (List.find isBlocking (duplicates rep)) as [dup|].
  - destruct Hnot as [->|]; [|done]. done.
  - done.
Qed.

(** The calls of a run of [runTool] that goes through to the insert. *)
Lemma runTool_success args r :
  outcome (runTool args) = inr r ->
  exists tz p,
    timezoneAnswer args = inr tz /\
    checkConflicts _ _ svc (eventToCheck args tz) (calendarId args) (detectionOptions args)
      = inr (report _ r) /\
    (List.find isBlocking (duplicates (report _ r)) = None \/
     allowDuplicates args = Some true) /\
    snd (beforeInsert args) = inr p /\
    eventsInsert _ _ svc p = inr (Some (created _ r)) /\
    trace (runTool args)
    = (timezoneCalls args ++ [checkCall args tz] ++ fst (beforeInsert args) ++
       [EventsInsert _ p])%list.
Proof.
  unfold outcome, trace. rewrite runTool_run.
  destruct (timezoneAnswer args) as [e|tz]; [done|]. cbv zeta.
  destruct (checkConflicts _ _ svc _ _ _) as [e|rep] eqn:Hrep; [done|].
  rewrite createEvent_run.
  destruct (beforeInsert args) as [calls [e0|params]] eqn:Hb; cbn [fst snd].
  - destruct (List.find isBlocking (duplicates rep)) as [dup|];
      [destruct (notTrue (allowDuplicates args))|]; done.
  - destruct (eventsInsert _ _ svc params) as [e0|[ev|]] eqn:Hins.
    + destruct (List.find isBlocking (duplicates rep)) as [dup|];
        [destruct (notTrue (allowDuplicates args))|]; done.
    + destruct (List.find isBlocking (duplicates rep)) as [dup|] eqn:Hfind;
        [destruct (notTrue (allowDuplicates args)) eqn:Hnt; [done|]|];
        cbn [fst snd]; intros [= <-]; exists tz, params; cbn [report created];
        rewrite <- ?app_assoc; split_and!; try done.
      * right. by destruct (allowDuplicates args) as [[]|].
      * by left.
    + destruct (List.find isBlocking (duplicates rep)) as [dup|];
        [destruct (notTrue (allowDuplicates args))|]; done.
Qed.

Lemma filter_timezoneCalls_validation args :
  List.filter (isTimezoneLookup TimeObject) (validationCalls args) = [].
Proof. unfold CreateEventParts.validationCalls. by destruct (truthyId _). Qed.

(** X17.  A time zone in the arguments means that the calendar's zone is
    never looked up.  Without one, a run that creates the event looks it up
    twice for the same calendar: once in [runTool] for the conflict check
    and once more in [createEvent]. *)
Theorem calendar_timezone_looked_up_twice (args : CreateEventInput) :
  (orString (timeZone args) <> None ->
   List.filter (isTimezoneLookup TimeObject) (trace (runTool args)) = []) /\
  (orString (timeZone args) = None ->
   forall r, outcome (runTool args) = inr r ->
     List.filter (isTimezoneLookup TimeObject) (trace (runTool args))
     = [GetCalendarTimezone _ (calendarId args); GetCalendarTimezone _ (calendarId args)]).
Proof.
  split.
  - intros Htz.
    assert (Hnone : timezoneCalls args = []).
    { unfold CreateEventParts.timezoneCalls. by destruct (orString (timeZone args)). }
    assert (Hans : exists tz, timezoneAnswer args = inr tz).
    { unfold CreateEventParts.timezoneAnswer.
      destruct (orString (timeZone args)) as [tz|]; [by exists tz|done]. }
    destruct Hans as [tz Hans].
    assert (Hb : List.filter (isTimezoneLookup TimeObject) (fst (beforeInsert args)) = []).
    { unfold CreateEventParts.beforeInsert. rewrite Hans, Hnone.
      destruct (validationAnswer args); cbn [fst];
        [apply filter_timezoneCalls_validation|].
      destruct (tokenInfoEmail _ _ svc); cbn [fst];
        rewrite List.filter_app, filter_timezoneCalls_validation; done. }
    unfold trace. rewrite runTool_run, Hans, Hnone. cbv zeta. cbn [app].
    pose proof (createEvent_run args [checkCall args tz]) as Hc.
    destruct (checkConflicts _ _ svc _ _ _) as [e|rep]; [done|].
    assert (Hgo : List.filter (isTimezoneLookup TimeObject)
                    (snd (match createEvent args [checkCall args tz] with
                          | (inr ev, tr) => (inr {| created := ev; report := rep |}, tr)
                          | (inl t, tr) => (inl t, tr)
                          end)) = []).
    { rewrite Hc. destruct (beforeInsert args) as [calls [e|params]]; cbn [fst snd] in *.
      - cbn [app List.filter isTimezoneLookup]. exact Hb.
      - destruct (eventsInsert _ _ svc params) as [e|[ev|]]; cbn [snd app List.filter isTimezoneLookup];
          rewrite List.filter_app, Hb; done. }
    destruct (List.find isBlocking (duplicates rep)) as [dup|];
      [destruct (notTrue (allowDuplicates args)); [done|]|]; exact Hgo.
  - intros Htz r (tz & p & Hans & _ & _ & Hp & _ & ->)%runTool_success.
    assert (Hcalls : timezoneCalls args = [GetCalendarTimezone _ (calendarId args)]).
    { unfold CreateEventParts.timezoneCalls. by rewrite Htz. }
    assert (Hb : fst (beforeInsert args)
                 = (validationCalls args ++ timezoneCalls args ++ [GetTokenInfo _])%list).
    { unfold CreateEventParts.beforeInsert in *.
      destruct (validationAnswer args); [done|].
      destruct (timezoneAnswer args); [done|].
      by destruct (tokenInfoEmail _ _ svc). }
    rewrite Hb, Hcalls.
    rewrite !List.filter_app, filter_timezoneCalls_validation. done.
Qed.

(** X18.  A failure of the time-zone lookup or of the conflict check in
    [runTool] reaches the caller as it was raised, not through
    [handleGoogleApiError], and ends the run: nothing is asked of the
    calendar after the call that failed. *)
Theorem detection_failure_is_rethrown_as_is (args : CreateEventInput) (e : Exn) :
  (orString (timeZone args) = None ->
   getCalendarTimezone _ _ svc (calendarId args) = inl e ->
   outcome (runTool args) = inl (Raised e) /\
   trace (runTool args) = [GetCalendarTimezone _ (calendarId args)]) /\
  (forall tz,
     outcome (resolveTimezone args) = inr tz ->
     checkConflicts _ _ svc (eventToCheck args tz) (calendarId args) (detectionOptions args)
       = inl e ->
     outcome (runTool args) = inl (Raised e) /\
     trace (runTool args)
     = (trace (resolveTimezone args) ++
        [CheckConflicts _ (eventToCheck args tz) (calendarId args)
           (detectionOptions args)])%list).
Proof.
  split.
  - intros Htz He. unfold outcome, trace. rewrite runTool_run.
    unfold CreateEventParts.timezoneAnswer, CreateEventParts.timezoneCalls.
    by rewrite Htz, He.
  - intros tz Htz%resolved_timezone He. rewrite trace_resolveTimezone.
    unfold outcome, trace. rewrite runTool_run, Htz. cbv zeta. by rewrite He.
Qed.

(** X19.  When [runTool] returns, the report in its answer is the one that
    the detection service gave for the event and the options of the
    request; a duplicate at or above the blocking threshold can be in it
    only if [allowDuplicates] is [true].  The event in the answer is the
    data of the answer to the insert, which is the last call of the run and
    its only write, and the conflict check was made before it. *)
Theorem success_carries_report_and_created_event
    (args : CreateEventInput) (r : CreateEventResponse Event) :
  outcome (runTool args) = inr r ->
  exists tz p pre,
    outcome (resolveTimezone args) = inr tz /\
    checkConflicts _ _ svc (eventToCheck args tz) (calendarId args) (detectionOptions args)
      = inr (report _ r) /\
    (forall d, In d (duplicates (report _ r)) -> (BLOCKING <= similarity (event d))%Q ->
       allowDuplicates args = Some true) /\
    eventsInsert _ _ svc p = inr (Some (created _ r)) /\
    trace (runTool args) = (pre ++ [EventsInsert _ p])%list /\
    Forall (fun c => ~ isInsert c) pre /\
    In (CheckConflicts _ (eventToCheck args tz) (calendarId args) (detectionOptions args))
       pre.
Proof.
  intros (tz & p & Hans & Hrep & Hgo & Hp & Hins & Htr)%runTool_success.
  exists tz, p, (timezoneCalls args ++ [checkCall args tz] ++ fst (beforeInsert args))%list.
  split_and!.
  - rewrite outcome_resolveTimezone. by rewrite Hans.
  - done.
  - intros d Hin Hd. destruct Hgo as [Hnone|Hallow]; [|done].
    assert (Hex : exists dup, List.find isBlocking (duplicates (report _ r)) = Some dup).
    { apply find_blocking_exists. by exists d. }
    destruct Hex as [dup Hdup]. congruence.
  - done.
  - rewrite Htr. by rewrite <- !app_assoc.
  - apply List.Forall_app. split.
    + unfold CreateEventParts.timezoneCalls.
      destruct (orString _); [|constructor; [by intros []|]]; constructor.
    + constructor; [by intros []|]. apply beforeInsert_no_insert.
  - apply in_or_app. right. by left.
Qed.

End Handler.

Lemma insert_always_lists_primary_user_witness :
  let p := insertParams _ pair _ Samples.answering Samples.teamSync "UTC"
             (Some "owner@example.com") in
  In (EventsInsert _ p) (trace (createEvent _ pair _ Samples.answering Samples.teamSync)) /\
  exists l,
    rb_attendees _ (ins_requestBody _ p) = Some l /\
    exists a, In a l /\ sameEmail (email a) (Some "owner@example.com") = true.
Proof.
  cbv zeta.
  assert (Hin : In (EventsInsert _ (insertParams _ pair _ Samples.answering Samples.teamSync
                                      "UTC" (Some "owner@example.com")))
                   (trace (createEvent _ pair _ Samples.answering Samples.teamSync))).
  { right. left. reflexivity. }
  split; [exact Hin|].
  destruct (insert_always_lists_primary_user _ pair _ Samples.answering _ _ Hin)
    as (pe & l & Hpe & Hl & Ha & _).
  injection Hpe as <-. exists l. split; [exact Hl|exact Ha].
Defined.

Lemma insert_always_carries_conference_witness :
  let p := insertParams _ pair _ Samples.answering Samples.teamSync "UTC"
             (Some "owner@example.com") in
  In (EventsInsert _ p) (trace (createEvent _ pair _ Samples.answering Samples.teamSync)) /\
  ins_conferenceDataVersion _ p = 1 /\
  rb_conferenceData _ (ins_requestBody _ p)
  = Some (CreateRequest "1705312800000" "hangoutsMeet").
Proof.
  cbv zeta.
  assert (Hin : In (EventsInsert _ (insertParams _ pair _ Samples.answering Samples.teamSync
                                      "UTC" (Some "owner@example.com")))
                   (trace (createEvent _ pair _ Samples.answering Samples.teamSync))).
  { right. left. reflexivity. }
  split; [exact Hin|].
  destruct (insert_always_carries_conference _ pair _ Samples.answering _ _ Hin)
    as (Hv & c & Hc & _ & Hnew).
  split; [exact Hv|]. rewrite Hc, Hnew; [reflexivity|by left].
Defined.

Lemma createEvent_errors_are_rebuilt_witness :
  let svc := SamplesMore.answeringWith (inr Samples.syncReport) (inr tt)
               (inl SamplesMore.conflict409) in
  let t := EventIdExists "Event ID 'standup01' already exists. Please use a different ID." in
  outcome (createEvent _ pair _ svc SamplesMore.standup) = inl t /\
  exists e : Exn,
    t = (if is409 e
         then EventIdExists "Event ID 'standup01' already exists. Please use a different ID."
         else ApiError (handleGoogleApiError _ _ svc e)).
Proof.
  cbv zeta. split; [reflexivity|].
  destruct (createEvent_errors_are_rebuilt _ pair _
              (SamplesMore.answeringWith (inr Samples.syncReport) (inr tt)
                 (inl SamplesMore.conflict409))
              SamplesMore.standup _ eq_refl) as (e & _ & He).
  exists e. exact He.
Defined.

Lemma missing_data_goes_through_error_handler_witness :
  let svc := SamplesMore.answeringWith (inr Samples.syncReport) (inr tt) (inr None) in
  let p := insertParams _ pair _ svc SamplesMore.standup "Europe/Paris"
             (Some "owner@example.com") in
  (In (EventsInsert _ p) (trace (createEvent _ pair _ svc SamplesMore.standup)) /\
   eventsInsert _ _ svc p = inr None) /\
  outcome (createEvent _ pair _ svc SamplesMore.standup)
  = inl (ApiError (newError "Google API error: Failed to create event, no data returned")).
Proof.
  cbv zeta.
  assert (Hin : In (EventsInsert _
                      (insertParams _ pair _
                         (SamplesMore.answeringWith (inr Samples.syncReport) (inr tt) (inr None))
                         SamplesMore.standup "Europe/Paris" (Some "owner@example.com")))
                   (trace (createEvent _ pair _
                             (SamplesMore.answeringWith (inr Samples.syncReport) (inr tt)
                                (inr None))
                             SamplesMore.standup))).
  { do 3 right. left. reflexivity. }
  split; [split; [exact Hin|reflexivity]|].
  rewrite (missing_data_goes_through_error_handler _ pair _ _ _ _ Hin eq_refl).
  reflexivity.
Defined.

Lemma invalid_event_id_found_after_conflict_check_witness :
  let svc := SamplesMore.answeringWith (inr Samples.syncReport)
               (inl (newError "Invalid event ID")) (inr (Some "created")) in
  let args := SamplesMore.standup in
  (outcome (resolveTimezone _ _ svc args) = inr "Europe/Paris" /\
   allowDuplicates args = Some true /\
   truthyId (eventId args) = true) /\
  trace (runTool _ pair _ svc args)
  = [GetCalendarTimezone _ "primary";
     CheckConflicts _ (eventToCheck _ pair args "Europe/Paris") "primary"
       (detectionOptions args);
     ValidateEventId _ "standup01"].
Proof.
  cbv zeta. split; [by split_and!|].
  destruct (invalid_event_id_found_after_conflict_check _ pair _
              (SamplesMore.answeringWith (inr Samples.syncReport)
                 (inl (newError "Invalid event ID")) (inr (Some "created")))
              SamplesMore.standup "Europe/Paris" Samples.syncReport
              (newError "Invalid event ID") eq_refl eq_refl (or_intror eq_refl)
              eq_refl eq_refl) as [Htr _].
  rewrite Htr. reflexivity.
Defined.

Lemma calendar_timezone_looked_up_twice_witness :
  let svc := SamplesMore.answeringWith (inr Samples.syncReport) (inr tt)
               (inr (Some "created")) in
  let args := SamplesMore.standup in
  (orString (timeZone args) = None /\
   outcome (runTool _ pair _ svc args)
   = inr {| created := "created"; report := Samples.syncReport |}) /\
  List.filter (isTimezoneLookup _) (trace (runTool _ pair _ svc args))
  = [GetCalendarTimezone _ "primary"; GetCalendarTimezone _ "primary"].
Proof.
  cbv zeta. split; [by split|].
  apply (proj2 (calendar_timezone_looked_up_twice _ pair _
                  (SamplesMore.answeringWith (inr Samples.syncReport) (inr tt)
                     (inr (Some "created")))
                  SamplesMore.standup) eq_refl
               {| created := "created"; report := Samples.syncReport |} eq_refl).
Defined.

Lemma detection_failure_is_rethrown_as_is_witness :
  let svc := SamplesMore.answeringWith (inl (newError "Service unavailable")) (inr tt)
               (inr (Some "created")) in
  let args := SamplesMore.standup in
  outcome (resolveTimezone _ _ svc args) = inr "Europe/Paris" /\
  outcome (runTool _ pair _ svc args) = inl (Raised (newError "Service unavailable")).
Proof.
  cbv zeta. split; [reflexivity|].
  apply (proj2 (detection_failure_is_rethrown_as_is _ pair _
                  (SamplesMore.answeringWith (inl (newError "Service unavailable")) (inr tt)
                     (inr (Some "created")))
                  SamplesMore.standup (newError "Service unavailable"))
               "Europe/Paris" eq_refl eq_refl).
Defined.

Lemma success_carries_report_and_created_event_witness :
  let svc := SamplesMore.answeringWith (inr Samples.syncReport) (inr tt)
               (inr (Some "created")) in
  let args := SamplesMore.standup in
  outcome (runTool _ pair _ svc args)
  = inr {| created := "created"; report := Samples.syncReport |} /\
  exists p pre,
    eventsInsert _ _ svc p = inr (Some "created") /\
    trace (runTool _ pair _ svc args) = (pre ++ [EventsInsert _ p])%list.
Proof.
  cbv zeta. split; [reflexivity|].
  destruct (success_carries_report_and_created_event _ pair _
              (SamplesMore.answeringWith (inr Samples.syncReport) (inr tt)
                 (inr (Some "created")))
              SamplesMore.standup
              {| created := "created"; report := Samples.syncReport |} eq_refl)
    as (tz & p & pre & _ & _ & _ & Hins & Htr & _).
  exists p, pre. split; [exact Hins|exact Htr].
Defined.

End CreateEventMore.

(** ** More on the dispatcher *)

Module ServerMore.
Import JsString Eff Eff.Notations Server ServerParts ServerSpec.

Section Dispatcher.
Variable Result : Type.
Variable JSON_parse : string -> option JSValue.
Variable toStringOf : JSValue -> option JSValue.
Variable Number_ : JSValue -> JSValue.
Variable initializeOAuth2Client : string + OAuth2Client.
Variable runTool : gmap string JSValue -> OAuth2Client -> string + Result.

Abbreviation executeWithHandler :=
  (executeWithHandler Result JSON_parse toStringOf Number_ initializeOAuth2Client runTool).
Abbreviation credentialsOf := (credentialsOf JSON_parse toStringOf Number_).
Abbreviation parseTokens := (parseTokens JSON_parse toStringOf).
Abbreviation reparse := (reparse JSON_parse).

(** The first two variables after the [try] block are the tokens of the
    credentials. *)
Lemma credentialsOf_tokens (args : gmap string JSValue) access refresh expiry failed :
  parseTokens (field args "access_token") (field args "refresh_token")
              (field args "expiry_date") = (access, refresh, expiry, failed) ->
  credentialsOf args
  = {| access_token := access; refresh_token := refresh;
       expiry_date := expiryOf Number_ expiry |}.
Proof. unfold Server.credentialsOf. by intros ->. Qed.

Lemma reparse_plain read v : looksLikeJson v = None -> reparse read v = Some v.
Proof. unfold Server.reparse. by intros ->. Qed.

(** X20.  A request is refused when, after the unwrapping of the tokens,
    the access token or the refresh token is falsy: the dispatcher throws the
    [InvalidRequest] error that asks for both tokens, and apart from its
    lines on stderr nothing has happened: no client was built and the handler
    was not called.  A request that lacks one of the two fields is such a
    request. *)
Theorem request_without_both_tokens_is_refused (args : gmap string JSValue) :
  (truthy (access_token (credentialsOf args)) = false \/
   truthy (refresh_token (credentialsOf args)) = false ->
   outcome (executeWithHandler args) = inl (McpError "InvalidRequest" authRequired) /\
   Forall isStderr (trace (executeWithHandler args))) /\
  (args !! "access_token" = None \/ args !! "refresh_token" = None ->
   truthy (access_token (credentialsOf args)) = false \/
   truthy (refresh_token (credentialsOf args)) = false).
Proof.
  split.
  - destruct (executeWithHandler_run Result JSON_parse toStringOf Number_
              initializeOAuth2Client runTool args)
      as (access & refresh & expiry & failed & Hparse & Hrun).
    rewrite (credentialsOf_tokens _ _ _ _ _ Hparse). cbn [access_token refresh_token].
    intros Hfalsy. unfold outcome, trace. cbv zeta in Hrun. rewrite Hrun.
    assert (Hor : negb (truthy access) || negb (truthy refresh) = true).
    { destruct Hfalsy as [->| ->]; [done|]. by rewrite orb_true_r. }
    rewrite Hor. cbn [fst snd]. split; [done|].
    constructor; [done|]. destruct failed; repeat constructor.
  - unfold Server.credentialsOf, Server.parseTokens, field.
    intros [Ha|Hr].
    + rewrite Ha. cbn [default]. rewrite (reparse_plain _ JUndefined eq_refl).
      left.
      destruct (reparse _ (default JUndefined (args !! "refresh_token"))) as [r'|];
        [destruct (reparse _ _) as [e'|]|]; done.
    + rewrite Hr. cbn [default].
      destruct (reparse _ (default JUndefined (args !! "access_token"))) as [a'|];
        [|by right].
      rewrite (reparse_plain _ JUndefined eq_refl).
      destruct (reparse _ _) as [e'|]; by right.
Qed.

(** X21.  Tokens that do not look like JSON (they are not strings that
    start with a brace) are used as given, whatever [JSON.parse] would make of
    them: the credentials hold the two tokens of the request and the number
    made of its expiry date, or no expiry date when that one is falsy, and no
    parse failure is reported. *)
Theorem plain_tokens_are_used_as_given (args : gmap string JSValue) :
  looksLikeJson (field args "access_token") = None ->
  looksLikeJson (field args "refresh_token") = None ->
  looksLikeJson (field args "expiry_date") = None ->
  credentialsOf args
  = {| access_token := field args "access_token";
       refresh_token := field args "refresh_token";
       expiry_date := expiryOf Number_ (field args "expiry_date") |} /\
  ~ In StderrParseFailure (trace (executeWithHandler args)).
Proof.
  intros Ha Hr He.
  assert (Hparse : parseTokens (field args "access_token") (field args "refresh_token")
                     (field args "expiry_date")
                   = (field args "access_token", field args "refresh_token",
                      field args "expiry_date", false)).
  { unfold Server.parseTokens. by rewrite !reparse_plain. }
  split; [by apply credentialsOf_tokens in Hparse|].
  destruct (executeWithHandler_run Result JSON_parse toStringOf Number_
              initializeOAuth2Client runTool args)
    as (access & refresh & expiry & failed & Hparse' & Hrun).
  rewrite Hparse in Hparse'. injection Hparse' as <- <- <- <-.
  unfold trace. cbv zeta in Hrun. rewrite Hrun.
  destruct (negb _ || negb _); cbn [snd].
  - by intros [|[]].
  - destruct initializeOAuth2Client; cbn [snd app]; intros Hin;
      repeat (destruct Hin as [Hin|Hin]; [discriminate Hin|]); done.
Qed.

(** X22.  An access token that looks like JSON but cannot be unwrapped is
    used verbatim.  If [JSON.parse] throws on it, the failure is reported on
    stderr and all three credentials keep the values of the request, also a
    refresh token that could have been unwrapped; if it parses to an object
    that does not report success, the access token keeps its value and no
    failure is reported for it.  Either way the text of the access token is
    truthy, so the request is not refused on its account. *)
Theorem token_that_cannot_be_unwrapped_is_used_verbatim
    (args : gmap string JSValue) (text : string) :
  field args "access_token" = JString text ->
  startsWith "{" text = true ->
  (JSON_parse text = None ->
   credentialsOf args
   = {| access_token := JString text;
        refresh_token := field args "refresh_token";
        expiry_date := expiryOf Number_ (field args "expiry_date") |} /\
   In StderrParseFailure (trace (executeWithHandler args))) /\
  (forall parsed,
     JSON_parse text = Some parsed -> googleTokens parsed = Some None ->
     access_token (credentialsOf args) = JString text) /\
  truthy (JString text) = true.
Proof.
  intros Ha Hbrace.
  assert (Hlooks : looksLikeJson (JString text) = Some text).
  { unfold looksLikeJson. by rewrite Hbrace. }
  split_and!.
  - intros Hthrow.
    assert (Hparse : parseTokens (field args "access_token") (field args "refresh_token")
                       (field args "expiry_date")
                     = (JString text, field args "refresh_token",
                        field args "expiry_date", true)).
    { unfold Server.parseTokens, Server.reparse. rewrite Ha, Hlooks, Hthrow. done. }
    split; [by apply credentialsOf_tokens in Hparse|].
    destruct (executeWithHandler_run Result JSON_parse toStringOf Number_
              initializeOAuth2Client runTool args)
      as (access & refresh & expiry & failed & Hparse' & Hrun).
    rewrite Hparse in Hparse'. injection Hparse' as <- <- <- <-.
    unfold trace. cbv zeta in Hrun. rewrite Hrun.
    destruct (negb _ || negb _); cbn [snd]; [right; by left|].
    destruct initializeOAuth2Client; cbn [snd app]; right; by left.
  - intros parsed Hp Hg. unfold Server.credentialsOf, Server.parseTokens.
    assert (Hre : reparse (fun g => getProp g "access_token") (field args "access_token")
                  = Some (JString text)).
    { unfold Server.reparse. rewrite Ha, Hlooks, Hp. cbn. by rewrite Hg. }
    rewrite Hre.
    destruct (reparse _ (field args "refresh_token")) as [r'|];
      [destruct (reparse _ (field args "expiry_date")) as [e'|]|]; reflexivity.
  - destruct text; [done|done].
Qed.

(** X23.  A request that gives the answer of the token service as the text
    of each of its three credentials is unwrapped: when the text parses to an
    object that reports success and holds the tokens of Google, the
    credentials are the [access_token] and the [refresh_token] of those
    tokens, and the expiry date is the number made of the text of their
    [expires_at], or none when there is no [expires_at]. *)
Theorem wrapped_tokens_are_unwrapped
    (args : gmap string JSValue) (text : string) (parsed : JSValue)
    (google : gmap string JSValue) :
  field args "access_token" = JString text ->
  field args "refresh_token" = JString text ->
  field args "expiry_date" = JString text ->
  startsWith "{" text = true ->
  JSON_parse text = Some parsed ->
  googleTokens parsed = Some (Some (JObject google)) ->
  (forall e, google !! "expires_at" = Some e -> e <> JUndefined -> e <> JNull ->
     exists shown, toStringOf e = Some shown) ->
  access_token (credentialsOf args) = default JUndefined (google !! "access_token") /\
  refresh_token (credentialsOf args) = default JUndefined (google !! "refresh_token") /\
  expiry_date (credentialsOf args)
  = match google !! "expires_at" with
    | None | Some JUndefined | Some JNull => JUndefined
    | Some e => expiryOf Number_ (default JUndefined (toStringOf e))
    end /\
  ~ In StderrParseFailure (trace (executeWithHandler args)).
Proof.
  intros Ha Hr He Hbrace Hp Hg Hshow.
  assert (Hlooks : looksLikeJson (JString text) = Some text).
  { unfold looksLikeJson. by rewrite Hbrace. }
  assert (Hre : forall read, reparse read (JString text) = read (JObject google)).
  { intros read. unfold Server.reparse. rewrite Hlooks, Hp. cbn. by rewrite Hg. }
  assert (Hexp : exists e', readExpiresAt toStringOf (JObject google) = Some e' /\
                   expiryOf Number_ e'
                   = match google !! "expires_at" with
                     | None | Some JUndefined | Some JNull => JUndefined
                     | Some e => expiryOf Number_ (default JUndefined (toStringOf e))
                     end).
  { unfold readExpiresAt. cbn.
    destruct (google !! "expires_at") as [e|] eqn:E; cbn; [|by eexists].
    destruct e; try (by eexists);
      (edestruct (Hshow _ eq_refl) as [shown Hs]; [done|done|];
       rewrite Hs; by eexists). }
  destruct Hexp as (e' & Hread & Hof).
  assert (Hparse : parseTokens (field args "access_token") (field args "refresh_token")
                     (field args "expiry_date")
                   = (default JUndefined (google !! "access_token"),
                      default JUndefined (google !! "refresh_token"), e', false)).
  { unfold Server.parseTokens. rewrite Ha, Hr, He, !Hre. cbn [getProp]. by rewrite Hread. }
  rewrite (credentialsOf_tokens _ _ _ _ _ Hparse). cbn [access_token refresh_token expiry_date].
  split_and!; [done|done|done|].
  destruct (executeWithHandler_run Result JSON_parse toStringOf Number_
              initializeOAuth2Client runTool args)
    as (access & refresh & expiry & failed & Hparse' & Hrun).
  rewrite Hparse in Hparse'. injection Hparse' as <- <- <- <-.
  unfold trace. cbv zeta in Hrun. rewrite Hrun.
  destruct (negb _ || negb _); cbn [snd].
  - by intros [|[]].
  - destruct initializeOAuth2Client; cbn [snd app]; intros Hin;
      repeat (destruct Hin as [Hin|Hin]; [discriminate Hin|]); done.
Qed.

End Dispatcher.

Lemma plain_tokens_are_used_as_given_witness :
  let args := Samples.tokenRequest in
  (looksLikeJson (field args "access_token") = None /\
   looksLikeJson (field args "refresh_token") = None /\
   looksLikeJson (field args "expiry_date") = None) /\
  credentialsOf (fun _ => Some JNull) Some (fun v => v) args
  = {| access_token := JString "ya29.simple_access_token";
       refresh_token := JString "1//simple_refresh_token";
       expiry_date := JString "1763010691" |}.
Proof.
  cbv zeta. split; [by split_and!|].
  destruct (plain_tokens_are_used_as_given string (fun _ => Some JNull) Some (fun v => v)
              (inr Samples.freshClient) (fun _ _ => inr "success") Samples.tokenRequest
              eq_refl eq_refl eq_refl) as [Hc _].
  rewrite Hc. reflexivity.
Defined.

Lemma token_that_cannot_be_unwrapped_is_used_verbatim_witness :
  let args := SamplesServer.bracedRequest in
  (field args "access_token" = JString "{not json" /\
   startsWith "{" "{not json" = true) /\
  access_token (credentialsOf (fun _ => None) Some (fun v => v) args) = JString "{not json" /\
  In StderrParseFailure
     (trace (executeWithHandler string (fun _ => None) Some (fun v => v)
               (inr Samples.freshClient) (fun _ _ => inr "success") args)).
Proof.
  cbv zeta. split; [by split|].
  destruct (token_that_cannot_be_unwrapped_is_used_verbatim string (fun _ => None) Some
              (fun v => v) (inr Samples.freshClient) (fun _ _ => inr "success")
              SamplesServer.bracedRequest "{not json" eq_refl eq_refl) as ([Hc Hin] & _).
  { reflexivity. }
  split; [|exact Hin]. rewrite Hc. reflexivity.
Defined.

Lemma wrapped_tokens_are_unwrapped_witness :
  let args := SamplesServer.wrappedRequest in
  let parse := fun _ : string => Some SamplesServer.wrapped in
  (field args "access_token" = JString SamplesServer.wrappedText /\
   startsWith "{" SamplesServer.wrappedText = true) /\
  access_token (credentialsOf parse Some (fun v => v) args) = JString "ya29.inner" /\
  refresh_token (credentialsOf parse Some (fun v => v) args) = JString "1//inner" /\
  expiry_date (credentialsOf parse Some (fun v => v) args) = JNumber 1763010691.
Proof.
  cbv zeta. split; [by split|].
  destruct (wrapped_tokens_are_unwrapped string (fun _ => Some SamplesServer.wrapped) Some
              (fun v => v) (inr Samples.freshClient) (fun _ _ => inr "success")
              SamplesServer.wrappedRequest SamplesServer.wrappedText SamplesServer.wrapped
              (<["access_token" := JString "ya29.inner"]>
               (<["refresh_token" := JString "1//inner"]>
               (<["expires_at" := JNumber 1763010691]> ∅)))
              eq_refl eq_refl eq_refl eq_refl eq_refl eq_refl)
    as (Ha & Hr & He & _).
  { intros e _ _ _. by exists e. }
  rewrite Ha, Hr, He. by split_and!.
Defined.

End ServerMore.

(** ** The preprocessing of the tool registry *)

Module RegistrySpec.
Import JsString JsStringFacts Regex RegexFacts NaturalDateTime FlexibleDateTime Server
  Registry.

#[local] Arguments String.append !_ _ / : simpl nomatch.

(** One round of the loop changes the field it looks at, and no other. *)
Lemma normalizeField_lookup (m : gmap string JSValue) (f k : string) :
  normalizeField m f !! k
  = if String.eqb k f then flattened <$> (m !! f) else m !! k.
Proof.
  unfold normalizeField.
  destruct (String.eqb k f) eqn:E.
  - apply String.eqb_eq in E as ->.
    destruct (m !! f) as [v|] eqn:Hv; cbn [default]; [|cbn; exact Hv].
    destruct v; cbn; rewrite ?Hv; try done;
      repeat case_match; by rewrite ?lookup_insert_eq, ?Hv.
  - apply String.eqb_neq in E.
    repeat case_match; by rewrite ?lookup_insert_ne.
Qed.

Lemma fold_normalizeField_lookup (fs : list string) :
  forall (m : gmap string JSValue) (k : string),
  List.NoDup fs ->
  fold_left normalizeField fs m !! k
  = if existsb (String.eqb k) fs then flattened <$> (m !! k) else m !! k.
Proof.
  induction fs as [|f fs IH]; intros m k Hnd; [done|].
  apply List.NoDup_cons_iff in Hnd as [Hf Hnd].
  cbn [fold_left existsb]. rewrite IH by done. rewrite normalizeField_lookup.
  destruct (String.eqb k f) eqn:E; cbn [orb].
  - apply String.eqb_eq in E as ->.
    destruct (existsb (String.eqb f) fs) eqn:Hex; [|done].
    apply existsb_exists in Hex as (x & Hx & ->%String.eqb_eq). done.
  - done.
Qed.

Lemma dateTimeFields_NoDup : List.NoDup dateTimeFields.
Proof.
  unfold dateTimeFields.
  repeat (apply List.NoDup_cons; [cbn; intros H; repeat (destruct H as [H|H]; [discriminate H|]); done|]).
  apply List.NoDup_nil.
Qed.

(** X24.  [normalizeDateTimeFields] works field by field.  For one of the
    four tools with date/time fields, each of the six date/time fields that
    holds an object with a truthy [date] becomes that date, one with no
    truthy [date] but a truthy [dateTime] becomes that date-time (a
    [timeZone] beside it is dropped), and every other value, every other
    field and the set of fields stay as they are; for any other tool the
    arguments are returned untouched. *)
Theorem normalizeDateTimeFields_fieldwise
    (toolName : string) (args : gmap string JSValue) (k : string) :
  normalizeDateTimeFields toolName args !! k
  = if existsb (String.eqb toolName) toolsWithDateTime &&
       existsb (String.eqb k) dateTimeFields
    then flattened <$> (args !! k)
    else args !! k.
Proof.
  unfold normalizeDateTimeFields.
  destruct (existsb (String.eqb toolName) toolsWithDateTime); [|done].
  cbn [andb]. apply fold_normalizeField_lookup, dateTimeFields_NoDup.
Qed.

(** A greedy class that runs into a character outside the class, or into
    the end, hands over there, when the pattern that follows cannot start
    with a character of the class. *)
Lemma rep_run (p : ascii -> bool) (caps : Caps) (k : Kont) (rest : string) :
  match rest with String c _ => p c = false | EmptyString => True end ->
  (forall prev' c r, p c = true -> k prev' (String c r) caps = None) ->
  forall (w : string) (lo : nat) (prev : option ascii),
  allChars p w = true ->
  rep p lo None prev (w +:+ rest) caps k
  = if Nat.leb lo (String.length w) then k (lastChar prev w) rest caps else None.
Proof.
  intros Hrest Hk. induction w as [|a w IH]; intros lo prev Hw.
  - cbn [String.append String.length lastChar].
    destruct rest as [|c r]; cbn [rep].
    + by destruct lo.
    + rewrite Hrest. cbn [andb]. by destruct lo.
  - cbn [allChars] in Hw. apply andb_true_iff in Hw as [Ha Hw].
    cbn [String.append String.length lastChar rep]. rewrite Ha. cbn [andb mayTake option_map].
    rewrite (IH (Nat.pred lo) (Some a) Hw).
    destruct lo as [|lo]; cbn [Nat.pred Nat.leb].
    + destruct (k (lastChar (Some a) w) rest caps) as [res|] eqn:Hres; [done|].
      by apply Hk.
    + destruct (Nat.leb lo (String.length w)); [|done].
      by destruct (k (lastChar (Some a) w) rest caps).
Qed.

(** Every string splits into its longest prefix within a class and a rest
    that is empty or starts outside the class. *)
Lemma span_class (p : ascii -> bool) (s : string) :
  exists w rest,
    s = w +:+ rest /\ allChars p w = true /\
    match rest with String c _ => p c = false | EmptyString => True end.
Proof.
  induction s as [|c s (w & rest & -> & Hw & Hrest)].
  - by exists "", "".
  - destruct (p c) eqn:Hc.
    + exists (String c w), rest. cbn [allChars String.append]. by rewrite Hc, Hw.
    + by exists "", (String c (w +:+ rest)).
Qed.

(** X25.  The pattern of the extended-property filters accepts exactly the
    strings made of a non-empty key, one equals sign and a non-empty value,
    neither of which holds an equals sign. *)
Theorem key_value_pattern_accepts_exactly_one_equals (s : string) :
  isKeyValue s = true <->
  exists key value,
    s = key +:+ "=" +:+ value /\ key <> "" /\ value <> "" /\
    allChars notEquals key = true /\ allChars notEquals value = true.
Proof.
  unfold isKeyValue, testWhole, keyValuePattern.
  assert (Hhead : forall v, match "=" +:+ v with
                            | String c _ => notEquals c = false
                            | EmptyString => True
                            end) by done.
  assert (Hk1 : forall k' prev' c r, notEquals c = true ->
            exec (Lit "=" >> Cls notEquals 1 None) prev' (String c r) [] k' = None).
  { intros k' prev' c r Hc. cbn [exec dropPrefix].
    unfold notEquals in Hc. apply negb_true_iff in Hc.
    rewrite Ascii.eqb_sym in Hc. by rewrite Hc. }
  assert (Hk2 : forall prev' c r, notEquals c = true -> atEnd prev' (String c r) [] = None)
    by done.
  split.
  - destruct (span_class notEquals s) as (w & rest & -> & Hw & Hrest).
    change (exec (?a >> ?b) None ?x [] atEnd)
      with (exec a None x [] (fun prev' s' caps' => exec b prev' s' caps' atEnd)).
    cbn [exec].
    rewrite (rep_run notEquals [] _ rest Hrest) by (intros; by apply Hk1, H || done).
    destruct (Nat.leb 1 (String.length w)) eqn:Hlen; [|done].
    destruct (dropPrefix "=" rest) as [rest'|] eqn:Hdrop; [|done].
    destruct rest as [|c rest0]; [done|]. cbn [dropPrefix] in Hdrop.
    destruct (Ascii.eqb "=" c) eqn:Hc; [|done].
    apply Ascii.eqb_eq in Hc as <-. injection Hdrop as ->.
    destruct (span_class notEquals rest') as (w2 & rest2 & -> & Hw2 & Hrest2).
    rewrite (rep_run notEquals [] atEnd rest2 Hrest2 Hk2) by done.
    destruct (Nat.leb 1 (String.length w2)) eqn:Hlen2; [|done].
    destruct rest2; [|done]. intros _.
    exists w, w2. rewrite FlexibleDateTimeSpec.append_nil_r. split_and!; try done.
    + by destruct w.
    + by destruct w2.
  - intros (key & value & -> & Hkey & Hvalue & Hk & Hv).
    change (exec (?a >> ?b) None ?x [] atEnd)
      with (exec a None x [] (fun prev' s' caps' => exec b prev' s' caps' atEnd)).
    cbn [exec].
    rewrite (rep_run notEquals [] _ ("=" +:+ value) (Hhead value))
      by (intros; by apply Hk1, H || done).
    destruct key as [|c key]; [done|]. cbn [String.length Nat.leb].
    cbn [String.append dropPrefix]. cbn.
    pose proof (rep_run notEquals [] atEnd "" I Hk2 value 1 (Some "="%char) Hv) as Hrun.
    rewrite FlexibleDateTimeSpec.append_nil_r in Hrun.
    destruct value as [|d value]; [done|].
    cbn [String.length Nat.leb atEnd] in Hrun.
    unfold is_Some_b. by rewrite Hrun.
Qed.

Lemma nodup_length_le (l : list string) :
  (List.length (List.nodup String.string_dec l) <= List.length l)%nat.
Proof.
  induction l as [|a l IH]; cbn [List.nodup List.length]; [done|].
  destruct (in_dec String.string_dec a l); cbn [List.length]; lia.
Qed.

Lemma nodup_length_NoDup (l : list string) :
  List.length (List.nodup String.string_dec l) = List.length l -> List.NoDup l.
Proof.
  induction l as [|a l IH]; cbn [List.nodup List.length]; [constructor|].
  pose proof (nodup_length_le l) as Hle.
  destruct (in_dec String.string_dec a l) as [Hin|Hin]; cbn [List.length]; intros Hlen.
  - lia.
  - constructor; [done|]. apply IH. lia.
Qed.

Lemma nonEmptyStrings (l : list JSValue) :
  forallb isNonEmptyString l = true ->
  l = JString <$> stringsOf l /\ Forall (fun i => i <> "") (stringsOf l).
Proof.
  induction l as [|v l IH]; [done|].
  cbn [forallb]. intros [Hv Hl]%andb_true_iff. destruct (IH Hl) as [Heq Hall].
  destruct v as [| | | | |s| |]; try done. destruct s as [|c s]; [done|].
  unfold stringsOf in *. cbn. split; [by rewrite <- Heq|]. by constructor.
Qed.

Section ListEvents.
Variable JSON_parse : string -> string + JSValue.

Abbreviation handlerFunction := (handlerFunction JSON_parse).
Abbreviation parseCalendarIds := (parseCalendarIds JSON_parse).

(** What the [try] block lets through. *)
Lemma parseCalendarIds_valid (s : string) (parsed : list JSValue) :
  parseCalendarIds s = inr parsed ->
  exists ids : list string,
    parsed = JString <$> ids /\
    JSON_parse (normalizeQuotes (trim s)) = inr (JArray parsed) /\
    List.NoDup ids /\ Forall (fun i => i <> "") ids /\
    (1 <= List.length ids <= 50)%nat.
Proof.
  unfold Registry.parseCalendarIds.
  destruct (JSON_parse _) as [e|v]; [done|].
  destruct v as [| | | | | |l|]; try done.
  destruct (forallb isNonEmptyString l) eqn:Hall; [|done]. cbn [negb].
  destruct (Nat.eqb (List.length l) 0) eqn:H0; [done|].
  destruct (Nat.ltb 50 (List.length l)) eqn:H50; [done|].
  destruct (Nat.eqb (setSize l) (List.length l)) eqn:Hset; [|done]. cbn [negb].
  intros [= <-].
  destruct (nonEmptyStrings l Hall) as [Heq Hne].
  assert (Hlen : List.length (stringsOf l) = List.length l).
  { rewrite Heq at 2. by rewrite length_fmap. }
  exists (stringsOf l). split_and!; try done.
  - apply nodup_length_NoDup. apply Nat.eqb_eq in Hset. unfold setSize in Hset. lia.
  - apply Nat.eqb_neq in H0. lia.
  - apply Nat.ltb_ge in H50. lia.
Qed.

(** X26.  The preprocessing of [list-google-calendar-events].  A
    [calendarId] that is a string in square brackets is read as a JSON list:
    when the arguments come back, the [calendarId] is the parsed array, which
    holds between 1 and 50 strings, none empty and no two equal; when an
    error is thrown, its message starts with "Invalid JSON format for
    calendarId: ".  Any other [calendarId], a native array too, is passed on
    as it is and nothing is thrown.  The other fields are never touched. *)
Theorem calendar_id_list_is_validated (args : gmap string JSValue) :
  (forall res, handlerFunction args = inr res ->
     (forall k : string, k <> "calendarId" -> res !! k = args !! k) /\
     match looksLikeList (field args "calendarId") with
     | Some s =>
         exists ids : list string,
           res !! "calendarId" = Some (JArray (JString <$> ids)) /\
           JSON_parse (normalizeQuotes (trim s)) = inr (JArray (JString <$> ids)) /\
           List.NoDup ids /\ Forall (fun i => i <> "") ids /\
           (1 <= List.length ids <= 50)%nat
     | None => res !! "calendarId" = Some (field args "calendarId")
     end) /\
  (forall msg, handlerFunction args = inl msg ->
     startsWith invalidJson msg = true /\
     exists s, looksLikeList (field args "calendarId") = Some s).
Proof.
  unfold Registry.handlerFunction. split.
  - intros res.
    destruct (looksLikeList (field args "calendarId")) as [s|].
    + destruct (parseCalendarIds s) as [e|parsed] eqn:Hp; [done|].
      intros [= <-]. split; [intros k Hk; by rewrite lookup_insert_ne|].
      destruct (parseCalendarIds_valid s parsed Hp) as (ids & -> & Hj & Hrest).
      exists ids. by rewrite lookup_insert_eq.
    + intros [= <-]. split; [intros k Hk; by rewrite lookup_insert_ne|].
      by rewrite lookup_insert_eq.
  - intros msg.
    destruct (looksLikeList (field args "calendarId")) as [s|]; [|done].
    destruct (parseCalendarIds s) as [e|parsed]; [|done].
    intros [= <-]. split; [|by exists s].
    change (startsWith invalidJson (invalidJson +:+ e) = true).
    unfold startsWith. by rewrite dropPrefix_app_same.
Qed.

End ListEvents.

Lemma normalizeDateTimeFields_fieldwise_witness :
  let out := normalizeDateTimeFields "create-google-calendar-event" SamplesRegistry.apiFormat in
  out !! "start" = Some (JString "2025-01-01T10:00:00") /\
  out !! "end" = Some (JString "2025-01-02") /\
  out !! "summary" = Some (JString "Team Sync").
Proof.
  cbv zeta. rewrite !normalizeDateTimeFields_fieldwise. by vm_compute.
Defined.

Lemma key_value_pattern_accepts_exactly_one_equals_witness :
  isKeyValue "project=apollo" = true /\ isKeyValue "a=b=c" = false.
Proof.
  split.
  - apply (proj2 (key_value_pattern_accepts_exactly_one_equals "project=apollo")).
    exists "project", "apollo". by split_and!.
  - reflexivity.
Defined.

Lemma calendar_id_list_is_validated_witness :
  let args := SamplesRegistry.twoCalendars in
  handlerFunction SamplesRegistry.parseTwoIds args
  = inr (<["calendarId" := JArray [JString "work"; JString "home"]]> args) /\
  exists ids : list string,
    JArray [JString "work"; JString "home"] = JArray (JString <$> ids) /\ List.NoDup ids.
Proof.
  cbv zeta.
  assert (H : handlerFunction SamplesRegistry.parseTwoIds SamplesRegistry.twoCalendars
              = inr (<["calendarId" := JArray [JString "work"; JString "home"]]>
                       SamplesRegistry.twoCalendars)) by reflexivity.
  split; [exact H|].
  destruct (proj1 (calendar_id_list_is_validated SamplesRegistry.parseTwoIds
                     SamplesRegistry.twoCalendars) _ H) as [_ Hids].
  change (looksLikeList (field SamplesRegistry.twoCalendars "calendarId"))
    with (Some " ['work', 'home'] ") in Hids.
  destruct Hids as (ids & Hlook & _ & Hnd & _).
  exists ids. split; [|exact Hnd].
  rewrite lookup_insert_eq in Hlook. injection Hlook as Hl. by rewrite Hl.
Defined.

End RegistrySpec.

(** ** The [execute] callback of the FastMCP server *)

Module FastServerSpec.
Import JsString Eff Eff.Notations Server Registry RegistrySpec FastServer.

Section Execute.
Variable Result : Type.
Variable getAuthenticatedClient : JSValue -> JSValue -> Thrown + OAuth2Client.
Variable runTool : gmap string JSValue -> OAuth2Client -> string + Result.

Abbreviation Preprocessor := (gmap string JSValue -> string + gmap string JSValue).
Abbreviation execute := (execute Result getAuthenticatedClient).

(** The normalised arguments, field by field. *)
Lemma normalizedArgs_lookup (args : gmap string JSValue) (k : string) :
  normalizedArgs args !! k
  = if existsb (String.eqb k) dateTimeFields then flattened <$> (args !! k) else args !! k.
Proof. apply fold_normalizeField_lookup, dateTimeFields_NoDup. Qed.

(** The callback, step by step. *)
Lemma execute_run (handlerFunction : option Preprocessor)
    (toolName : string) (args : gmap string JSValue) :
  run (execute handlerFunction runTool toolName args)
  = let n := normalizedArgs args in
    let user_id := field args "user_id" in
    let provider := field args "provider" in
    let pre := [StderrDebug toolName n; GetAuthenticatedClient user_id provider] in
    match getAuthenticatedClient user_id provider with
    | inl t => (inl t, pre)
    | inr c =>
        match handlerFunction with
        | Some f =>
            match f n with
            | inl e => (inl (Raised e), (pre ++ [HandlerFunction n])%list)
            | inr _ =>
                (raised (runTool (restOf n) c),
                 (pre ++ [HandlerFunction n; RunTool (restOf n) c])%list)
            end
        | None =>
            (raised (runTool (restOf n) c), (pre ++ [RunTool (restOf n) c])%list)
        end
    end.
Proof.
  unfold FastServer.execute, run, bind, call, ret, field. cbv zeta.
  rewrite !normalizedArgs_lookup. cbn [existsb String.eqb Ascii.eqb Bool.eqb orb].
  destruct (getAuthenticatedClient _ _) as [t|c]; [done|].
  destruct handlerFunction as [f|]; [|done].
  by destruct (f (normalizedArgs args)) as [e|processed].
Qed.

(** X27.  In the FastMCP server the handler is called with the normalised
    arguments without [user_id] and [provider], and with the client that
    [getAuthenticatedClient] returned for those two: every date/time field is
    flattened, every other field is as it came.  What the tool's
    [handlerFunction] returns is not used: as long as it returns at all, the
    arguments of the handler and the outcome of the call are the ones of a
    tool without a [handlerFunction]; if it throws, the handler is not
    called. *)
Theorem handler_function_result_is_not_used
    (handlerFunction : option Preprocessor)
    (toolName : string) (args : gmap string JSValue) :
  (forall toolArgs authClient,
     In (RunTool toolArgs authClient)
        (trace (execute handlerFunction runTool toolName args)) ->
     getAuthenticatedClient (field args "user_id") (field args "provider") = inr authClient /\
     toolArgs !! "user_id" = None /\
     toolArgs !! "provider" = None /\
     (forall k : string, k <> "user_id" -> k <> "provider" ->
        toolArgs !! k
        = if existsb (String.eqb k) dateTimeFields
          then flattened <$> (args !! k) else args !! k)) /\
  (forall f processed,
     handlerFunction = Some f -> f (normalizedArgs args) = inr processed ->
     outcome (execute handlerFunction runTool toolName args)
     = outcome (execute None runTool toolName args) /\
     List.filter isRunTool (trace (execute handlerFunction runTool toolName args))
     = List.filter isRunTool (trace (execute None runTool toolName args))) /\
  (forall f e,
     handlerFunction = Some f -> f (normalizedArgs args) = inl e ->
     List.filter isRunTool (trace (execute handlerFunction runTool toolName args)) = []).
Proof.
  split_and!.
  - intros toolArgs authClient. unfold trace. rewrite execute_run. cbv zeta.
    assert (Hrest : forall c, RunTool (restOf (normalizedArgs args)) c = RunTool toolArgs authClient ->
              getAuthenticatedClient (field args "user_id") (field args "provider") = inr c ->
              getAuthenticatedClient (field args "user_id") (field args "provider")
              = inr authClient /\
              toolArgs !! "user_id" = None /\
              toolArgs !! "provider" = None /\
              (forall k : string, k <> "user_id" -> k <> "provider" ->
                 toolArgs !! k
                 = if existsb (String.eqb k) dateTimeFields
                   then flattened <$> (args !! k) else args !! k)).
    { intros c [= <- <-] Hc. unfold restOf. split_and!; [done| | |].
      - rewrite lookup_delete_ne by done. apply lookup_delete_eq.
      - apply lookup_delete_eq.
      - intros k H1 H2. rewrite !lookup_delete_ne by done. apply normalizedArgs_lookup. }
    destruct (getAuthenticatedClient _ _) as [t|c] eqn:Hc; cbn [snd].
    { intros Hin. repeat (destruct Hin as [Hin|Hin]; [discriminate Hin|]). done. }
    destruct handlerFunction as [f|]; [destruct (f _)|]; cbn [snd app]; intros Hin;
      repeat (destruct Hin as [Hin|Hin]; [first [discriminate Hin|by apply (Hrest c)]|]);
      done.
  - intros f processed -> Hf. unfold outcome, trace. rewrite !execute_run. cbv zeta.
    rewrite Hf.
    by destruct (getAuthenticatedClient _ _) as [t|c].
  - intros f e -> Hf. unfold trace. rewrite execute_run. cbv zeta. rewrite Hf.
    by destruct (getAuthenticatedClient _ _) as [t|c].
Qed.

End Execute.

Lemma handler_function_result_is_not_used_witness :
  let run :=
    execute string (fun _ _ => inr Samples.freshClient) (Some (fun _ => inr ∅))
      (fun _ _ => inr "done") "create-google-calendar-event" SamplesRegistry.apiFormat in
  let toolArgs := restOf (normalizedArgs SamplesRegistry.apiFormat) in
  In (RunTool toolArgs Samples.freshClient) (trace run) /\
  toolArgs !! "user_id" = None /\
  toolArgs !! "start" = Some (JString "2025-01-01T10:00:00").
Proof.
  cbv zeta.
  assert (Hin : In (RunTool (restOf (normalizedArgs SamplesRegistry.apiFormat))
                      Samples.freshClient)
                   (trace (execute string (fun _ _ => inr Samples.freshClient)
                             (Some (fun _ => inr ∅)) (fun _ _ => inr "done")
                             "create-google-calendar-event" SamplesRegistry.apiFormat))).
  { do 3 right. left. reflexivity. }
  split; [exact Hin|].
  destruct (proj1 (handler_function_result_is_not_used string
                     (fun _ _ => inr Samples.freshClient) (fun _ _ => inr "done")
                     (Some (fun _ => inr ∅)) "create-google-calendar-event"
                     SamplesRegistry.apiFormat) _ _ Hin) as (_ & Hu & _ & Hk).
  split; [exact Hu|]. rewrite Hk by done. reflexivity.
Defined.

End FastServerSpec.

(** ** The token fetcher *)

Module TokenFetcherSpec.
Import JsString JsStringFacts Eff Eff.Notations TokenFetcher.

#[local] Arguments String.append !_ _ / : simpl nomatch.

Section Fetcher.
Variable getOAuthTokens : string -> string -> string + AuthResult.
Variable initializeOAuth2Client : string + OAuth2Client.

Abbreviation getAuthenticatedClient :=
  (getAuthenticatedClient getOAuthTokens initializeOAuth2Client).
Abbreviation getAuthenticatedClientWrapped :=
  (getAuthenticatedClientWrapped getOAuthTokens).
Abbreviation found := (found getOAuthTokens).

Lemma nonEmpty_Some (s : string) : nonEmpty (Some s) = true <-> s <> "".
Proof. by destruct s. Qed.

(** The fetcher of the handler's file on a request with both parameters,
    step by step. *)
Lemma getAuthenticatedClient_run (userId provider : string) :
  userId <> "" -> provider <> "" ->
  run (getAuthenticatedClient userId provider)
  = match found userId provider with
    | Some t =>
        (match initializeOAuth2Client with
         | inl e => inl (Raised e)
         | inr c =>
             inr (setCredentials c
                    (credentialsFor t (Some (orElse (token_type t) "Bearer"))))
         end,
         [GetOAuthTokens userId provider; InitializeOAuth2Client])
    | None =>
        (match getOAuthTokens userId provider with
         | inl e => inl (Raised e)
         | inr (AuthFailure error (Some true) message) =>
             inl (McpError InvalidRequest
                    (orElse message (orElse (Some error) "Authentication required")))
         | inr (AuthFailure error _ _) =>
             inl (McpError InternalError
                    (orElse (Some error) "Failed to retrieve OAuth tokens"))
         | inr (AuthSuccess _) =>
             inl (McpError InternalError
                    ("[AUTH_ERROR] No access token found for provider " +:+ provider))
         end,
         [GetOAuthTokens userId provider])
    end.
Proof.
  intros Hu%nonEmpty_Some Hp%nonEmpty_Some.
  unfold TokenFetcher.getAuthenticatedClient, TokenFetcher.found, run. rewrite Hu, Hp.
  cbn [negb orb]. unfold bind, call, ret, throw, raised. cbn [app].
  destruct (getOAuthTokens userId provider) as [e|[error [[]|] message|tokens]]; try done.
  destruct (tokens !! provider) as [t|]; [|done].
  destruct (nonEmpty (access_token t)); [|done].
  by destruct initializeOAuth2Client.
Qed.

(** X28.  [getAuthenticatedClient] of the handler's file returns a client
    only when both parameters are non-empty, the token service answers with
    success and holds a non-empty access token for the provider, and a client
    can be built; the client then carries that access token, the refresh
    token, the expiry time in milliseconds (none for a missing or zero
    [expires_at]) and the token type, [Bearer] by default.  A client is built
    only after such tokens were found, and with an empty parameter nothing
    is asked of the token service. *)
Theorem client_is_built_only_for_found_access_token (userId provider : string) :
  (forall c, outcome (getAuthenticatedClient userId provider) = inr c ->
     userId <> "" /\ provider <> "" /\
     exists tokens t a c0,
       getOAuthTokens userId provider = inr (AuthSuccess tokens) /\
       tokens !! provider = Some t /\
       access_token t = Some a /\ a <> "" /\
       initializeOAuth2Client = inr c0 /\
       clientId c = clientId c0 /\
       credentials c
       = Some {| cr_access_token := Some a;
                 cr_refresh_token := refresh_token t;
                 cr_expiry_date :=
                   match expires_at t with
                   | Some q => if Qeq_bool q 0 then None else Some (q * 1000)%Q
                   | None => None
                   end;
                 cr_token_type := Some (orElse (token_type t) "Bearer") |}) /\
  (In InitializeOAuth2Client (trace (getAuthenticatedClient userId provider)) ->
   exists t, found userId provider = Some t) /\
  (userId = "" \/ provider = "" ->
   run (getAuthenticatedClient userId provider)
   = (inl (McpError InvalidRequest requiredParameters), [])).
Proof.
  assert (Hempty : userId = "" \/ provider = "" ->
            run (getAuthenticatedClient userId provider)
            = (inl (McpError InvalidRequest requiredParameters), [])).
  { unfold TokenFetcher.getAuthenticatedClient, run.
    intros [-> | ->]; cbn [nonEmpty negb orb]; [done|]. by rewrite orb_true_r. }
  split_and!; [| |exact Hempty].
  - intros c Hc.
    destruct userId as [|u0 u]; [unfold outcome in Hc; by rewrite Hempty in Hc; auto|].
    destruct provider as [|p0 p]; [unfold outcome in Hc; by rewrite Hempty in Hc; auto|].
    split; [done|]. split; [done|].
    unfold outcome in Hc. rewrite getAuthenticatedClient_run in Hc by done.
    unfold TokenFetcher.found in Hc.
    destruct (getOAuthTokens _ _) as [e|[error [[]|] message|tokens]]; try done.
    destruct (tokens !! String p0 p) as [t|] eqn:Ht; [|done].
    destruct (access_token t) as [[|a0 a]|] eqn:Ha; try done. cbn [nonEmpty] in Hc.
    destruct initializeOAuth2Client as [e|c0]; [done|].
    cbn [fst] in Hc. injection Hc as <-.
    exists tokens, t, (String a0 a), c0. split_and!; try done.
    cbn [credentials setCredentials]. unfold credentialsFor. by rewrite Ha.
  - intros Hin.
    destruct userId as [|u0 u];
      [unfold trace in Hin; rewrite Hempty in Hin by auto; done|].
    destruct provider as [|p0 p];
      [unfold trace in Hin; rewrite Hempty in Hin by auto; done|].
    unfold trace in Hin. rewrite getAuthenticatedClient_run in Hin by done.
    destruct (found _ _) as [t|]; [by exists t|].
    cbn [snd] in Hin. by destruct Hin as [Hin|[]].
Qed.

(** The fetcher of the token fetcher's own file on a request with both
    parameters, step by step. *)
Lemma getAuthenticatedClientWrapped_run (user_id provider : string) :
  user_id <> "" -> provider <> "" ->
  run (getAuthenticatedClientWrapped user_id provider)
  = (match found user_id provider with
     | Some t =>
         inr (setCredentials {| clientId := ""; credentials := None |}
                (credentialsFor t (token_type t)))
     | None =>
         match getOAuthTokens user_id provider with
         | inl e =>
             inl (McpError InternalError ("[AUTH_ERROR] Failed to authenticate: " +:+ e))
         | inr (AuthFailure error (Some true) message) =>
             inl (McpError InvalidRequest
                    (orElse message
                       ("Authentication required: Please connect your " +:+ provider +:+
                        " account.")))
         | inr (AuthFailure error _ _) =>
             inl (McpError InternalError
                    (orElse (Some error) "Failed to retrieve OAuth tokens"))
         | inr (AuthSuccess _) =>
             inl (McpError InvalidRequest
                    ("[AUTH_ERROR] No access token found for provider " +:+ provider))
         end
     end,
     [GetOAuthTokens user_id provider]).
Proof.
  intros Hu%nonEmpty_Some Hp%nonEmpty_Some.
  unfold TokenFetcher.getAuthenticatedClientWrapped, TokenFetcher.found, run.
  rewrite Hu, Hp. cbn [negb orb]. unfold tryCatch, bind, call, ret, throw, raised. cbn [app].
  destruct (getOAuthTokens user_id provider) as [e|[error [[]|] message|tokens]]; try done.
  destruct (tokens !! provider) as [t|]; [|done].
  by destruct (nonEmpty (access_token t)).
Qed.

(** X29.  [getAuthenticatedClient] of the token fetcher's own file throws
    nothing but [McpError]s: an error of the token service comes out as an
    [InternalError] whose message starts with "[AUTH_ERROR] Failed to
    authenticate: ".  It never calls the client factory, and whenever the
    factory works it returns a client in exactly the cases in which the
    fetcher of the handler's file does, with the same access token, refresh
    token and expiry time. *)
Theorem wrapped_fetcher_throws_only_mcp_errors (user_id provider : string) :
  (forall t, outcome (getAuthenticatedClientWrapped user_id provider) = inl t ->
     exists code msg, t = McpError code msg) /\
  (forall e, user_id <> "" -> provider <> "" -> getOAuthTokens user_id provider = inl e ->
     outcome (getAuthenticatedClientWrapped user_id provider)
     = inl (McpError InternalError ("[AUTH_ERROR] Failed to authenticate: " +:+ e)) /\
     outcome (getAuthenticatedClient user_id provider) = inl (Raised e)) /\
  ~ In InitializeOAuth2Client (trace (getAuthenticatedClientWrapped user_id provider)) /\
  (forall c0, initializeOAuth2Client = inr c0 ->
     forall cr,
       (exists c, outcome (getAuthenticatedClient user_id provider) = inr c /\
                  credentials c = Some cr) ->
       exists c' cr',
         outcome (getAuthenticatedClientWrapped user_id provider) = inr c' /\
         credentials c' = Some cr' /\
         cr_access_token cr' = cr_access_token cr /\
         cr_refresh_token cr' = cr_refresh_token cr /\
         cr_expiry_date cr' = cr_expiry_date cr) /\
  (forall c0, initializeOAuth2Client = inr c0 ->
     forall c', outcome (getAuthenticatedClientWrapped user_id provider) = inr c' ->
     exists c, outcome (getAuthenticatedClient user_id provider) = inr c).
Proof.
  assert (Hempty : user_id = "" \/ provider = "" ->
            run (getAuthenticatedClientWrapped user_id provider)
            = (inl (McpError InvalidParams requiredParameters), []) /\
            run (getAuthenticatedClient user_id provider)
            = (inl (McpError InvalidRequest requiredParameters), [])).
  { unfold TokenFetcher.getAuthenticatedClientWrapped, TokenFetcher.getAuthenticatedClient, run.
    intros [-> | ->]; cbn [nonEmpty negb orb]; [done|]. by rewrite orb_true_r. }
  assert (Hcases : (user_id = "" \/ provider = "") \/ (user_id <> "" /\ provider <> "")).
  { destruct user_id; [by left; left|]. destruct provider; [by left; right|]. by right. }
  split_and!.
  - intros t. unfold outcome.
    destruct Hcases as [He|[Hu Hp]].
    + destruct (Hempty He) as [-> _]. intros [= <-]. by eexists _, _.
    + rewrite getAuthenticatedClientWrapped_run by done. cbn [fst].
      destruct (found _ _); [done|].
      destruct (getOAuthTokens _ _) as [e|[error [[]|] message|tokens]];
        intros [= <-]; by eexists _, _.
  - intros e Hu Hp He. unfold outcome.
    rewrite getAuthenticatedClientWrapped_run, getAuthenticatedClient_run by done.
    unfold TokenFetcher.found. by rewrite He.
  - unfold trace.
    destruct Hcases as [He|[Hu Hp]].
    + destruct (Hempty He) as [-> _]. by intros [].
    + rewrite getAuthenticatedClientWrapped_run by done. by intros [|[]].
  - intros c0 Hinit cr (c & Hc & Hcr). unfold outcome in *.
    destruct Hcases as [He|[Hu Hp]].
    { destruct (Hempty He) as [_ Hplain]. by rewrite Hplain in Hc. }
    rewrite getAuthenticatedClient_run in Hc by done.
    rewrite getAuthenticatedClientWrapped_run by done.
    destruct (found _ _) as [t|]; cbn [fst] in *.
    + rewrite Hinit in Hc. injection Hc as <-. cbn [credentials setCredentials] in Hcr.
      injection Hcr as <-. by eexists _, _.
    + by destruct (getOAuthTokens _ _) as [e|[error [[]|] message|tokens]].
  - intros c0 Hinit c'. unfold outcome.
    destruct Hcases as [He|[Hu Hp]].
    { destruct (Hempty He) as [Hw _]. by rewrite Hw. }
    rewrite getAuthenticatedClient_run, getAuthenticatedClientWrapped_run by done.
    destruct (found _ _) as [t|]; cbn [fst].
    + rewrite Hinit. by eexists.
    + by destruct (getOAuthTokens _ _) as [e|[error [[]|] message|tokens]].
Qed.

End Fetcher.

Lemma client_is_built_only_for_found_access_token_witness :
  let c :=
    setCredentials SamplesTokens.blankClient
      {| cr_access_token := Some "ya29.test_access_token";
         cr_refresh_token := Some "1//test_refresh_token";
         cr_expiry_date := Some 1763010691000%Q;
         cr_token_type := Some "Bearer" |} in
  outcome (getAuthenticatedClient SamplesTokens.service (inr SamplesTokens.blankClient)
             "user123" "google") = inr c /\
  exists tokens t,
    SamplesTokens.service "user123" "google" = inr (AuthSuccess tokens) /\
    tokens !! "google" = Some t /\
    access_token t = Some "ya29.test_access_token".
Proof.
  cbv zeta. split; [reflexivity|].
  destruct (proj1 (client_is_built_only_for_found_access_token SamplesTokens.service
                     (inr SamplesTokens.blankClient) "user123" "google") _ eq_refl)
    as (_ & _ & tokens & t & a & c0 & Hs & Ht & Ha & _ & _ & _ & Hcr).
  exists tokens, t. split; [exact Hs|]. split; [exact Ht|].
  cbn [credentials setCredentials] in Hcr. injection Hcr as <- _ _. exact Ha.
Defined.

End TokenFetcherSpec.

(** ** The dispatcher that falls back on stored tokens *)

Module StoredTokensSpec.
Import JsString Eff Eff.Notations Server StoredTokens.

Section Dispatcher.
Variable Result : Type.
Variable oauth2Client : OAuth2Client.
Variable validateTokens : string + bool.
Variable initializeOAuth2Client : string + OAuth2Client.
Variable runTool : gmap string JSValue -> OAuth2Client -> string + Result.

Abbreviation executeWithHandler :=
  (executeWithHandler Result oauth2Client validateTokens initializeOAuth2Client runTool).

(** The dispatcher, step by step. *)
Lemma executeWithHandler_steps (args : gmap string JSValue) :
  run (executeWithHandler args)
  = if truthy (field args "access_token") || truthy (field args "refresh_token") then
      match initializeOAuth2Client with
      | inl e => (inl (Raised e), [InitializeOAuth2Client])
      | inr c =>
          let authClient :=
            setCredentials c {| access_token := field args "access_token";
                                refresh_token := field args "refresh_token";
                                expiry_date := JUndefined |} in
          (raised (runTool (restOf args) authClient),
           [InitializeOAuth2Client; RunTool (restOf args) authClient])
      end
    else
      match validateTokens with
      | inl e => (inl (Raised e), [ValidateTokens])
      | inr true =>
          (raised (runTool (restOf args) oauth2Client),
           [ValidateTokens; RunTool (restOf args) oauth2Client])
      | inr false => (inl (McpError "InvalidRequest" authRequired), [ValidateTokens])
      end.
Proof.
  unfold StoredTokens.executeWithHandler, run, bind, call, ret, throw. cbv zeta.
  destruct (truthy _ || truthy _).
  - by destruct initializeOAuth2Client.
  - by destruct validateTokens as [e|[]].
Qed.

(** X30.  The dispatcher with stored tokens.  One truthy token in the
    request is enough: a fresh client is given the two tokens of the request
    as they are, the stored tokens are not looked at, and the handler runs
    with that client.  With no truthy token the stored tokens decide: the
    handler runs with the server's own client if they are valid, and
    otherwise the request is refused and the handler is not called.  The
    handler never sees [access_token] or [refresh_token]; every other
    argument, [expiry_date] too, reaches it as it came. *)
Theorem one_token_is_enough_and_stored_tokens_are_the_fallback
    (args : gmap string JSValue) :
  (truthy (field args "access_token") || truthy (field args "refresh_token") = true ->
   ~ In ValidateTokens (trace (executeWithHandler args)) /\
   forall c, initializeOAuth2Client = inr c ->
     let authClient :=
       setCredentials c {| access_token := field args "access_token";
                           refresh_token := field args "refresh_token";
                           expiry_date := JUndefined |} in
     run (executeWithHandler args)
     = (raised (runTool (restOf args) authClient),
        [InitializeOAuth2Client; RunTool (restOf args) authClient])) /\
  (truthy (field args "access_token") || truthy (field args "refresh_token") = false ->
   ~ In InitializeOAuth2Client (trace (executeWithHandler args)) /\
   (validateTokens = inr true ->
    run (executeWithHandler args)
    = (raised (runTool (restOf args) oauth2Client),
       [ValidateTokens; RunTool (restOf args) oauth2Client])) /\
   (validateTokens = inr false ->
    run (executeWithHandler args)
    = (inl (McpError "InvalidRequest" authRequired), [ValidateTokens]))) /\
  (forall toolArgs authClient,
     In (RunTool toolArgs authClient) (trace (executeWithHandler args)) ->
     toolArgs !! "access_token" = None /\
     toolArgs !! "refresh_token" = None /\
     (forall k : string, k <> "access_token" -> k <> "refresh_token" ->
        toolArgs !! k = args !! k)).
Proof.
  split_and!.
  - intros Htok. split.
    + unfold trace. rewrite executeWithHandler_steps, Htok.
      destruct initializeOAuth2Client; cbn [snd]; intros Hin;
        repeat (destruct Hin as [Hin|Hin]; [discriminate Hin|]); done.
    + intros c Hc. cbv zeta. by rewrite executeWithHandler_steps, Htok, Hc.
  - intros Htok. split_and!.
    + unfold trace. rewrite executeWithHandler_steps, Htok.
      destruct validateTokens as [e|[]]; cbn [snd]; intros Hin;
        repeat (destruct Hin as [Hin|Hin]; [discriminate Hin|]); done.
    + intros Hv. by rewrite executeWithHandler_steps, Htok, Hv.
    + intros Hv. by rewrite executeWithHandler_steps, Htok, Hv.
  - intros toolArgs authClient. unfold trace. rewrite executeWithHandler_steps.
    assert (Hrest : forall c, RunTool (restOf args) c = RunTool toolArgs authClient ->
              toolArgs !! "access_token" = None /\
              toolArgs !! "refresh_token" = None /\
              (forall k : string, k <> "access_token" -> k <> "refresh_token" ->
                 toolArgs !! k = args !! k)).
    { intros c [= <- _]. unfold restOf. split_and!.
      - rewrite lookup_delete_ne by done. apply lookup_delete_eq.
      - apply lookup_delete_eq.
      - intros k H1 H2. by rewrite !lookup_delete_ne. }
    destruct (truthy _ || truthy _).
    + destruct initializeOAuth2Client; cbn [snd]; intros Hin;
        repeat (destruct Hin as [Hin|Hin]; [first [discriminate Hin|by apply (Hrest _ Hin)]|]);
        done.
    + destruct validateTokens as [e|[]]; cbn [snd]; intros Hin;
        repeat (destruct Hin as [Hin|Hin]; [first [discriminate Hin|by apply (Hrest _ Hin)]|]);
        done.
Qed.

End Dispatcher.

End StoredTokensSpec.
